(** * DL-Art-School data loaders: GrandConjoinedDataset and DownsampleDataset

    A shallow embedding of
      - codes/data/audio/grand_conjoined_dataset.py
      - codes/data/Downsample_dataset.py
    Python exceptions, the recursion of [fetch_text_at] and the reads of the
    underlying corpora are explicit: every method is a computation in a
    state-and-exception monad. *)

From Stdlib Require Import ZArith String Ascii List Lia Bool.
From stdpp Require Import base gmap strings list.
Import ListNotations.
Local Open Scope string_scope.
Local Open Scope list_scope.
Local Open Scope Z_scope.

(** ** The fragment of the Python runtime the two modules rely on *)

Module Py.

(** Exceptions the code can meet.  [LibraryError] stands for whatever an
    external library (tokenizer, image codec, lmdb, ...) raises. *)
Inductive exn : Type :=
| ZeroDivisionError
| IndexError
| KeyError (key : string)
| TypeError
| ValueError
| AttributeError (attr : string)
| AssertionError (msg : string)
| LibraryError (what : string).

(** What a call into code outside the module gives back. *)
Definition fallible (A : Type) : Type := (exn + A)%type.

(** How a call ends.  [Diverged] is only produced by a recursion whose
    fuel ran out. *)
Inductive outcome (A : Type) : Type :=
| Returned (a : A)
| Raised (e : exn)
| Diverged.
Arguments Returned {A} a.
Arguments Raised {A} e.
Arguments Diverged {A}.

(** Computations over a mutable world [S]. *)
Definition M (S A : Type) : Type := S -> outcome A * S.

Definition ret {S A} (a : A) : M S A := fun s => (Returned a, s).
Definition raise {S A} (e : exn) : M S A := fun s => (Raised e, s).
Definition diverge {S A} : M S A := fun s => (Diverged, s).

Definition bind {S A B} (m : M S A) (k : A -> M S B) : M S B :=
  fun s =>
    match m s with
    | (Returned a, s') => k a s'
    | (Raised e, s') => (Raised e, s')
    | (Diverged, s') => (Diverged, s')
    end.

(** [try: body except: handler] with a bare [except]: every exception is
    caught, the effects of the failed body stay. *)
Definition try_except {S A} (body handler : M S A) : M S A :=
  fun s =>
    match body s with
    | (Raised _, s') => handler s'
    | r => r
    end.

Definition lift {S A} (r : fallible A) : M S A :=
  match r with
  | inl e => raise e
  | inr a => ret a
  end.

Definition get {S} : M S S := fun s => (Returned s, s).
Definition put {S} (s : S) : M S unit := fun _ => (Returned tt, s).

Definition py_assert {S} (cond : bool) (msg : string) : M S unit :=
  if cond then ret tt else raise (AssertionError msg).

(** [len(l)] *)
Definition len {A} (l : list A) : Z := Z.of_nat (length l).

(** [a % b] on ints: the result takes the sign of [b], as [Z.modulo] does;
    a zero divisor raises. *)
Definition py_mod (a b : Z) : fallible Z :=
  if b =? 0 then inl ZeroDivisionError else inr (a mod b).

(** [a // b] on ints. *)
Definition py_floordiv (a b : Z) : fallible Z :=
  if b =? 0 then inl ZeroDivisionError else inr (a / b).

(** [int(a / b)] on ints: true division, then truncation toward zero. *)
Definition py_int_truediv (a b : Z) : fallible Z :=
  if b =? 0 then inl ZeroDivisionError else inr (Z.quot a b).

(** The two-argument builtins [min(a, b)] and [max(a, b)]: the first
    argument is kept unless the second is strictly better. *)
Definition py_min (a b : Z) : Z := if b <? a then b else a.
Definition py_max (a b : Z) : Z := if b >? a then b else a.

(** [max(a, b, c)] scans left to right. *)
Definition py_max3 (a b c : Z) : Z := py_max (py_max a b) c.

(** [l[i]] on a sequence: a negative index counts from the end, an index
    out of range raises [IndexError]. *)
Definition seq_getitem {A} (l : list A) (i : Z) : fallible A :=
  let j := if i <? 0 then i + len l else i in
  if j <? 0 then inl IndexError
  else match l !! Z.to_nat j with
       | Some x => inr x
       | None => inl IndexError
       end.

(** [l[:stop]]: a negative [stop] counts from the end. *)
Definition slice_to {A} (l : list A) (stop : Z) : list A :=
  if stop <? 0 then firstn (Z.to_nat (len l + stop)) l
  else firstn (Z.to_nat stop) l.

(** [c in s] for a one-character [c]. *)
Fixpoint contains_char (c : ascii) (s : string) : bool :=
  match s with
  | EmptyString => false
  | String a rest => if Ascii.eqb a c then true else contains_char c rest
  end.

End Py.

Export Py.

Declare Scope py_scope.
Delimit Scope py_scope with py.
Notation "x <- m ; k" := (bind m (fun x => k))
  (at level 20, m at level 100, k at level 200, only parsing) : py_scope.
Notation "' pat <- m ; k" := (bind m (fun x => match x with pat => k end))
  (at level 20, pat pattern, m at level 100, k at level 200, only parsing)
  : py_scope.
Open Scope py_scope.

(** ** codes/data/audio/grand_conjoined_dataset.py *)

Module GrandConjoined.

(** [clamp(x, minimum, maximum)] *)
Definition clamp (x minimum maximum : Z) : Z :=
  py_max minimum (py_min x maximum).

Section Dataset.

(** One audio sample.  Its value is never inspected. *)
Variable amp : Type.

(** A waveform tensor of shape [channels, samples]. *)
Definition wave : Type := list (list amp).

(** [wav.shape[-1]] *)
Definition last_dim (w : wave) : Z :=
  match w with
  | [] => 0
  | channel :: _ => len channel
  end.

(** [clip[:, :n]] *)
Definition crop_last_dim (w : wave) (n : Z) : wave :=
  map (fun channel => slice_to channel n) w.

(** Values stored in the dictionaries the datasets exchange. *)
Inductive pyval : Type :=
| VStr (s : string)
| VInt (z : Z)              (* an int or a 0-d integer tensor *)
| VTokens (t : list Z)      (* a 1-d integer tensor *)
| VWave (w : wave)
| VNone.

(** What the paired dataset (TextWavLoader) hands out for one index: a
    5-tuple [tseq, wav, path, text, cond] or a dictionary. *)
Inductive fetched : Type :=
| FTuple (tseq : list Z) (wav : wave) (path : string) (text : string)
         (cond : pyval)
| FDict (d : gmap string pyval).

(** The paired speech and text dataset: its items and its tokenizer
    [get_text], which raises on text it does not handle. *)
Record TextWavLoader : Type := {
  items : list fetched;
  get_text : string -> fallible (list Z)
}.

(** One item of the unpaired speech dataset (UnsupervisedAudioDataset):
    the keys ['clip'], ['clip_lengths'] and ['path']. *)
Record SpeechItem : Type := {
  clip : wave;
  clip_lengths : Z;
  path : string
}.

(** The unpaired text corpus (HfDataset): entry [k] is what
    [self.text[k]['text']] evaluates to, a string or an exception. *)
Definition TextCorpus : Type := list (fallible string).

(** The attributes [__init__] sets.  [speech] and [text] are only set
    when [only_paired] is false. *)
Record GrandConjoinedDataset : Type := {
  only_paired : bool;
  max_paired_audio_length : Z;
  max_paired_text_length : Z;
  max_solo_audio_length : Z;
  max_solo_text_length : Z;
  collate : bool;
  sample_rate : Z;
  speech_and_text : TextWavLoader;
  speech : option (list SpeechItem);
  text : option TextCorpus
}.

(** The options [__init__] reads.  The three corpora are built by
    constructors outside this module; [paired_dataset] is the paired
    dataset as built for a given [needs_collate]. *)
Record Options : Type := {
  opt_only_paired : option bool;
  opt_needs_collate : option bool;
  opt_max_paired_audio_length : Z;
  opt_max_paired_text_length : Z;
  opt_max_solo_audio_length : Z;
  opt_max_solo_text_length : Z;
  paired_dataset : bool -> TextWavLoader;
  unsupervised_audio : option (bool -> list SpeechItem);
  text_corpus : option TextCorpus
}.

(** [opt_get(opt, [key], default)] *)
Definition opt_get {A} (o : option A) (default : A) : A :=
  match o with Some a => a | None => default end.

(** [opt[key]] *)
Definition opt_item {A} (key : string) (o : option A) : fallible A :=
  match o with Some a => inr a | None => inl (KeyError key) end.

(** Which corpus a read goes to, and at which position. *)
Inductive source : Type := Paired | Text | Speech.
Definition access : Type := (source * Z)%type.

(** The world of a lookup: the reads made so far, oldest first. *)
Definition trace : Type := list access.

Definition __init__ (opt : Options) : fallible GrandConjoinedDataset :=
  let only_paired := opt_get (opt_only_paired opt) false in
  let collate := opt_get (opt_needs_collate opt) false in
  if only_paired then
    inr {| only_paired := true;
           max_paired_audio_length := opt_max_paired_audio_length opt;
           max_paired_text_length := opt_max_paired_text_length opt;
           max_solo_audio_length := opt_max_solo_audio_length opt;
           max_solo_text_length := opt_max_solo_text_length opt;
           collate := collate;
           sample_rate := 22050;
           speech_and_text := paired_dataset opt collate;
           speech := None;
           text := None |}
  else
    match opt_item "unsupervised_audio_args" (unsupervised_audio opt) with
    | inl e => inl e
    | inr audio =>
      match opt_item "text_corpus_args" (text_corpus opt) with
      | inl e => inl e
      | inr corpus =>
        inr {| only_paired := false;
               max_paired_audio_length := opt_max_paired_audio_length opt;
               max_paired_text_length := opt_max_paired_text_length opt;
               max_solo_audio_length := opt_max_solo_audio_length opt;
               max_solo_text_length := opt_max_solo_text_length opt;
               collate := collate;
               sample_rate := 22050;
               speech_and_text := paired_dataset opt collate;
               speech := Some (audio collate);
               text := Some corpus |}
      end
    end.

(** Reading an attribute that [__init__] did not set. *)
Definition attr {A} (name : string) (a : option A) : M trace A :=
  match a with
  | Some x => ret x
  | None => raise (AttributeError name)
  end.

(** [dataset[k]]: the read is recorded, then the item is produced. *)
Definition dataset_getitem {A} (src : source) (l : list A) (k : Z)
  : M trace A :=
  fun t => lift (seq_getitem l k) (t ++ [(src, k)]).

(** [snt[key]] *)
Definition subscript (snt : fetched) (key : string) : M trace pyval :=
  match snt with
  | FTuple _ _ _ _ _ => raise TypeError
  | FDict d =>
    match d !! key with
    | Some v => ret v
    | None => raise (KeyError key)
    end
  end.

Section Methods.

Variable self : GrandConjoinedDataset.

(** The tokens after the truncate-or-pad step of [fetch_text_at]. *)
Definition fit_tokens (tok : list Z) : list Z :=
  let padding_required := max_solo_text_length self - len tok in
  if padding_required <? 0 then
    slice_to tok (max_solo_text_length self)
  else if padding_required >? 0 then
    tok ++ repeat 0 (Z.to_nat padding_required)
  else tok.

(** The [try] block of [fetch_text_at]. *)
Definition fetch_text_try (i : Z) : M trace (string * list Z) :=
  corpus <- attr "text" (text self) ;
  k <- lift (py_mod i (len corpus)) ;
  entry <- dataset_getitem Text corpus k ;
  txt <- lift entry ;
  _ <- py_assert (negb (contains_char "*"%char txt)) EmptyString ;
  tok <- lift (get_text (speech_and_text self) txt) ;
  ret (txt, fit_tokens tok).

(** [fetch_text_at]; [fuel] bounds the depth of the recursion. *)
Fixpoint fetch_text_at (fuel : nat) (i : Z) : M trace (string * list Z) :=
  match fuel with
  | O => diverge
  | S fuel' =>
    try_except
      (fetch_text_try i)
      (corpus <- attr "text" (text self) ;
       k <- lift (py_mod (i + 1) (len corpus)) ;
       fetch_text_at fuel' k)
  end.

Definition fetch_snt_at (i : Z) : M trace fetched :=
  k <- lift (py_mod i (len (items (speech_and_text self)))) ;
  fetched <- dataset_getitem Paired (items (speech_and_text self)) k ;
  if collate self then
    match fetched with
    | FTuple tseq wav path text cond =>
      ret (FDict (<["real_text" := VStr text]>
                 (<["padded_text" := VTokens tseq]>
                 (<["text_lengths" := VInt (len tseq)]>
                 (<["wav" := VWave wav]>
                 (<["wav_lengths" := VInt (last_dim wav)]>
                 (<["filenames" := VStr path]> ∅)))))))
    | FDict d =>
      (* unpacking a dictionary binds its keys: five keys give
         strings without a [shape], any other number does not
         unpack *)
      if decide (size d = 5%nat) then raise (AttributeError "shape")
      else raise ValueError
    end
  else ret fetched.

Definition __getitem__ (fuel : nat) (i : Z) : M trace (gmap string pyval) :=
  snt <- fetch_snt_at i ;
  if only_paired self then
    paired_audio <- subscript snt "wav" ;
    paired_audio_lengths <- subscript snt "wav_lengths" ;
    paired_text <- subscript snt "real_text" ;
    paired_text_tokens <- subscript snt "padded_text" ;
    paired_file <- subscript snt "filenames" ;
    speech_audio <- subscript snt "wav" ;
    speech_audio_lengths <- subscript snt "wav_lengths" ;
    speech_file <- subscript snt "filenames" ;
    text_text <- subscript snt "real_text" ;
    text_tokens <- subscript snt "padded_text" ;
    ret (<["paired_audio" := paired_audio]>
        (<["paired_audio_lengths" := paired_audio_lengths]>
        (<["paired_text" := paired_text]>
        (<["paired_text_tokens" := paired_text_tokens]>
        (<["paired_file" := paired_file]>
        (<["speech_audio" := speech_audio]>
        (<["speech_audio_lengths" := speech_audio_lengths]>
        (<["speech_file" := speech_file]>
        (<["text_text" := text_text]>
        (<["text_tokens" := text_tokens]> ∅))))))))))
  else
    corpus <- attr "text" (text self) ;
    k <- lift (py_mod i (len corpus)) ;
    ' (txt, txt_tok) <- fetch_text_at fuel k ;
    clips <- attr "speech" (speech self) ;
    ks <- lift (py_mod i (len clips)) ;
    sp <- dataset_getitem Speech clips ks ;
    let sp_clip := crop_last_dim (clip sp) (max_solo_audio_length self) in
    let sp_clip_lengths :=
      clamp (clip_lengths sp) 0 (max_solo_audio_length self) in
    paired_audio <- subscript snt "wav" ;
    paired_audio_lengths <- subscript snt "wav_lengths" ;
    paired_text <- subscript snt "real_text" ;
    paired_text_tokens <- subscript snt "padded_text" ;
    paired_file <- subscript snt "filenames" ;
    ret (<["paired_audio" := paired_audio]>
        (<["paired_audio_lengths" := paired_audio_lengths]>
        (<["paired_text" := paired_text]>
        (<["paired_text_tokens" := paired_text_tokens]>
        (<["paired_file" := paired_file]>
        (<["speech_audio" := VWave sp_clip]>
        (<["speech_audio_lengths" := VInt sp_clip_lengths]>
        (<["speech_file" := VStr (path sp)]>
        (<["text_text" := VStr txt]>
        (<["text_tokens" := VTokens txt_tok]> ∅)))))))))).

Definition __len__ : M trace Z :=
  if only_paired self then
    ret (len (items (speech_and_text self)))
  else
    clips <- attr "speech" (speech self) ;
    corpus <- attr "text" (text self) ;
    ret (py_max3 (len clips) (len (items (speech_and_text self)))
                 (len corpus)).

End Methods.

(** *** Vocabulary of the statements about [fetch_text_at] *)

(** What one corpus entry yields when the [try] block goes through:
    the text and its fitted tokens; [None] when the block raises. *)
Definition sample_of (self : GrandConjoinedDataset) (entry : fallible string)
  : option (string * list Z) :=
  match entry with
  | inl _ => None
  | inr txt =>
    if contains_char "*"%char txt then None
    else match get_text (speech_and_text self) txt with
         | inl _ => None
         | inr tok => Some (txt, fit_tokens self tok)
         end
  end.

(** The three ways an entry is turned down: it cannot be decoded, it
    holds the character ['*'], or the tokenizer refuses it. *)
Inductive rejected (self : GrandConjoinedDataset) : fallible string -> Prop :=
| undecodable e : rejected self (inl e)
| masked txt : contains_char "*"%char txt = true -> rejected self (inr txt)
| untokenizable txt e :
    get_text (speech_and_text self) txt = inl e -> rejected self (inr txt).

(** The entry of [corpus] that an index [i], wrapped, points at. *)
Definition entry_at (corpus : TextCorpus) (i : Z) : option (fallible string) :=
  corpus !! Z.to_nat (i mod len corpus).

(** The reads of the text corpus made by [attempts] successive tries
    starting from index [i]. *)
Definition text_reads (corpus : TextCorpus) (i : Z) (attempts : nat) : trace :=
  map (fun j => (Text, (i + Z.of_nat j) mod len corpus)) (seq 0 attempts).

(** A read that lands inside the corpus it goes to. *)
Definition in_range (self : GrandConjoinedDataset) (a : access) : Prop :=
  match fst a with
  | Paired => 0 <= snd a < len (items (speech_and_text self))
  | Text => exists corpus, text self = Some corpus /\ 0 <= snd a < len corpus
  | Speech => exists clips, speech self = Some clips /\ 0 <= snd a < len clips
  end.

(** Whether the try at offset [j] from index [i] goes through. *)
Definition goes_through (self : GrandConjoinedDataset)
           (corpus : TextCorpus) (i : Z) (j : nat) : bool :=
  match entry_at corpus (i + Z.of_nat j) with
  | Some entry =>
    match sample_of self entry with Some _ => true | None => false end
  | None => false
  end.

(** An exception that comes from addressing a sequence. *)
Definition addressing_error (e : exn) : Prop :=
  e = IndexError \/ e = ZeroDivisionError.

(** An outcome that is not an addressing failure. *)
Definition sound {A} (o : outcome A) : Prop :=
  match o with
  | Raised e => ~ addressing_error e
  | _ => True
  end.

(** The keys of every record [__getitem__] returns. *)
Definition record_keys : gset string :=
  {[ "paired_audio"; "paired_audio_lengths"; "paired_text";
     "paired_text_tokens"; "paired_file"; "speech_audio";
     "speech_audio_lengths"; "speech_file"; "text_text"; "text_tokens" ]}.

(** An item of the paired dataset that suits the collation mode: a
    tuple under collation, otherwise a dictionary with the five keys
    [__getitem__] reads. *)
Definition suits (collate : bool) (f : fetched) : Prop :=
  match f with
  | FTuple _ _ _ _ _ => collate = true
  | FDict d =>
    collate = false /\
    Forall (fun key => is_Some (d !! key))
           ["wav"; "wav_lengths"; "real_text"; "padded_text"; "filenames"]
  end.

(** A dataset whose lookups can go through: the paired corpus is not
    empty and its items suit the collation mode; outside paired-only
    mode the unpaired speech corpus is not empty and the text corpus
    holds an entry that is not turned down. *)
Definition well_formed (self : GrandConjoinedDataset) : Prop :=
  items (speech_and_text self) <> [] /\
  Forall (suits (collate self)) (items (speech_and_text self)) /\
  (only_paired self = false ->
   exists clips corpus,
     speech self = Some clips /\ clips <> [] /\
     text self = Some corpus /\
     exists entry, In entry corpus /\ ~ rejected self entry).

(** The reads of a lookup at index [i] in full mode that made
    [attempts] tries at the text corpus. *)
Definition full_reads (self : GrandConjoinedDataset)
           (corpus : TextCorpus) (clips : list SpeechItem)
           (i : Z) (attempts : nat) : trace :=
  (Paired, i mod len (items (speech_and_text self)))
    :: text_reads corpus i attempts ++ [(Speech, i mod len clips)].

End Dataset.

Arguments VStr {amp} s.
Arguments VInt {amp} z.
Arguments VTokens {amp} t.
Arguments VWave {amp} w.
Arguments VNone {amp}.
Arguments FTuple {amp} tseq wav path text cond.
Arguments FDict {amp} d.
Arguments last_dim {amp} w.
Arguments crop_last_dim {amp} w n.
Arguments items {amp} t.
Arguments get_text {amp} t txt.
Arguments clip {amp} s.
Arguments clip_lengths {amp} s.
Arguments path {amp} s.
Arguments only_paired {amp} g.
Arguments max_paired_audio_length {amp} g.
Arguments max_paired_text_length {amp} g.
Arguments max_solo_audio_length {amp} g.
Arguments max_solo_text_length {amp} g.
Arguments collate {amp} g.
Arguments sample_rate {amp} g.
Arguments speech_and_text {amp} g.
Arguments speech {amp} g.
Arguments text {amp} g.
Arguments opt_only_paired {amp} o.
Arguments opt_needs_collate {amp} o.
Arguments opt_max_paired_audio_length {amp} o.
Arguments opt_max_paired_text_length {amp} o.
Arguments opt_max_solo_audio_length {amp} o.
Arguments opt_max_solo_text_length {amp} o.
Arguments paired_dataset {amp} o.
Arguments unsupervised_audio {amp} o.
Arguments text_corpus {amp} o.
Arguments __init__ {amp} opt.
Arguments subscript {amp} snt key.
Arguments fit_tokens {amp} self tok.
Arguments fetch_text_try {amp} self i.
Arguments fetch_text_at {amp} self fuel i.
Arguments fetch_snt_at {amp} self i.
Arguments __getitem__ {amp} self fuel i.
Arguments __len__ {amp} self.
Arguments sample_of {amp} self entry.
Arguments goes_through {amp} self corpus i j.
Arguments rejected {amp} self entry.
Arguments in_range {amp} self a.
Arguments suits {amp} collate f.
Arguments well_formed {amp} self.
Arguments full_reads {amp} self corpus clips i attempts.

End GrandConjoined.

(** ** codes/data/Downsample_dataset.py *)

Module Downsample.

(** *** Parsing ['H_W_C'] resolution strings *)

(** [s.split(c)] *)
Fixpoint split_on (c : ascii) (s : string) : list string :=
  match s with
  | EmptyString => [EmptyString]
  | String a rest =>
    if Ascii.eqb a c then EmptyString :: split_on c rest
    else match split_on c rest with
         | [] => [String a EmptyString]
         | piece :: pieces => String a piece :: pieces
         end
  end.

Definition is_space (a : ascii) : bool :=
  let n := nat_of_ascii a in
  ((9 <=? n) && (n <=? 13))%nat || (n =? 32)%nat.

Fixpoint lstrip (s : list ascii) : list ascii :=
  match s with
  | a :: rest => if is_space a then lstrip rest else s
  | [] => []
  end.

Definition strip (s : list ascii) : list ascii :=
  rev (lstrip (rev (lstrip s))).

Definition digit_of (a : ascii) : option Z :=
  let n := nat_of_ascii a in
  if ((48 <=? n) && (n <=? 57))%nat then Some (Z.of_nat n - 48) else None.

(** The value of a run of decimal digits, [acc] being the value so far. *)
Fixpoint digits_value (acc : Z) (s : list ascii) : option Z :=
  match s with
  | [] => Some acc
  | a :: rest =>
    match digit_of a with
    | Some d => digits_value (10 * acc + d) rest
    | None => None
    end
  end.

Definition unsigned_value (s : list ascii) : option Z :=
  match s with
  | [] => None
  | _ => digits_value 0 s
  end.

(** [int(s)] on a string free of ['_']: surrounding blanks, one optional
    sign, at least one ASCII digit. *)
Definition py_int (s : string) : fallible Z :=
  let body := strip (list_ascii_of_string s) in
  let signed :=
    match body with
    | a :: rest =>
      if Ascii.eqb a "-"%char then option_map Z.opp (unsigned_value rest)
      else if Ascii.eqb a "+"%char then unsigned_value rest
      else unsigned_value body
    | [] => None
    end in
  match signed with
  | Some z => inr z
  | None => inl ValueError
  end.

(** [[f(x) for x in l]] with a fallible [f]. *)
Fixpoint comprehension {A B} (f : A -> fallible B) (l : list A)
  : fallible (list B) :=
  match l with
  | [] => inr []
  | x :: rest =>
    match f x with
    | inl e => inl e
    | inr y =>
      match comprehension f rest with
      | inl e => inl e
      | inr ys => inr (y :: ys)
      end
    end
  end.

(** [[int(s) for s in size.split('_')]] *)
Definition parse_resolution (size : string) : fallible (list Z) :=
  comprehension py_int (split_on "_"%char size).

(** *** The libraries the dataset calls into *)

(** data.util, numpy, cv2, PIL, torchvision, lmdb and random, as far as
    [DownsampleDataset] uses them.  Calls that can fail on their input
    are [fallible].  [util.augment] draws its flips and rotation once
    ([draw_augmentation]) and applies them to each image of the list it
    is given ([apply_augmentation]); [channel_convert] is taken on the
    one image the dataset passes. *)
Class Libraries : Type := {
  ndarray : Type;        (* an image as a numpy array, H x W x C *)
  pil_image : Type;      (* an image as a PIL Image *)
  tensor : Type;
  lmdb_env : Type;
  rng : Type;            (* the state of the module [random] *)
  augmentation : Type;   (* the flips and rotation [util.augment] drew *)
  (* data.util *)
  get_image_paths :
    string -> string ->
    fallible (option (list string) * option (list string));
  read_img : option lmdb_env -> string -> option (list Z) -> fallible ndarray;
  modcrop : ndarray -> Z -> fallible ndarray;
  channel_convert : Z -> string -> ndarray -> fallible ndarray;
  draw_augmentation : bool -> bool -> rng -> augmentation * rng;
  apply_augmentation : augmentation -> ndarray -> ndarray;
  (* numpy *)
  shape : ndarray -> Z * Z * Z;
  crop : ndarray -> Z -> Z -> Z -> Z -> ndarray;   (* img[a:b, c:d, :] *)
  to_uint8 : ndarray -> ndarray;       (* (img * 255).astype(np.uint8) *)
  (* cv2 *)
  cv2_resize : ndarray -> Z -> Z -> fallible ndarray;
  cvtColor_BGR2RGB : ndarray -> fallible ndarray;
  (* PIL *)
  fromarray : ndarray -> fallible pil_image;
  jpeg_roundtrip : pil_image -> Z -> fallible pil_image;
  (* torchvision.transforms.functional *)
  F_resize : pil_image -> Z -> Z -> fallible pil_image;
  to_tensor : pil_image -> tensor;
  (* torch.from_numpy(np.ascontiguousarray(np.transpose(img, (2, 0, 1)))).float() *)
  from_numpy_chw : ndarray -> tensor;
  (* lmdb *)
  lmdb_open : string -> fallible lmdb_env;
  (* random *)
  randint : Z -> Z -> rng -> Z * rng;
  randrange : Z -> Z -> rng -> Z * rng
}.

Section Dataset.

Context {L : Libraries}.

(** The keys of [opt] the dataset reads. *)
Record Options : Type := {
  o_data_type : string;
  o_doCrop : bool;
  o_dataroot_GT : string;
  o_dataroot_LQ : string;
  o_mismatched_Data_OK : bool;
  o_scale : Z;
  o_target_size : Z;
  o_phase : string;
  o_color : option string;
  o_use_flip : bool;
  o_use_rot : bool;
  o_use_compression_artifacts : bool
}.

Record DownsampleDataset : Type := {
  opt : Options;
  data_type : string;
  paths_LQ : option (list string);
  paths_GT : option (list string);
  sizes_LQ : option (list string);
  sizes_GT : option (list string);
  LQ_env : option lmdb_env;
  GT_env : option lmdb_env;
  doCrop : bool;
  data_sz_mismatch_ok : bool;
  random_scale_list : list Z
}.

(** What [__getitem__] stores in the dictionary it returns. *)
Inductive value : Type :=
| VTensor (t : tensor)
| VPath (p : string).

(** The world of a lookup: the dataset object, whose lmdb handles are
    opened lazily, and the state of [random]. *)
Record world : Type := {
  this : DownsampleDataset;
  random : rng
}.

(** Truth value of a list-or-None. *)
Definition truthy {A} (l : option (list A)) : bool :=
  match l with
  | Some (_ :: _) => true
  | _ => false
  end.

(** Truth value of a string-or-None. *)
Definition truthy_str (s : option string) : bool :=
  match s with
  | Some (String _ _) => true
  | _ => false
  end.

(** Using a list-or-None as a list. *)
Definition as_list {S A} (l : option (list A)) : M S (list A) :=
  match l with
  | Some l => ret l
  | None => raise TypeError
  end.

(** The message of the third assertion, without the two counts the
    source appends. *)
Definition mismatch_message : string :=
  "GT and LQ datasets have different number of images".

Definition __init__ (opt : Options) : M unit DownsampleDataset :=
  ' (paths_GT, sizes_GT) <-
    lift (get_image_paths (o_data_type opt) (o_dataroot_GT opt)) ;
  ' (paths_LQ, sizes_LQ) <-
    lift (get_image_paths (o_data_type opt) (o_dataroot_LQ opt)) ;
  let data_sz_mismatch_ok := o_mismatched_Data_OK opt in
  _ <- py_assert (truthy paths_GT) "Error: GT path is empty." ;
  _ <- py_assert (truthy paths_LQ) "LQ is required for downsampling." ;
  _ <- (if negb data_sz_mismatch_ok then
          lq <- as_list paths_LQ ;
          gt <- as_list paths_GT ;
          py_assert (len lq =? len gt) mismatch_message
        else ret tt) ;
  ret {| opt := opt;
         data_type := o_data_type opt;
         paths_LQ := paths_LQ;
         paths_GT := paths_GT;
         sizes_LQ := sizes_LQ;
         sizes_GT := sizes_GT;
         LQ_env := None;
         GT_env := None;
         doCrop := o_doCrop opt;
         data_sz_mismatch_ok := data_sz_mismatch_ok;
         random_scale_list := [1] |}.

Definition self : M world DownsampleDataset :=
  fun w => (Returned (this w), w).

Definition set_GT_env (env : lmdb_env) : M world unit :=
  fun w =>
    let s := this w in
    (Returned tt,
     {| this := {| opt := opt s; data_type := data_type s;
                   paths_LQ := paths_LQ s; paths_GT := paths_GT s;
                   sizes_LQ := sizes_LQ s; sizes_GT := sizes_GT s;
                   LQ_env := LQ_env s; GT_env := Some env;
                   doCrop := doCrop s;
                   data_sz_mismatch_ok := data_sz_mismatch_ok s;
                   random_scale_list := random_scale_list s |};
        random := random w |}).

Definition set_LQ_env (env : lmdb_env) : M world unit :=
  fun w =>
    let s := this w in
    (Returned tt,
     {| this := {| opt := opt s; data_type := data_type s;
                   paths_LQ := paths_LQ s; paths_GT := paths_GT s;
                   sizes_LQ := sizes_LQ s; sizes_GT := sizes_GT s;
                   LQ_env := Some env; GT_env := GT_env s;
                   doCrop := doCrop s;
                   data_sz_mismatch_ok := data_sz_mismatch_ok s;
                   random_scale_list := random_scale_list s |};
        random := random w |}).

(** A call into [random]. *)
Definition draw {A} (f : rng -> A * rng) : M world A :=
  fun w =>
    let (a, r) := f (random w) in
    (Returned a, {| this := this w; random := r |}).

Definition _init_lmdb : M world unit :=
  s <- self ;
  gt <- lift (lmdb_open (o_dataroot_GT (opt s))) ;
  _ <- set_GT_env gt ;
  lq <- lift (lmdb_open (o_dataroot_LQ (opt s))) ;
  set_LQ_env lq.

Definition is_none {A} (o : option A) : bool :=
  match o with None => true | Some _ => false end.

(** Lines 49-50 of [__getitem__]: the lmdb handles are opened on the
    first lookup. *)
Definition open_handles : M world unit :=
  s <- self ;
  if (data_type s =? "lmdb")%string
     && (is_none (GT_env s) || is_none (LQ_env s))
  then _init_lmdb else ret tt.

(** Lines 55-62, the block [# get GT image]: the path and the image. *)
Definition get_GT_image (index : Z) : M world (string * ndarray) :=
  s <- self ;
  let scale := o_scale (opt s) in
  paths <- as_list (paths_GT s) ;
  k <- lift (py_mod index (len paths)) ;
  GT_path <- lift (seq_getitem paths k) ;
  resolution <-
    (if (data_type s =? "lmdb")%string then
       sizes <- as_list (sizes_GT s) ;
       size <- lift (seq_getitem sizes index) ;
       r <- lift (parse_resolution size) ;
       ret (Some r)
     else ret None) ;
  img_GT <- lift (read_img (GT_env s) GT_path resolution) ;
  img_GT <-
    (if negb (o_phase (opt s) =? "train")%string
     then lift (modcrop img_GT scale) else ret img_GT) ;
  img_GT <-
    (match o_color (opt s) with
     | Some (String c cs) =>
       lift (channel_convert (snd (shape img_GT)) (String c cs) img_GT)
     | _ => ret img_GT
     end) ;
  ret (GT_path, img_GT).

(** Lines 65-68, the block [# get LQ image]. *)
Definition get_LQ_image (index : Z) : M world (string * ndarray) :=
  s <- self ;
  paths <- as_list (paths_LQ s) ;
  k <- lift (py_mod index (len paths)) ;
  LQ_path <- lift (seq_getitem paths k) ;
  resolution <-
    (if (data_type s =? "lmdb")%string then
       sizes <- as_list (sizes_LQ s) ;
       size <- lift (seq_getitem sizes index) ;
       r <- lift (parse_resolution size) ;
       ret (Some r)
     else ret None) ;
  img_LQ <- lift (read_img (LQ_env s) LQ_path resolution) ;
  ret (LQ_path, img_LQ).

(** Lines 70-90: crop or resize, then flip and rotate, in the training
    phase. *)
Definition train_transform (img_LQ img_GT : ndarray)
  : M world (ndarray * ndarray) :=
  s <- self ;
  let scale := o_scale (opt s) in
  let GT_size := o_target_size (opt s) * scale in
  if (o_phase (opt s) =? "train")%string then
    let '(H, W, _) := shape img_GT in
    _ <- py_assert ((H >=? GT_size) && (W >=? GT_size)) EmptyString ;
    let '(H, W, C) := shape img_LQ in
    LQ_size <- lift (py_floordiv GT_size scale) ;
    ' (img_LQ, img_GT) <-
      (if doCrop s then
         (* randomly crop *)
         rnd_h <- draw (randint 0 (py_max 0 (H - LQ_size))) ;
         rnd_w <- draw (randint 0 (py_max 0 (W - LQ_size))) ;
         let img_LQ :=
           crop img_LQ rnd_h (rnd_h + LQ_size) rnd_w (rnd_w + LQ_size) in
         let rnd_h_GT := rnd_h * scale in
         let rnd_w_GT := rnd_w * scale in
         let img_GT :=
           crop img_GT rnd_h_GT (rnd_h_GT + GT_size)
                rnd_w_GT (rnd_w_GT + GT_size) in
         ret (img_LQ, img_GT)
       else
         img_LQ <- lift (cv2_resize img_LQ LQ_size LQ_size) ;
         img_GT <- lift (cv2_resize img_GT GT_size GT_size) ;
         ret (img_LQ, img_GT)) ;
    (* augmentation - flip, rotate *)
    aug <- draw (draw_augmentation (o_use_flip (opt s))
                                   (o_use_rot (opt s))) ;
    ret (apply_augmentation aug img_LQ, apply_augmentation aug img_GT)
  else ret (img_LQ, img_GT).

Definition __getitem__ (index : Z) : M world (gmap string value) :=
  _ <- open_handles ;
  s <- self ;
  let scale := o_scale (opt s) in
  ' (GT_path, img_GT) <- get_GT_image index ;
  ' (LQ_path, img_LQ) <- get_LQ_image index ;
  ' (img_LQ, img_GT) <- train_transform img_LQ img_GT ;
  (* BGR to RGB *)
  ' (img_LQ, img_GT) <-
    (if snd (shape img_GT) =? 3 then
       img_GT <- lift (cvtColor_BGR2RGB img_GT) ;
       img_LQ <- lift (cvtColor_BGR2RGB img_LQ) ;
       ret (img_LQ, img_GT)
     else ret (img_LQ, img_GT)) ;
  (* HQ goes to a PIL image for the compression artifacts *)
  let '(H, W, _) := shape img_GT in
  let img_GT := to_uint8 img_GT in
  img_GT <- lift (fromarray img_GT) ;
  img_GT <-
    (if o_use_compression_artifacts (opt s) then
       qf <- draw (randrange 15 100) ;
       lift (jpeg_roundtrip img_GT qf)
     else ret img_GT) ;
  (* a downsampled image from HQ *)
  h <- lift (py_int_truediv H scale) ;
  w <- lift (py_int_truediv W scale) ;
  img_Downsampled <- lift (F_resize img_GT h w) ;
  let img_GT := to_tensor img_GT in
  let img_Downsampled := to_tensor img_Downsampled in
  let img_LQ := from_numpy_chw img_LQ in
  ret (<["LQ" := VTensor img_GT]>
      (<["GT" := VTensor img_LQ]>
      (<["PIX" := VTensor img_Downsampled]>
      (<["LQ_path" := VPath LQ_path]>
      (<["GT_path" := VPath GT_path]> ∅))))).

Definition __len__ : M world Z :=
  s <- self ;
  gt <- as_list (paths_GT s) ;
  lq <- as_list (paths_LQ s) ;
  ret (py_max (len gt) (len lq)).

(** *** Vocabulary of the statements about [__getitem__] *)

(** One library operation of [__getitem__] applied to a numpy image. *)
Inductive np_step : ndarray -> ndarray -> Prop :=
| step_modcrop x scale y : modcrop x scale = inr y -> np_step x y
| step_channel_convert x c color y :
    channel_convert c color x = inr y -> np_step x y
| step_crop x a b c d : np_step x (crop x a b c d)
| step_resize x h w y : cv2_resize x h w = inr y -> np_step x y
| step_augment x aug : np_step x (apply_augmentation aug x)
| step_cvtColor x y : cvtColor_BGR2RGB x = inr y -> np_step x y
| step_uint8 x : np_step x (to_uint8 x).

(** A numpy image obtained from another by such operations. *)
Definition np_derived : ndarray -> ndarray -> Prop := rtc np_step.

(** A PIL image made from a numpy image, possibly through JPEG. *)
Inductive pil_derived (x : ndarray) : pil_image -> Prop :=
| pil_direct p : fromarray x = inr p -> pil_derived x p
| pil_jpeg p qf q :
    fromarray x = inr p -> jpeg_roundtrip p qf = inr q -> pil_derived x q.

(** The path a wrapped index picks in a path list. *)
Definition path_at (paths : option (list string)) (index : Z)
  : option string :=
  match paths with
  | Some l => l !! Z.to_nat (index mod len l)
  | None => None
  end.

End Dataset.

End Downsample.

(** ** Small corpora and stand-in libraries, to run the two datasets on *)

Module Examples.

(** *** GrandConjoinedDataset over integer samples *)

Import GrandConjoined.

(** A tokenizer that knows lowercase letters and the blank only. *)
Definition symbol_id (a : ascii) : option Z :=
  let n := nat_of_ascii a in
  if ((97 <=? n) && (n <=? 122))%nat then Some (Z.of_nat n - 96)
  else if (n =? 32)%nat then Some 27
  else None.

Fixpoint symbol_ids (s : string) : option (list Z) :=
  match s with
  | EmptyString => Some []
  | String a rest =>
    match symbol_id a, symbol_ids rest with
    | Some z, Some zs => Some (z :: zs)
    | _, _ => None
    end
  end.

Definition letters_only (txt : string) : fallible (list Z) :=
  match symbol_ids txt with
  | Some ids => inr ids
  | None => inl (KeyError "symbol")
  end.

Definition paired_item_dict (tseq : list Z) (wav : wave Z) (file text : string)
  : gmap string (pyval Z) :=
  <["real_text" := VStr text]>
  (<["padded_text" := VTokens tseq]>
  (<["text_lengths" := VInt (len tseq)]>
  (<["wav" := VWave wav]>
  (<["wav_lengths" := VInt (last_dim wav)]>
  (<["filenames" := VStr file]> ∅))))).

Definition toy_paired (needs_collate : bool) : TextWavLoader Z :=
  {| items :=
       if needs_collate then
         [ FTuple [8; 9] [[1; 2; 3]] "p0.wav" "hi" VNone;
           FTuple [25; 15] [[4; 5]] "p1.wav" "yo" VNone ]
       else
         [ FDict (paired_item_dict [8; 9] [[1; 2; 3]] "p0.wav" "hi");
           FDict (paired_item_dict [25; 15] [[4; 5]] "p1.wav" "yo") ];
     get_text := letters_only |}.

Definition toy_speech (needs_collate : bool) : list (SpeechItem Z) :=
  [ {| clip := [[1; 2; 3; 4; 5; 6]]; clip_lengths := 6; path := "s0.wav" |};
    {| clip := [[7; 8]]; clip_lengths := 2; path := "s1.wav" |};
    {| clip := [[9; 10; 11; 12]]; clip_lengths := 4; path := "s2.wav" |} ].

(** An entry with a masked word, one that does not decode, one the
    tokenizer refuses, and two that go through. *)
Definition toy_corpus : TextCorpus :=
  [ inr "d*mn";
    inl (LibraryError "decode");
    inr "numb3r";
    inr "hello world";
    inr "ok" ].

Definition toy_options : Options Z :=
  {| opt_only_paired := None;
     opt_needs_collate := Some true;
     opt_max_paired_audio_length := 3;
     opt_max_paired_text_length := 2;
     opt_max_solo_audio_length := 4;
     opt_max_solo_text_length := 5;
     paired_dataset := toy_paired;
     unsupervised_audio := Some toy_speech;
     text_corpus := Some toy_corpus |}.

Definition toy_full : GrandConjoinedDataset Z :=
  {| only_paired := false;
     max_paired_audio_length := 3;
     max_paired_text_length := 2;
     max_solo_audio_length := 4;
     max_solo_text_length := 5;
     collate := true;
     sample_rate := 22050;
     speech_and_text := toy_paired true;
     speech := Some (toy_speech true);
     text := Some toy_corpus |}.

Definition toy_paired_only : GrandConjoinedDataset Z :=
  {| only_paired := true;
     max_paired_audio_length := 3;
     max_paired_text_length := 2;
     max_solo_audio_length := 4;
     max_solo_text_length := 5;
     collate := false;
     sample_rate := 22050;
     speech_and_text := toy_paired false;
     speech := None;
     text := None |}.

(** A corpus where nothing goes through. *)
Definition hopeless : GrandConjoinedDataset Z :=
  {| only_paired := false;
     max_paired_audio_length := 3;
     max_paired_text_length := 2;
     max_solo_audio_length := 4;
     max_solo_text_length := 5;
     collate := true;
     sample_rate := 22050;
     speech_and_text := toy_paired true;
     speech := Some (toy_speech true);
     text := Some [inr "d*mn"; inl (LibraryError "decode")] |}.

(** *** DownsampleDataset over images that remember where they came from *)

Import Downsample.

(** An image: the file it was read from, the operations it went
    through, oldest first, and its shape. *)
Record picture : Type := {
  origin : string;
  history : list string;
  dims : Z * Z * Z
}.

Definition after (op : string) (dims : Z * Z * Z) (x : picture) : picture :=
  {| origin := origin x; history := history x ++ [op]; dims := dims |}.

Definition toy_get_image_paths (data_type dataroot : string)
  : fallible (option (list string) * option (list string)) :=
  if (dataroot =? "gt")%string then
    inr (Some ["g0"; "g1"; "g2"], Some ["8_8_3"; "8_8_3"; "8_8_3"])
  else if (dataroot =? "lq")%string then
    inr (Some ["l0"; "l1"], Some ["4_4_3"; "4_4_3"])
  else if (dataroot =? "lq3")%string then
    inr (Some ["l0"; "l1"; "l2"], Some ["4_4_3"; "4_4_3"; "4_4_3"])
  else if (dataroot =? "nothing")%string then
    inr (Some [], None)
  else inl (LibraryError "no such folder").

Definition toy_read_img (env : option string) (path : string)
           (resolution : option (list Z)) : fallible picture :=
  match resolution with
  | Some [h; w; c] =>
    inr {| origin := path; history := []; dims := (h, w, c) |}
  | Some _ => inl ValueError
  | None => inr {| origin := path; history := []; dims := (8, 8, 3) |}
  end.

#[export] Instance toy_libraries : Libraries := {|
  ndarray := picture;
  pil_image := picture;
  tensor := picture;
  lmdb_env := string;
  rng := unit;
  augmentation := unit;
  get_image_paths := toy_get_image_paths;
  read_img := toy_read_img;
  modcrop := fun x scale => inr (after "modcrop" (dims x) x);
  channel_convert := fun c color x => inr (after "channel_convert" (dims x) x);
  draw_augmentation := fun hflip rot r => (tt, r);
  apply_augmentation := fun aug x => after "augment" (dims x) x;
  shape := dims;
  crop := fun x a b c d => after "crop" (b - a, d - c, snd (dims x)) x;
  to_uint8 := fun x => after "uint8" (dims x) x;
  cv2_resize := fun x h w => inr (after "cv2.resize" (h, w, snd (dims x)) x);
  cvtColor_BGR2RGB := fun x => inr (after "cvtColor" (dims x) x);
  fromarray := fun x => inr (after "fromarray" (dims x) x);
  jpeg_roundtrip := fun x qf => inr (after "jpeg" (dims x) x);
  F_resize := fun x h w => inr (after "F.resize" (h, w, snd (dims x)) x);
  to_tensor := fun x => after "to_tensor" (dims x) x;
  from_numpy_chw := fun x => after "from_numpy" (dims x) x;
  lmdb_open := fun root => inr root;
  randint := fun lo hi r => (lo, r);
  randrange := fun lo hi r => (lo, r)
|}.

Definition toy_downsample_options (kind gt lq : string) (mismatch_ok : bool)
  : Downsample.Options :=
  {| o_data_type := kind;
     o_doCrop := true;
     o_dataroot_GT := gt;
     o_dataroot_LQ := lq;
     o_mismatched_Data_OK := mismatch_ok;
     o_scale := 2;
     o_target_size := 2;
     o_phase := "train";
     o_color := None;
     o_use_flip := true;
     o_use_rot := true;
     o_use_compression_artifacts := true |}.

(** The dataset [__init__] builds from folders ["gt"] and [lq]. *)
Definition toy_downsample (kind lq : string) : DownsampleDataset :=
  {| opt := toy_downsample_options kind "gt" lq true;
     data_type := kind;
     paths_LQ := if (lq =? "lq3")%string then Some ["l0"; "l1"; "l2"]
                 else Some ["l0"; "l1"];
     paths_GT := Some ["g0"; "g1"; "g2"];
     sizes_LQ := if (lq =? "lq3")%string
                 then Some ["4_4_3"; "4_4_3"; "4_4_3"]
                 else Some ["4_4_3"; "4_4_3"];
     sizes_GT := Some ["8_8_3"; "8_8_3"; "8_8_3"];
     LQ_env := None;
     GT_env := None;
     doCrop := true;
     data_sz_mismatch_ok := true;
     random_scale_list := [1] |}.

Definition toy_world (kind lq : string) : world :=
  {| this := toy_downsample kind lq; random := tt |}.

End Examples.

(** ** The option dictionaries of GrandConjoinedDataset.__init__ *)

Module Arguments.

(** A value of an option dictionary. *)
#[local] Set Warnings "-register-all".
Inductive argval : Type :=
| ANone
| ABool (b : bool)
| AInt (z : Z)
| AStr (s : string)
| AList (l : list argval)
| ADict (d : gmap string argval).

(** The truth value of an option, as [if not self.only_paired] and
    [if self.collate] test it. *)
Definition truth (v : argval) : bool :=
  match v with
  | ANone => false
  | ABool b => b
  | AInt z => negb (z =? 0)
  | AStr EmptyString => false
  | AStr _ => true
  | AList [] => false
  | AList _ => true
  | ADict d => negb (bool_decide (size d = 0%nat))
  end.

(** [d[key]] *)
Definition item (d : gmap string argval) (key : string) : fallible argval :=
  match d !! key with
  | Some v => inr v
  | None => inl (KeyError key)
  end.

(** Using an option value as a dictionary, to assign items in it. *)
Definition as_dict (v : argval) : fallible (gmap string argval) :=
  match v with
  | ADict d => inr d
  | _ => inl TypeError
  end.

(** What [__init__] hands to the three constructors. *)
Record prepared : Type := {
  p_only_paired : argval;
  p_max_paired_audio_length : argval;
  p_max_paired_text_length : argval;
  p_max_solo_audio_length : argval;
  p_max_solo_text_length : argval;
  p_collate : argval;
  p_sample_rate : Z;
  dataset_opt : gmap string argval;          (* to TextWavLoader *)
  audio_args : option (gmap string argval);  (* to UnsupervisedAudioDataset *)
  text_args : option (gmap string argval)    (* to HfDataset *)
}.

Section Init.

(** [utils.util.opt_get] and the dictionary [create_hparams()] returns
    are defined outside the module. *)
Variable opt_get : gmap string argval -> list string -> argval -> argval.
Variable create_hparams : gmap string argval.

(** Lines 62-66: the five items [__init__] assigns in
    [paired_dataset_args]. *)
Definition set_paired_arguments (collate max_audio max_text : argval)
           (paired_dataset_args : gmap string argval) : gmap string argval :=
  <["max_text_length" := max_text]>
  (<["max_wav_length" := max_audio]>
  (<["sample_rate" := AInt 22050]>
  (<["load_conditioning" := ABool false]>
  (<["needs_collate" := collate]> paired_dataset_args)))).

(** [build_paired_voice_dataset], up to the call of the constructor:
    [default_params.update(args)]. *)
Definition build_paired_voice_dataset (args : gmap string argval)
  : gmap string argval :=
  let default_params := create_hparams in
  args ∪ default_params.

(** Lines 70-74: the items [__init__] assigns in
    [unsupervised_audio_args]. *)
Definition set_audio_arguments (collate max_solo_audio : argval)
           (unsupervised_audio_args : gmap string argval)
  : gmap string argval :=
  let a :=
    <["resample_clip" := ABool false]>
    (<["do_augmentation" := ABool false]>
    (<["sampling_rate" := AInt 22050]> unsupervised_audio_args)) in
  if truth collate then <["pad_to_samples" := max_solo_audio]> a else a.

(** [__init__] as far as the option dictionaries go, in the order of the
    source. *)
Definition init_arguments (opt : gmap string argval) : fallible prepared :=
  match item opt "paired_dataset_args" with
  | inl e => inl e
  | inr paired_dataset_args =>
    let only_paired := opt_get opt ["only_paired"] (ABool false) in
    match
      (if negb (truth only_paired) then
         match item opt "unsupervised_audio_args" with
         | inl e => inl e
         | inr audio =>
           match item opt "text_corpus_args" with
           | inl e => inl e
           | inr corpus => inr (Some (audio, corpus))
           end
         end
       else inr None)
    with
    | inl e => inl e
    | inr solo =>
      match item opt "max_paired_audio_length" with
      | inl e => inl e
      | inr max_paired_audio_length =>
      match item opt "max_paired_text_length" with
      | inl e => inl e
      | inr max_paired_text_length =>
      match item opt "max_solo_audio_length" with
      | inl e => inl e
      | inr max_solo_audio_length =>
      match item opt "max_solo_text_length" with
      | inl e => inl e
      | inr max_solo_text_length =>
        let collate := opt_get opt ["needs_collate"] (ABool false) in
        match as_dict paired_dataset_args with
        | inl e => inl e
        | inr paired =>
          let paired :=
            set_paired_arguments collate max_paired_audio_length
                                 max_paired_text_length paired in
          let speech_and_text := build_paired_voice_dataset paired in
          match solo with
          | None =>
            inr {| p_only_paired := only_paired;
                   p_max_paired_audio_length := max_paired_audio_length;
                   p_max_paired_text_length := max_paired_text_length;
                   p_max_solo_audio_length := max_solo_audio_length;
                   p_max_solo_text_length := max_solo_text_length;
                   p_collate := collate;
                   p_sample_rate := 22050;
                   dataset_opt := speech_and_text;
                   audio_args := None;
                   text_args := None |}
          | Some (unsupervised_audio_args, text_corpus_args) =>
            match as_dict unsupervised_audio_args with
            | inl e => inl e
            | inr audio =>
              let audio :=
                set_audio_arguments collate max_solo_audio_length audio in
              match as_dict text_corpus_args with
              | inl e => inl e
              | inr corpus =>
                inr {| p_only_paired := only_paired;
                       p_max_paired_audio_length := max_paired_audio_length;
                       p_max_paired_text_length := max_paired_text_length;
                       p_max_solo_audio_length := max_solo_audio_length;
                       p_max_solo_text_length := max_solo_text_length;
                       p_collate := collate;
                       p_sample_rate := 22050;
                       dataset_opt := speech_and_text;
                       audio_args := Some audio;
                       text_args := Some corpus |}
              end
            end
          end
        end
      end end end end
    end
  end.

(** The keys [__init__] assigns in [paired_dataset_args]. *)
Definition forced_paired_keys : list string :=
  ["needs_collate"; "load_conditioning"; "sample_rate";
   "max_wav_length"; "max_text_length"].

(** The keys [__init__] may assign in [unsupervised_audio_args]. *)
Definition forced_audio_keys : list string :=
  ["sampling_rate"; "do_augmentation"; "resample_clip"; "pad_to_samples"].

End Init.

End Arguments.

(** ** Further vocabulary and examples *)

Module More.

Import GrandConjoined Downsample Arguments.

(** The keys of the dictionary [fetch_snt_at] builds under collation. *)
Definition collated_keys : gset string :=
  {[ "real_text"; "padded_text"; "text_lengths"; "wav"; "wav_lengths";
     "filenames" ]}.

(** The keys of every dictionary [DownsampleDataset.__getitem__]
    returns. *)
Definition downsample_keys : gset string :=
  {[ "LQ"; "GT"; "PIX"; "LQ_path"; "GT_path" ]}.

(** A full-mode dataset over the example corpora with an empty text
    corpus. *)
Definition textless : GrandConjoinedDataset Z :=
  {| only_paired := false;
     max_paired_audio_length := 3;
     max_paired_text_length := 2;
     max_solo_audio_length := 4;
     max_solo_text_length := 5;
     collate := true;
     sample_rate := 22050;
     speech_and_text := Examples.toy_paired true;
     speech := Some (Examples.toy_speech true);
     text := Some [] |}.

(** The example dataset with negative limits on the solo lengths. *)
Definition negative_limits : GrandConjoinedDataset Z :=
  {| only_paired := false;
     max_paired_audio_length := 3;
     max_paired_text_length := 2;
     max_solo_audio_length := -1;
     max_solo_text_length := -1;
     collate := true;
     sample_rate := 22050;
     speech_and_text := Examples.toy_paired true;
     speech := Some (Examples.toy_speech true);
     text := Some Examples.toy_corpus |}.

(** [opt_get] on a one-key path: a missing key and a [None] value give
    the default. *)
Definition lookup_or_default (opt : gmap string argval) (keys : list string)
           (default : argval) : argval :=
  match keys with
  | [key] =>
    match opt !! key with
    | Some ANone | None => default
    | Some v => v
    end
  | _ => default
  end.

Definition toy_hparams : gmap string argval :=
  <["sample_rate" := AInt 16000]>
  (<["load_conditioning" := ABool true]>
  (<["n_mel_channels" := AInt 80]>
  (<["use_bpe_tokenizer" := ABool true]> ∅))).

Definition toy_paired_args : gmap string argval :=
  <["path" := AList [AStr "test-clean_list.txt"]]>
  (<["fetcher_mode" := AList [AStr "libritts"]]>
  (<["sample_rate" := AInt 8000]>
  (<["use_bpe_tokenizer" := ABool false]> ∅))).

Definition toy_audio_args : gmap string argval :=
  <["path" := AList [AStr "test_clean"]]>
  (<["cache_path" := AStr "test_cache_delete_me.pth"]>
  (<["pad_to_samples" := AInt 7]> ∅)).

Definition toy_text_args : gmap string argval :=
  <["corpi" := AList [AList [AStr "bookcorpus"]]]>
  (<["cache_path" := AStr "cache"]> ∅).

Definition toy_lengths (opt : gmap string argval) : gmap string argval :=
  <["max_paired_audio_length" := AInt 255995]>
  (<["max_paired_text_length" := AInt 200]>
  (<["max_solo_text_length" := AInt 330]>
  (<["max_solo_audio_length" := AInt 300000]> opt))).

Definition toy_train_params : gmap string argval :=
  toy_lengths
    (<["needs_collate" := ABool true]>
    (<["paired_dataset_args" := ADict toy_paired_args]>
    (<["unsupervised_audio_args" := ADict toy_audio_args]>
    (<["text_corpus_args" := ADict toy_text_args]> ∅)))).

Definition toy_val_params : gmap string argval :=
  toy_lengths
    (<["only_paired" := ABool true]>
    (<["needs_collate" := ABool true]>
    (<["paired_dataset_args" := ADict toy_paired_args]> ∅))).

(** A validation-phase variant of the example image dataset, without
    compression artifacts. *)
Definition toy_val_world (kind lq : string) : world :=
  let s := Examples.toy_downsample kind lq in
  {| this :=
       {| opt :=
            {| o_data_type := kind;
               o_doCrop := true;
               o_dataroot_GT := "gt";
               o_dataroot_LQ := lq;
               o_mismatched_Data_OK := true;
               o_scale := 2;
               o_target_size := 2;
               o_phase := "val";
               o_color := None;
               o_use_flip := true;
               o_use_rot := true;
               o_use_compression_artifacts := false |};
          data_type := data_type s;
          paths_LQ := paths_LQ s;
          paths_GT := paths_GT s;
          sizes_LQ := sizes_LQ s;
          sizes_GT := sizes_GT s;
          LQ_env := LQ_env s;
          GT_env := GT_env s;
          doCrop := doCrop s;
          data_sz_mismatch_ok := data_sz_mismatch_ok s;
          random_scale_list := random_scale_list s |};
     random := tt |}.

(** A computation that leaves a component [f] of the world as it found
    it, however it ends. *)
Definition preserves {S A X : Type} (f : S -> X) (m : M S A) : Prop :=
  forall s, f (snd (m s)) = f s.

(** The dataset [DownsampleDataset.__init__] builds from options [o] and
    the two listings. *)
Definition built_from {L : Libraries} (o : Downsample.Options)
           (gt lq : list string) (sGT sLQ : option (list string))
  : DownsampleDataset :=
  {| opt := o;
     data_type := o_data_type o;
     paths_LQ := Some lq;
     paths_GT := Some gt;
     sizes_LQ := sLQ;
     sizes_GT := sGT;
     LQ_env := None;
     GT_env := None;
     doCrop := o_doCrop o;
     data_sz_mismatch_ok := o_mismatched_Data_OK o;
     random_scale_list := [1] |}.

(** The example dataset over an empty paired corpus. *)
Definition pairless : GrandConjoinedDataset Z :=
  {| only_paired := false;
     max_paired_audio_length := 3;
     max_paired_text_length := 2;
     max_solo_audio_length := 4;
     max_solo_text_length := 5;
     collate := true;
     sample_rate := 22050;
     speech_and_text :=
       {| items := []; get_text := Examples.letters_only |};
     speech := Some (Examples.toy_speech true);
     text := Some Examples.toy_corpus |}.

(** Options of the example image dataset with a chosen phase, scale and
    target size. *)
Definition toy_options_with (kind phase : string) (scale target : Z)
  : Downsample.Options :=
  {| o_data_type := kind;
     o_doCrop := true;
     o_dataroot_GT := "gt";
     o_dataroot_LQ := "lq";
     o_mismatched_Data_OK := true;
     o_scale := scale;
     o_target_size := target;
     o_phase := phase;
     o_color := None;
     o_use_flip := true;
     o_use_rot := true;
     o_use_compression_artifacts := true |}.

(** The world right after [__init__] on these options. *)
Definition toy_world_with (kind phase : string) (scale target : Z)
  : @world Examples.toy_libraries :=
  {| this :=
       @built_from Examples.toy_libraries
                  (toy_options_with kind phase scale target)
                  ["g0"; "g1"; "g2"] ["l0"; "l1"]
                  (Some ["8_8_3"; "8_8_3"; "8_8_3"]) (Some ["4_4_3"; "4_4_3"]);
     random := tt |}.

(** The example libraries with an LQ environment that does not open. *)
Definition flaky_libraries : Libraries := {|
  ndarray := Examples.picture;
  pil_image := Examples.picture;
  tensor := Examples.picture;
  lmdb_env := string;
  rng := unit;
  augmentation := unit;
  get_image_paths := Examples.toy_get_image_paths;
  read_img := Examples.toy_read_img;
  modcrop := fun x scale => inr x;
  channel_convert := fun c color x => inr x;
  draw_augmentation := fun hflip rot r => (tt, r);
  apply_augmentation := fun aug x => x;
  shape := Examples.dims;
  crop := fun x a b c d => x;
  to_uint8 := fun x => x;
  cv2_resize := fun x h w => inr x;
  cvtColor_BGR2RGB := fun x => inr x;
  fromarray := fun x => inr x;
  jpeg_roundtrip := fun x qf => inr x;
  F_resize := fun x h w => inr x;
  to_tensor := fun x => x;
  from_numpy_chw := fun x => x;
  lmdb_open := fun root =>
    if (root =? "lq")%string then inl (LibraryError "lmdb") else inr root;
  randint := fun lo hi r => (lo, r);
  randrange := fun lo hi r => (lo, r)
|}.

Definition flaky_world : @world flaky_libraries :=
  {| this :=
       @built_from flaky_libraries (toy_options_with "lmdb" "train" 2 2)
                   ["g0"; "g1"; "g2"] ["l0"; "l1"]
                   (Some ["8_8_3"; "8_8_3"; "8_8_3"]) (Some ["4_4_3"; "4_4_3"]);
     random := tt |}.

(** Two example images. *)
Definition toy_HQ : Examples.picture :=
  {| Examples.origin := "g0"; Examples.history := []; Examples.dims := (8, 8, 3) |}.

Definition toy_LQ : Examples.picture :=
  {| Examples.origin := "l0"; Examples.history := []; Examples.dims := (4, 4, 3) |}.

End More.

(** * Properties *)

(** ** The runtime fragment *)

Section PyFacts.

Context {S A B : Type}.

Lemma bind_returned (m : M S A) (k : A -> M S B) s b s' :
  bind m k s = (Returned b, s') ->
  exists a s1, m s = (Returned a, s1) /\ k a s1 = (Returned b, s').
Proof.
  unfold bind. destruct (m s) as [[a | e |] s1]; intros H; try discriminate.
  exists a, s1. split; [reflexivity | exact H].
Qed.

Lemma bind_step (m : M S A) (k : A -> M S B) s a s1 :
  m s = (Returned a, s1) -> bind m k s = k a s1.
Proof. intros H. unfold bind. rewrite H. reflexivity. Qed.

Lemma bind_raised (m : M S A) (k : A -> M S B) s e s1 :
  m s = (Raised e, s1) -> bind m k s = (Raised e, s1).
Proof. intros H. unfold bind. rewrite H. reflexivity. Qed.

Lemma lift_returned (r : fallible A) (s s' : S) a :
  lift r s = (Returned a, s') -> r = inr a /\ s' = s.
Proof.
  destruct r as [e | x]; cbn; intros H; inversion H; subst; auto.
Qed.

End PyFacts.

Lemma py_assert_returned {S} (c : bool) msg (s s' : S) u :
  py_assert c msg s = (Returned u, s') -> c = true /\ s' = s.
Proof.
  destruct c; cbn; intros H; inversion H; subst; auto.
Qed.

Lemma py_min_is_min a b : py_min a b = Z.min a b.
Proof. unfold py_min. destruct (Z.ltb_spec b a); lia. Qed.

Lemma py_max_is_max a b : py_max a b = Z.max a b.
Proof.
  unfold py_max. rewrite Z.gtb_ltb. destruct (Z.ltb_spec a b); lia.
Qed.

Lemma py_max3_is_max a b c : py_max3 a b c = Z.max (Z.max a b) c.
Proof. unfold py_max3. now rewrite !py_max_is_max. Qed.

Lemma len_nonneg {A} (l : list A) : 0 <= len l.
Proof. unfold len. lia. Qed.

Lemma len_pos {A} (l : list A) : l <> [] -> 0 < len l.
Proof. destruct l; [congruence | unfold len; cbn; lia]. Qed.

(** An index wrapped by a positive length lands on an element. *)
Lemma seq_getitem_wrapped {A} (l : list A) (i : Z) :
  l <> [] ->
  exists x, l !! Z.to_nat (i mod len l) = Some x /\
            seq_getitem l (i mod len l) = inr x.
Proof.
  intros Hl. pose proof (len_pos l Hl) as Hpos.
  pose proof (Z.mod_pos_bound i (len l) Hpos) as Hb.
  destruct (l !! Z.to_nat (i mod len l)) as [x |] eqn:Hx.
  - exists x. split; [reflexivity |]. unfold seq_getitem.
    destruct (Z.ltb_spec (i mod len l) 0); [lia |].
    destruct (Z.ltb_spec (i mod len l) 0); [lia |]. now rewrite Hx.
  - apply lookup_ge_None in Hx. unfold len in *. lia.
Qed.

Lemma py_mod_pos (i n : Z) : 0 < n -> py_mod i n = inr (i mod n).
Proof. intros H. unfold py_mod. destruct (Z.eqb_spec n 0); [lia | reflexivity]. Qed.

Lemma slice_to_length {A} (l : list A) (n : Z) :
  0 <= n -> len (slice_to l n) = Z.min (len l) n.
Proof.
  intros Hn. unfold slice_to, len.
  destruct (Z.ltb_spec n 0); [lia |]. rewrite length_take. lia.
Qed.

(** ** GrandConjoinedDataset *)

Section GrandConjoinedFacts.

Import GrandConjoined.

Context {amp : Type}.
Variable self : GrandConjoinedDataset amp.

Lemma dataset_getitem_wrapped {A} src (l : list A) (i : Z) x (t : trace) :
  l <> [] ->
  l !! Z.to_nat (i mod len l) = Some x ->
  dataset_getitem src l (i mod len l) t
  = (Returned x, t ++ [(src, i mod len l)]).
Proof.
  intros Hl Hx. unfold dataset_getitem.
  destruct (seq_getitem_wrapped l i Hl) as (y & Hy & Hget).
  rewrite Hget. unfold lift, ret. congruence.
Qed.

Lemma rejected_iff entry : rejected self entry <-> sample_of self entry = None.
Proof.
  split.
  - intros [e | txt Hstar | txt e He]; cbn; [reflexivity | now rewrite Hstar |].
    rewrite He. now destruct (contains_char _ txt).
  - destruct entry as [e | txt]; cbn; [intros _; constructor |].
    destruct (contains_char _ txt) eqn:Hstar; [intros _; now apply masked |].
    destruct (get_text _ txt) as [e | tok] eqn:He; [| discriminate].
    intros _. now apply untokenizable with e.
Qed.

(** The [try] block on an entry that goes through. *)
Lemma fetch_text_try_ok corpus i entry r t :
  text self = Some corpus -> corpus <> [] ->
  entry_at corpus i = Some entry ->
  sample_of self entry = Some r ->
  fetch_text_try self i t = (Returned r, t ++ [(Text, i mod len corpus)]).
Proof.
  intros Htext Hne Hentry Hr. unfold fetch_text_try.
  rewrite Htext. cbn [attr]. unfold bind at 1. cbn [ret].
  rewrite (py_mod_pos i (len corpus) (len_pos _ Hne)).
  unfold bind at 1. cbn [lift ret].
  unfold bind at 1.
  rewrite (dataset_getitem_wrapped Text corpus i entry t Hne Hentry).
  destruct entry as [e | txt]; cbn in Hr; [discriminate |].
  destruct (contains_char _ txt) eqn:Hstar; [discriminate |].
  destruct (get_text _ txt) as [e | tok] eqn:Htok; [discriminate |].
  inversion Hr; subst r.
  unfold bind, lift, ret, py_assert. rewrite Hstar. cbn. rewrite Htok.
  reflexivity.
Qed.

(** The [try] block on an entry that is turned down. *)
Lemma fetch_text_try_fail corpus i entry t :
  text self = Some corpus -> corpus <> [] ->
  entry_at corpus i = Some entry ->
  sample_of self entry = None ->
  exists e,
    fetch_text_try self i t = (Raised e, t ++ [(Text, i mod len corpus)]).
Proof.
  intros Htext Hne Hentry Hr. unfold fetch_text_try.
  rewrite Htext. cbn [attr]. unfold bind at 1. cbn [ret].
  rewrite (py_mod_pos i (len corpus) (len_pos _ Hne)).
  unfold bind at 1. cbn [lift ret].
  unfold bind at 1.
  rewrite (dataset_getitem_wrapped Text corpus i entry t Hne Hentry).
  destruct entry as [e | txt]; cbn in Hr.
  - exists e. reflexivity.
  - unfold bind, lift, ret, raise, py_assert.
    destruct (contains_char _ txt) eqn:Hstar; cbn.
    + eexists. reflexivity.
    + destruct (get_text _ txt) as [e | tok] eqn:Htok; [| discriminate].
      exists e. reflexivity.
Qed.

Lemma entry_at_some corpus i :
  corpus <> [] -> exists entry, entry_at corpus i = Some entry.
Proof.
  intros Hne. destruct (seq_getitem_wrapped corpus i Hne) as (x & Hx & _).
  exists x. exact Hx.
Qed.

(** One retry: a turned-down entry sends [fetch_text_at] to the next
    index, wrapped, with one read more in the trace. *)
Lemma fetch_text_at_step corpus i entry fuel t :
  text self = Some corpus -> corpus <> [] ->
  entry_at corpus i = Some entry ->
  sample_of self entry = None ->
  fetch_text_at self (S fuel) i t
  = fetch_text_at self fuel ((i + 1) mod len corpus)
                  (t ++ [(Text, i mod len corpus)]).
Proof.
  intros Htext Hne Hentry Hr.
  destruct (fetch_text_try_fail corpus i entry t Htext Hne Hentry Hr)
    as (e & He).
  cbn [fetch_text_at]. unfold try_except. rewrite He.
  rewrite Htext. cbn [attr]. unfold bind at 1. cbn [ret].
  rewrite (py_mod_pos (i + 1) (len corpus) (len_pos _ Hne)).
  unfold bind at 1. cbn [lift ret]. reflexivity.
Qed.

Lemma fetch_text_at_hit corpus i entry r fuel t :
  text self = Some corpus -> corpus <> [] ->
  entry_at corpus i = Some entry ->
  sample_of self entry = Some r ->
  fetch_text_at self (S fuel) i t
  = (Returned r, t ++ [(Text, i mod len corpus)]).
Proof.
  intros Htext Hne Hentry Hr.
  cbn [fetch_text_at]. unfold try_except.
  now rewrite (fetch_text_try_ok corpus i entry r t Htext Hne Hentry Hr).
Qed.

Lemma text_reads_S corpus i n :
  corpus <> [] ->
  text_reads corpus i (S n)
  = (Text, i mod len corpus) :: text_reads corpus ((i + 1) mod len corpus) n.
Proof.
  intros Hne. pose proof (len_pos _ Hne) as Hpos.
  unfold text_reads. cbn [seq map]. f_equal.
  - now rewrite Z.add_0_r.
  - rewrite <- seq_shift, map_map. apply map_ext. intros j.
    f_equal. rewrite Zplus_mod_idemp_l. f_equal. lia.
Qed.

Lemma entry_at_shift corpus i j :
  corpus <> [] ->
  entry_at corpus ((i + 1) mod len corpus + Z.of_nat j)
  = entry_at corpus (i + Z.of_nat (S j)).
Proof.
  intros Hne. unfold entry_at. rewrite Zplus_mod_idemp_l.
  do 3 f_equal. lia.
Qed.

(** The whole retry chain up to the first entry that goes through. *)
Lemma fetch_text_at_chain corpus (k : nat) :
  text self = Some corpus -> corpus <> [] ->
  forall i r fuel t,
    (forall j entry, (j < k)%nat ->
       entry_at corpus (i + Z.of_nat j) = Some entry ->
       sample_of self entry = None) ->
    (exists entry, entry_at corpus (i + Z.of_nat k) = Some entry /\
                   sample_of self entry = Some r) ->
    (k < fuel)%nat ->
    fetch_text_at self fuel i t
    = (Returned r, t ++ text_reads corpus i (S k)).
Proof.
  intros Htext Hne. induction k as [| k IH]; intros i r fuel t Hbad Hgood Hfuel.
  - destruct fuel as [| fuel]; [lia |].
    destruct Hgood as (entry & Hentry & Hr).
    rewrite Z.add_0_r in Hentry.
    rewrite (fetch_text_at_hit corpus i entry r fuel t Htext Hne Hentry Hr).
    rewrite text_reads_S by assumption. reflexivity.
  - destruct fuel as [| fuel]; [lia |].
    destruct (entry_at_some corpus i Hne) as (e0 & He0).
    assert (H0 : sample_of self e0 = None).
    { apply (Hbad 0%nat); [lia | now rewrite Z.add_0_r]. }
    rewrite (fetch_text_at_step corpus i e0 fuel t Htext Hne He0 H0).
    rewrite (IH ((i + 1) mod len corpus) r fuel).
    + rewrite (text_reads_S corpus i (S k)) by assumption.
      now rewrite <- app_assoc.
    + intros j entry Hj Hentry. rewrite entry_at_shift in Hentry by assumption.
      apply (Hbad (S j)); [lia | exact Hentry].
    + destruct Hgood as (entry & Hentry & Hr). exists entry.
      split; [| exact Hr]. now rewrite entry_at_shift.
    + lia.
Qed.

(** With no entry going through, the chain uses up any fuel. *)
Lemma fetch_text_at_starves corpus :
  text self = Some corpus -> corpus <> [] ->
  (forall entry, In entry corpus -> sample_of self entry = None) ->
  forall fuel i t,
    fetch_text_at self fuel i t = (Diverged, t ++ text_reads corpus i fuel).
Proof.
  intros Htext Hne Hnone. induction fuel as [| fuel IH]; intros i t.
  - cbn. now rewrite app_nil_r.
  - destruct (entry_at_some corpus i Hne) as (e0 & He0).
    assert (H0 : sample_of self e0 = None).
    { apply Hnone. apply list_elem_of_In. eapply list_elem_of_lookup_2. exact He0. }
    rewrite (fetch_text_at_step corpus i e0 fuel t Htext Hne He0 H0), IH.
    rewrite (text_reads_S corpus i fuel) by assumption.
    now rewrite <- app_assoc.
Qed.

(** *** Inverting a successful call *)

Lemma attr_returned {A} name (a : option A) (t t' : trace) x :
  attr name a t = (Returned x, t') -> a = Some x /\ t' = t.
Proof.
  destruct a as [y |]; cbn; unfold ret, raise; intros H; inversion H; auto.
Qed.

Lemma subscript_returned (snt : fetched amp) key (t t' : trace) v :
  subscript snt key t = (Returned v, t') ->
  t' = t /\ exists d, snt = FDict d /\ d !! key = Some v.
Proof.
  destruct snt as [? ? ? ? ? | d]; cbn; [unfold raise; discriminate |].
  destruct (d !! key) as [w |] eqn:Hk; unfold ret, raise; intros H;
    inversion H; subst. eauto.
Qed.

Lemma subscript_trace (snt : fetched amp) key (t : trace) :
  snd (subscript snt key t) = t /\ fst (subscript snt key t) <> Diverged.
Proof.
  destruct snt as [? ? ? ? ? | d]; cbn; [now unfold raise |].
  destruct (d !! key); now unfold ret, raise.
Qed.

Lemma dataset_getitem_returned {A} src (l : list A) k (t t' : trace) x :
  dataset_getitem src l k t = (Returned x, t') ->
  seq_getitem l k = inr x /\ t' = t ++ [(src, k)].
Proof.
  unfold dataset_getitem. destruct (seq_getitem l k) as [e | y]; cbn;
    unfold ret, raise; intros H; inversion H; auto.
Qed.

Lemma py_mod_returned (i n k : Z) (t t' : trace) :
  lift (py_mod i n) t = (Returned k, t') -> n <> 0 /\ k = i mod n /\ t' = t.
Proof.
  unfold py_mod. destruct (Z.eqb_spec n 0); cbn; unfold ret, raise;
    intros H; inversion H; auto.
Qed.

Lemma seq_getitem_lookup {A} (l : list A) (i : Z) x :
  len l <> 0 -> seq_getitem l (i mod len l) = inr x ->
  l !! Z.to_nat (i mod len l) = Some x.
Proof.
  intros Hn Hget. assert (Hne : l <> []) by (intros ->; now apply Hn).
  destruct (seq_getitem_wrapped l i Hne) as (y & Hy & Hget').
  congruence.
Qed.

(** What a returning [fetch_text_at] hands back: an entry of the corpus
    that went through the [try] block. *)
Lemma fetch_text_at_returned fuel :
  forall i t r t',
    fetch_text_at self fuel i t = (Returned r, t') ->
    exists corpus entry,
      text self = Some corpus /\ In entry corpus /\
      sample_of self entry = Some r.
Proof.
  induction fuel as [| fuel IH]; intros i t r t' H; [discriminate |].
  cbn [fetch_text_at] in H. unfold try_except in H.
  destruct (fetch_text_try self i t) as [[r0 | e |] t0] eqn:Htry.
  - inversion H; subst r0 t0. clear H. unfold fetch_text_try in Htry.
    apply bind_returned in Htry as (corpus & t1 & Hc & Htry).
    apply attr_returned in Hc as [Hc ->].
    apply bind_returned in Htry as (k & t1 & Hk & Htry).
    apply py_mod_returned in Hk as (Hn & -> & ->).
    apply bind_returned in Htry as (entry & t1 & He & Htry).
    apply dataset_getitem_returned in He as [He ->].
    apply bind_returned in Htry as (txt & t1 & Htxt & Htry).
    apply lift_returned in Htxt as [-> ->].
    apply bind_returned in Htry as (u & t1 & Hassert & Htry).
    apply py_assert_returned in Hassert as [Hstar ->].
    apply bind_returned in Htry as (tok & t1 & Htok & Htry).
    apply lift_returned in Htok as [Htok ->].
    unfold ret in Htry. inversion Htry; subst.
    exists corpus, (inr txt). split; [assumption |]. split.
    + apply seq_getitem_lookup in He; [| assumption].
      apply list_elem_of_In. eapply list_elem_of_lookup_2. exact He.
    + cbn. apply negb_true_iff in Hstar. rewrite Hstar, Htok. reflexivity.
  - apply bind_returned in H as (corpus & t1 & Hc & H).
    apply bind_returned in H as (k & t2 & Hk & H).
    now apply IH in H.
  - discriminate.
Qed.

(** The record of the full branch, field by field. *)
Lemma getitem_full_returned fuel i t d t' :
  only_paired self = false ->
  __getitem__ self fuel i t = (Returned d, t') ->
  exists corpus clips sp txt tok pa pal pt ptt pf,
    text self = Some corpus /\ speech self = Some clips /\
    len clips <> 0 /\
    clips !! Z.to_nat (i mod len clips) = Some sp /\
    (exists entry, In entry corpus /\ sample_of self entry = Some (txt, tok)) /\
    d = <["paired_audio" := pa]>
        (<["paired_audio_lengths" := pal]>
        (<["paired_text" := pt]>
        (<["paired_text_tokens" := ptt]>
        (<["paired_file" := pf]>
        (<["speech_audio" :=
             VWave (crop_last_dim (clip sp) (max_solo_audio_length self))]>
        (<["speech_audio_lengths" :=
             VInt (clamp (clip_lengths sp) 0 (max_solo_audio_length self))]>
        (<["speech_file" := VStr (path sp)]>
        (<["text_text" := VStr txt]>
        (<["text_tokens" := VTokens tok]> ∅))))))))).
Proof.
  intros Hmode H. unfold __getitem__ in H.
  apply bind_returned in H as (snt & t1 & _ & H). rewrite Hmode in H.
  apply bind_returned in H as (corpus & t2 & Hc & H).
  apply attr_returned in Hc as [Hc ->].
  apply bind_returned in H as (k & t2 & Hk & H).
  apply py_mod_returned in Hk as (Hn & -> & ->).
  apply bind_returned in H as ([txt tok] & t2 & Hfetch & H).
  apply fetch_text_at_returned in Hfetch as (corpus' & entry & Hc' & Hin & Hr).
  assert (corpus' = corpus) by congruence. subst corpus'.
  apply bind_returned in H as (clips & t3 & Hs & H).
  apply attr_returned in Hs as [Hs ->].
  apply bind_returned in H as (ks & t3 & Hks & H).
  apply py_mod_returned in Hks as (Hns & -> & ->).
  apply bind_returned in H as (sp & t3 & Hsp & H).
  apply dataset_getitem_returned in Hsp as [Hsp ->].
  apply seq_getitem_lookup in Hsp; [| assumption].
  apply bind_returned in H as (pa & t4 & _ & H).
  apply bind_returned in H as (pal & t5 & _ & H).
  apply bind_returned in H as (pt & t6 & _ & H).
  apply bind_returned in H as (ptt & t7 & _ & H).
  apply bind_returned in H as (pf & t8 & _ & H).
  unfold ret in H. inversion H; subst.
  exists corpus, clips, sp, txt, tok, pa, pal, pt, ptt, pf.
  repeat split; try assumption. exists entry. auto.
Qed.

(** The record of the paired-only branch. *)
Lemma getitem_paired_returned fuel i t d t' :
  only_paired self = true ->
  __getitem__ self fuel i t = (Returned d, t') ->
  exists pa pal pt ptt pf sa sal sf tt tk,
    d = <["paired_audio" := pa]>
        (<["paired_audio_lengths" := pal]>
        (<["paired_text" := pt]>
        (<["paired_text_tokens" := ptt]>
        (<["paired_file" := pf]>
        (<["speech_audio" := sa]>
        (<["speech_audio_lengths" := sal]>
        (<["speech_file" := sf]>
        (<["text_text" := tt]>
        (<["text_tokens" := tk]> ∅))))))))).
Proof.
  intros Hmode H. unfold __getitem__ in H.
  apply bind_returned in H as (snt & t1 & _ & H). rewrite Hmode in H.
  apply bind_returned in H as (pa & t2 & _ & H).
  apply bind_returned in H as (pal & t3 & _ & H).
  apply bind_returned in H as (pt & t4 & _ & H).
  apply bind_returned in H as (ptt & t5 & _ & H).
  apply bind_returned in H as (pf & t6 & _ & H).
  apply bind_returned in H as (sa & t7 & _ & H).
  apply bind_returned in H as (sal & t8 & _ & H).
  apply bind_returned in H as (sf & t9 & _ & H).
  apply bind_returned in H as (tt & t10 & _ & H).
  apply bind_returned in H as (tk & t11 & _ & H).
  unfold ret in H. inversion H; subst.
  exists pa, pal, pt, ptt, pf, sa, sal, sf, tt, tk. reflexivity.
Qed.

Lemma record_dom (pa pal pt ptt pf sa sal sf tt tk : pyval amp) :
  dom (<["paired_audio" := pa]>
      (<["paired_audio_lengths" := pal]>
      (<["paired_text" := pt]>
      (<["paired_text_tokens" := ptt]>
      (<["paired_file" := pf]>
      (<["speech_audio" := sa]>
      (<["speech_audio_lengths" := sal]>
      (<["speech_file" := sf]>
      (<["text_text" := tt]>
      (<["text_tokens" := tk]> (∅ : gmap string (pyval amp))))))))))))
  = record_keys.
Proof.
  rewrite !dom_insert_L, dom_empty_L. unfold record_keys. set_solver.
Qed.

(** Whatever branch produced it, a returned record has the ten keys. *)
Lemma getitem_keys fuel i t d t' :
  __getitem__ self fuel i t = (Returned d, t') -> dom d = record_keys.
Proof.
  intros H. destruct (only_paired self) eqn:Hmode.
  - destruct (getitem_paired_returned fuel i t d t' Hmode H)
      as (pa & pal & pt & ptt & pf & sa & sal & sf & tt & tk & ->).
    apply record_dom.
  - destruct (getitem_full_returned fuel i t d t' Hmode H)
      as (corpus & clips & sp & txt & tok & pa & pal & pt & ptt & pf &
          _ & _ & _ & _ & _ & ->).
    apply record_dom.
Qed.

(** *** Truncation and padding *)

Lemma fit_tokens_spec tok :
  0 <= max_solo_text_length self ->
  fit_tokens self tok
  = take (Z.to_nat (max_solo_text_length self)) tok
    ++ repeat 0 (Z.to_nat (max_solo_text_length self) - length tok)%nat.
Proof.
  intros HL. unfold fit_tokens, slice_to, len.
  set (L := max_solo_text_length self) in *.
  destruct (Z.ltb_spec (L - Z.of_nat (length tok)) 0) as [Hlong | Hshort].
  - destruct (Z.ltb_spec L 0); [lia |].
    replace (Z.to_nat L - length tok)%nat with 0%nat by lia.
    cbn. now rewrite app_nil_r.
  - rewrite take_ge by lia. rewrite Z.gtb_ltb.
    destruct (Z.ltb_spec 0 (L - Z.of_nat (length tok))) as [Hpad | Hexact].
    + do 2 f_equal. lia.
    + replace (Z.to_nat L - length tok)%nat with 0%nat by lia.
      cbn. now rewrite app_nil_r.
Qed.

Lemma fit_tokens_length tok :
  0 <= max_solo_text_length self ->
  len (fit_tokens self tok) = max_solo_text_length self.
Proof.
  intros HL. rewrite fit_tokens_spec by assumption. unfold len.
  rewrite length_app, length_take, repeat_length. lia.
Qed.

Lemma sample_of_some entry txt tok :
  sample_of self entry = Some (txt, tok) ->
  entry = inr txt /\ contains_char "*"%char txt = false /\
  exists raw, get_text (speech_and_text self) txt = inr raw /\
              tok = fit_tokens self raw.
Proof.
  destruct entry as [e | txt0]; cbn; [discriminate |].
  destruct (contains_char _ txt0) eqn:Hstar; [discriminate |].
  destruct (get_text _ txt0) as [e | raw] eqn:Hraw; [discriminate |].
  intros H. inversion H; subst. eauto.
Qed.

Lemma crop_last_dim_bounded (w : list (list amp)) (n : Z) :
  0 <= n -> Forall (fun channel => len channel <= n) (crop_last_dim w n).
Proof.
  intros Hn. unfold crop_last_dim. apply Forall_map, Forall_forall.
  intros channel _. cbn. rewrite slice_to_length by assumption. lia.
Qed.

Lemma clamp_spec x lo hi : clamp x lo hi = Z.max lo (Z.min x hi).
Proof. unfold clamp. now rewrite py_min_is_min, py_max_is_max. Qed.

(** *** Finding the first entry that goes through *)

Lemma least_offset (P : nat -> bool) :
  forall k0, P k0 = true ->
  exists k, (k <= k0)%nat /\ P k = true /\
            forall j, (j < k)%nat -> P j = false.
Proof.
  intros k0. revert P. induction k0 as [| k0 IH]; intros P Hk0.
  - exists 0%nat. repeat split; [lia | assumption | intros j Hj; lia].
  - destruct (P 0%nat) eqn:H0.
    + exists 0%nat. repeat split; [lia | assumption | intros j Hj; lia].
    + destruct (IH (fun j => P (S j)) Hk0) as (k & Hle & Hk & Hbelow).
      exists (S k). repeat split; [lia | assumption |].
      intros [| j] Hj; [assumption | apply Hbelow; lia].
Qed.

(** Every entry of the corpus is met within one pass from any index. *)
Lemma entry_within_one_pass corpus entry i :
  In entry corpus ->
  exists k0, (k0 < length corpus)%nat /\
             entry_at corpus (i + Z.of_nat k0) = Some entry.
Proof.
  intros Hin. apply list_elem_of_In, list_elem_of_lookup_1 in Hin as (p & Hp).
  pose proof (lookup_lt_Some _ _ _ Hp) as Hlt.
  assert (Hpos : 0 < len corpus) by (unfold len; lia).
  pose proof (Z.mod_pos_bound (Z.of_nat p - i) (len corpus) Hpos) as Hb.
  exists (Z.to_nat ((Z.of_nat p - i) mod len corpus)). split.
  - unfold len in *. lia.
  - unfold entry_at. rewrite Z2Nat.id by lia.
    rewrite Zplus_mod_idemp_r.
    replace (i + (Z.of_nat p - i)) with (Z.of_nat p) by lia.
    rewrite Z.mod_small by (unfold len; lia). now rewrite Nat2Z.id.
Qed.

Lemma first_hit corpus i :
  corpus <> [] ->
  (exists entry, In entry corpus /\ sample_of self entry <> None) ->
  exists (k : nat) entry r,
    (k < length corpus)%nat /\
    entry_at corpus (i + Z.of_nat k) = Some entry /\
    sample_of self entry = Some r /\
    forall j e, (j < k)%nat ->
      entry_at corpus (i + Z.of_nat j) = Some e -> sample_of self e = None.
Proof.
  intros Hne (entry & Hin & Hok).
  destruct (entry_within_one_pass corpus entry i Hin) as (k0 & Hk0 & Hentry).
  assert (Hgo : goes_through self corpus i k0 = true).
  { unfold goes_through. rewrite Hentry.
    destruct (sample_of self entry); [reflexivity | congruence]. }
  destruct (least_offset (goes_through self corpus i) k0 Hgo)
    as (k & Hle & Hk & Hbelow).
  unfold goes_through in Hk.
  destruct (entry_at corpus (i + Z.of_nat k)) as [good |] eqn:Hgood;
    [| discriminate].
  destruct (sample_of self good) as [r |] eqn:Hr; [| discriminate].
  exists k, good, r. split; [lia |]. split; [assumption |]. split; [assumption |].
  intros j e Hj He. specialize (Hbelow j Hj). unfold goes_through in Hbelow.
  rewrite He in Hbelow. now destruct (sample_of self e).
Qed.

(** *** The reads of a lookup *)

Lemma text_reads_wrapped corpus i n :
  corpus <> [] ->
  text_reads corpus (i mod len corpus) n = text_reads corpus i n.
Proof.
  intros Hne. unfold text_reads. apply map_ext. intros j.
  now rewrite Zplus_mod_idemp_l.
Qed.

Lemma text_reads_in_range corpus i n :
  text self = Some corpus -> corpus <> [] ->
  Forall (in_range self) (text_reads corpus i n).
Proof.
  intros Htext Hne. unfold text_reads. apply Forall_map, Forall_forall.
  intros j _. unfold in_range. cbn. exists corpus. split; [assumption |].
  apply Z.mod_pos_bound. now apply len_pos.
Qed.

Lemma not_addressing_type : ~ addressing_error TypeError.
Proof. intros [H | H]; discriminate. Qed.

Lemma not_addressing_key k : ~ addressing_error (KeyError k).
Proof. intros [H | H]; discriminate. Qed.

Lemma not_addressing_attribute a : ~ addressing_error (AttributeError a).
Proof. intros [H | H]; discriminate. Qed.

Lemma not_addressing_value : ~ addressing_error ValueError.
Proof. intros [H | H]; discriminate. Qed.

Lemma subscript_sound (snt : fetched amp) key (t : trace) :
  exists o, subscript snt key t = (o, t) /\ sound o /\ o <> Diverged.
Proof.
  destruct snt as [? ? ? ? ? | d]; cbn.
  - eexists. split; [reflexivity |]. split; [apply not_addressing_type | discriminate].
  - destruct (d !! key); eexists; (split; [reflexivity |]); cbn;
      (split; [| discriminate]); [trivial | apply not_addressing_key].
Qed.

(** [fetch_snt_at] reads the paired corpus once, at the wrapped index. *)
Lemma fetch_snt_at_trace i t :
  items (speech_and_text self) <> [] ->
  exists o,
    fetch_snt_at self i t
    = (o, t ++ [(Paired, i mod len (items (speech_and_text self)))]) /\
    sound o /\ o <> Diverged.
Proof.
  intros Hne. unfold fetch_snt_at.
  destruct (seq_getitem_wrapped (items (speech_and_text self)) i Hne)
    as (f & Hf & _).
  unfold bind at 1. rewrite (py_mod_pos _ _ (len_pos _ Hne)). cbn [lift].
  unfold ret at 1. unfold bind at 1.
  rewrite (dataset_getitem_wrapped Paired _ i f t Hne Hf).
  destruct (collate self).
  - destruct f as [tseq wav p txt cond | d].
    + eexists. split; [reflexivity |]. split; [exact I | discriminate].
    + destruct (decide (size d = 5%nat)); eexists;
        (split; [reflexivity |]); (split; [| discriminate]).
      * apply not_addressing_attribute.
      * apply not_addressing_value.
  - eexists. split; [reflexivity |]. split; [exact I | discriminate].
Qed.

(** [fetch_text_at] reads the text corpus at successive wrapped indices
    and lets no exception out. *)
Lemma fetch_text_at_trace corpus :
  text self = Some corpus -> corpus <> [] ->
  forall fuel i t,
  exists (attempts : nat) o,
    fetch_text_at self fuel i t = (o, t ++ text_reads corpus i attempts) /\
    (attempts <= fuel)%nat /\
    match o with
    | Returned _ => (1 <= attempts)%nat
    | Raised _ => False
    | Diverged => attempts = fuel
    end.
Proof.
  intros Htext Hne. induction fuel as [| fuel IH]; intros i t.
  - exists 0%nat, Diverged. cbn. rewrite app_nil_r. auto.
  - destruct (entry_at_some corpus i Hne) as (e0 & He0).
    destruct (sample_of self e0) as [r |] eqn:Hr.
    + exists 1%nat, (Returned r).
      rewrite (fetch_text_at_hit corpus i e0 r fuel t Htext Hne He0 Hr).
      rewrite text_reads_S by assumption. cbn. split; [reflexivity | lia].
    + rewrite (fetch_text_at_step corpus i e0 fuel t Htext Hne He0 Hr).
      destruct (IH ((i + 1) mod len corpus) (t ++ [(Text, i mod len corpus)]))
        as (m & o & Hrun & Hm & Ho).
      exists (S m), o. rewrite Hrun, text_reads_S by assumption.
      rewrite <- app_assoc. split; [reflexivity |]. split; [lia |].
      destruct o; [lia | assumption | lia].
Qed.

(** On a suitable item [fetch_snt_at] returns a dictionary with the
    five keys [__getitem__] reads. *)
Lemma fetch_snt_at_ok i t :
  items (speech_and_text self) <> [] ->
  Forall (suits (collate self)) (items (speech_and_text self)) ->
  exists d,
    fetch_snt_at self i t
    = (Returned (FDict d),
       t ++ [(Paired, i mod len (items (speech_and_text self)))]) /\
    Forall (fun key => is_Some (d !! key))
           ["wav"; "wav_lengths"; "real_text"; "padded_text"; "filenames"].
Proof.
  intros Hne Hsuits. unfold fetch_snt_at.
  destruct (seq_getitem_wrapped (items (speech_and_text self)) i Hne)
    as (f & Hf & _).
  unfold bind at 1. rewrite (py_mod_pos _ _ (len_pos _ Hne)). cbn [lift].
  unfold ret at 1. unfold bind at 1.
  rewrite (dataset_getitem_wrapped Paired _ i f t Hne Hf).
  pose proof (proj1 (Forall_lookup _ _) Hsuits _ _ Hf) as Hsuit.
  destruct (collate self); destruct f as [tseq wav p txt cond | d];
    cbn in Hsuit.
  - eexists. split; [reflexivity |].
    repeat constructor; eexists; reflexivity.
  - destruct Hsuit as [Hc _]. discriminate.
  - discriminate.
  - destruct Hsuit as [_ Hkeys]. exists d. split; [reflexivity | exact Hkeys].
Qed.

Lemma subscript_ok (d : gmap string (pyval amp)) key (t : trace) :
  is_Some (d !! key) ->
  exists v, subscript (FDict d) key t = (Returned v, t).
Proof. intros [v Hv]. exists v. cbn. now rewrite Hv. Qed.

(** On a well-formed dataset every lookup returns, given enough depth. *)
Lemma getitem_returns i :
  well_formed self ->
  exists fuel0, forall fuel t, (fuel0 <= fuel)%nat ->
    exists d t', __getitem__ self fuel i t = (Returned d, t').
Proof.
  intros (Hp & Hsuits & Hfull).
  destruct (only_paired self) eqn:Hmode.
  - exists 0%nat. intros fuel t _. unfold __getitem__.
    destruct (fetch_snt_at_ok i t Hp Hsuits) as (d & Hsnt & Hkeys).
    unfold bind at 1. rewrite Hsnt, Hmode.
    inversion Hkeys as [| ? ? Hwav Hk1]; subst.
    inversion Hk1 as [| ? ? Hwl Hk2]; subst.
    inversion Hk2 as [| ? ? Hrt Hk3]; subst.
    inversion Hk3 as [| ? ? Hpt Hk4]; subst.
    inversion Hk4 as [| ? ? Hfn _]; subst.
    destruct Hwav as [v1 Hwav], Hwl as [v2 Hwl], Hrt as [v3 Hrt],
             Hpt as [v4 Hpt], Hfn as [v5 Hfn].
    unfold bind, subscript, ret. rewrite Hwav, Hwl, Hrt, Hpt, Hfn.
    eexists _, _. reflexivity.
  - destruct (Hfull eq_refl)
      as (clips & corpus & Hspeech & Hs & Htext & entry & Hin & Hok).
    assert (Hc : corpus <> []) by (intros ->; destruct Hin).
    destruct (first_hit corpus (i mod len corpus) Hc)
      as (k & good & r & Hk & Hgood & Hr & Hbad).
    { exists entry. split; [assumption |]. intros Hnone.
      apply Hok. now apply rejected_iff. }
    exists (S k). intros fuel t Hfuel. unfold __getitem__.
    destruct (fetch_snt_at_ok i t Hp Hsuits) as (d & Hsnt & Hkeys).
    unfold bind at 1. rewrite Hsnt, Hmode, Htext. cbn [attr].
    unfold bind at 1. unfold ret at 1.
    rewrite (py_mod_pos _ _ (len_pos _ Hc)). cbn [lift].
    unfold bind at 1. unfold ret at 1.
    unfold bind at 1.
    rewrite (fetch_text_at_chain corpus k Htext Hc
               (i mod len corpus) r fuel); [| assumption | eauto | lia].
    destruct r as [txt tok].
    rewrite Hspeech. cbn [attr]. unfold bind at 1. unfold ret at 1.
    rewrite (py_mod_pos _ _ (len_pos _ Hs)). cbn [lift].
    unfold bind at 1. unfold ret at 1.
    destruct (seq_getitem_wrapped clips i Hs) as (sp & Hsp & _).
    unfold bind at 1.
    rewrite (dataset_getitem_wrapped Speech clips i sp _ Hs Hsp).
    inversion Hkeys as [| ? ? Hwav Hk1]; subst.
    inversion Hk1 as [| ? ? Hwl Hk2]; subst.
    inversion Hk2 as [| ? ? Hrt Hk3]; subst.
    inversion Hk3 as [| ? ? Hpt Hk4]; subst.
    inversion Hk4 as [| ? ? Hfn _]; subst.
    destruct Hwav as [v1 Hwav], Hwl as [v2 Hwl], Hrt as [v3 Hrt],
             Hpt as [v4 Hpt], Hfn as [v5 Hfn].
    unfold bind, subscript, ret. rewrite Hwav, Hwl, Hrt, Hpt, Hfn.
    eexists _, _. reflexivity.
Qed.

(** In paired-only mode a lookup reads the paired corpus, once, at the
    wrapped index, and nothing else. *)
Lemma getitem_paired_only_reads fuel i t :
  only_paired self = true ->
  items (speech_and_text self) <> [] ->
  snd (__getitem__ self fuel i t)
  = t ++ [(Paired, i mod len (items (speech_and_text self)))].
Proof.
  intros Hmode Hp.
  destruct (__getitem__ self fuel i t) as [res T] eqn:Hrun. cbn [snd].
  unfold __getitem__ in Hrun.
  destruct (fetch_snt_at_trace i t Hp) as (o & Hsnt & _ & Hnd).
  unfold bind at 1 in Hrun. rewrite Hsnt in Hrun.
  destruct o as [snt | e |]; [| now injection Hrun as <- <- | congruence].
  rewrite Hmode in Hrun.
  repeat
    (match type of Hrun with
     | context [bind (subscript ?snt ?key) ?k ?t0] =>
       let o := fresh "o" in
       let Hsub := fresh "Hsub" in
       let Hs1 := fresh "Hs" in
       let Hs2 := fresh "Hnd" in
       destruct (subscript_sound snt key t0) as (o & Hsub & Hs1 & Hs2);
       unfold bind at 1 in Hrun; rewrite Hsub in Hrun;
       destruct o; [| | congruence]
     end).
  all: unfold ret in Hrun; now injection Hrun as <- <-.
Qed.

(** In paired-only mode the length is that of the paired corpus. *)
Lemma len_paired_only t :
  only_paired self = true ->
  __len__ self t = (Returned (len (items (speech_and_text self))), t).
Proof. intros Hmode. unfold __len__. now rewrite Hmode. Qed.

End GrandConjoinedFacts.

(** ** Claims about GrandConjoinedDataset *)

Section GrandConjoinedClaims.

Import GrandConjoined.

Context {amp : Type}.
Implicit Types self : GrandConjoinedDataset amp.

(** C1. A dataset built by [__init__] with the three corpora (that is,
    not in paired-only mode) has the unpaired speech corpus and the
    unpaired text corpus set, and [__len__] returns the maximum of the
    lengths of the unpaired speech corpus, the paired corpus and the
    unpaired text corpus, reading none of them. *)
Theorem len_is_max_of_three (opt : Options amp) self (t : trace) :
  __init__ opt = inr self ->
  only_paired self = false ->
  exists clips corpus,
    speech self = Some clips /\ text self = Some corpus /\
    __len__ self t
    = (Returned (Z.max (Z.max (len clips) (len (items (speech_and_text self))))
                       (len corpus)), t).
Proof.
  unfold __init__. intros Hinit Hmode.
  destruct (opt_get (opt_only_paired opt) false).
  - inversion Hinit; subst self. discriminate.
  - destruct (unsupervised_audio opt) as [audio |]; [| discriminate].
    destruct (text_corpus opt) as [corpus |]; [| discriminate].
    cbn in Hinit. inversion Hinit; subst self. cbn.
    eexists _, _. repeat split.
    unfold __len__, bind, attr, ret. cbn. now rewrite py_max3_is_max.
Qed.

(** C9. With a non-negative [max_solo_text_length], whenever
    [fetch_text_at] returns, the tokens it returns are exactly
    [max_solo_text_length] long: the tokenization of the returned text cut
    to that length when it is longer, followed by zeros up to that length
    when it is shorter; and these tokens are the [text_tokens] field of
    the record the full branch of [__getitem__] returns. *)
Theorem text_tokens_have_fixed_length self :
  0 <= max_solo_text_length self ->
  (forall fuel i t txt tok t',
      fetch_text_at self fuel i t = (Returned (txt, tok), t') ->
      len tok = max_solo_text_length self /\
      exists raw,
        get_text (speech_and_text self) txt = inr raw /\
        tok = take (Z.to_nat (max_solo_text_length self)) raw
              ++ repeat 0 (Z.to_nat (max_solo_text_length self)
                           - length raw)%nat) /\
  (forall fuel i t d t',
      only_paired self = false ->
      __getitem__ self fuel i t = (Returned d, t') ->
      exists tok,
        d !! "text_tokens" = Some (VTokens tok) /\
        len tok = max_solo_text_length self).
Proof.
  intros HL. split.
  - intros fuel i t txt tok t' H.
    apply fetch_text_at_returned in H as (corpus & entry & _ & _ & Hr).
    apply sample_of_some in Hr as (_ & _ & raw & Hraw & ->).
    split; [now apply fit_tokens_length |].
    exists raw. split; [assumption | now apply fit_tokens_spec].
  - intros fuel i t d t' Hmode H.
    destruct (getitem_full_returned self fuel i t d t' Hmode H)
      as (corpus & clips & sp & txt & tok & pa & pal & pt & ptt & pf &
          _ & _ & _ & _ & (entry & _ & Hr) & ->).
    apply sample_of_some in Hr as (_ & _ & raw & _ & ->).
    exists (fit_tokens self raw). split; [reflexivity |].
    now apply fit_tokens_length.
Qed.

(** C6. In full mode with a non-negative [max_solo_audio_length], the
    record [__getitem__] returns for index [i] holds, under
    [speech_audio], the clip of the unpaired speech item at [i] modulo
    the corpus length with every channel cut to its first
    [max_solo_audio_length] samples, so no channel is longer than that;
    and under [speech_audio_lengths] the item's [clip_lengths] clamped,
    a value between 0 and [max_solo_audio_length]. *)
Theorem solo_speech_is_truncated_and_clamped self fuel i t d t' :
  only_paired self = false ->
  0 <= max_solo_audio_length self ->
  __getitem__ self fuel i t = (Returned d, t') ->
  exists clips sp cut n,
    speech self = Some clips /\
    clips !! Z.to_nat (i mod len clips) = Some sp /\
    d !! "speech_audio" = Some (VWave cut) /\
    cut = map (take (Z.to_nat (max_solo_audio_length self))) (clip sp) /\
    Forall (fun channel => len channel <= max_solo_audio_length self) cut /\
    d !! "speech_audio_lengths" = Some (VInt n) /\
    n = Z.max 0 (Z.min (clip_lengths sp) (max_solo_audio_length self)) /\
    0 <= n <= max_solo_audio_length self.
Proof.
  intros Hmode HM H.
  destruct (getitem_full_returned self fuel i t d t' Hmode H)
    as (corpus & clips & sp & txt & tok & pa & pal & pt & ptt & pf &
        _ & Hs & _ & Hsp & _ & ->).
  exists clips, sp,
    (crop_last_dim (clip sp) (max_solo_audio_length self)),
    (clamp (clip_lengths sp) 0 (max_solo_audio_length self)).
  split; [assumption |]. split; [assumption |].
  split; [reflexivity |]. split.
  { unfold crop_last_dim, slice_to.
    destruct (Z.ltb_spec (max_solo_audio_length self) 0); [lia | reflexivity]. }
  split; [now apply crop_last_dim_bounded |].
  split; [reflexivity |]. rewrite clamp_spec. split; [reflexivity | lia].
Qed.

(** C3. On a non-empty text corpus, when the entry that index [i]
    points at is turned down (it cannot be decoded, it holds ['*'], or
    the tokenizer refuses it), [fetch_text_at] raises nothing: it goes on
    as [fetch_text_at] at [(i + 1)] modulo the corpus length, having read
    the corpus once; and when the first entry that is not turned down
    lies [k] places after [i], it returns that entry's text with its
    fitted tokens after [k + 1] reads. *)
Theorem fetch_text_at_retries_at_next_index self corpus i entry :
  text self = Some corpus -> corpus <> [] ->
  entry_at corpus i = Some entry ->
  rejected self entry ->
  (forall fuel t,
      fetch_text_at self (S fuel) i t
      = fetch_text_at self fuel ((i + 1) mod len corpus)
                      (t ++ [(Text, i mod len corpus)])) /\
  (forall (k : nat) txt tok,
      (forall j e, (j < k)%nat ->
         entry_at corpus (i + Z.of_nat j) = Some e -> rejected self e) ->
      entry_at corpus (i + Z.of_nat k) = Some (inr txt) ->
      contains_char "*"%char txt = false ->
      get_text (speech_and_text self) txt = inr tok ->
      forall fuel t, (k < fuel)%nat ->
        fetch_text_at self fuel i t
        = (Returned (txt, fit_tokens self tok),
           t ++ text_reads corpus i (S k))).
Proof.
  intros Htext Hne Hentry Hrej. split.
  - intros fuel t. apply fetch_text_at_step with entry; try assumption.
    now apply rejected_iff.
  - intros k txt tok Hbad Hgood Hstar Htok fuel t Hfuel.
    apply fetch_text_at_chain; try assumption.
    + intros j e Hj He. apply rejected_iff. now apply (Hbad j).
    + exists (inr txt). split; [assumption |]. cbn. now rewrite Hstar, Htok.
Qed.

(** C5. On a non-empty text corpus: if some entry is not turned down,
    then from every index [fetch_text_at] returns after at most as many
    tries as the corpus has entries, each try reading the next wrapped
    index; if every entry is turned down, the retries never end:
    whatever the depth allowed, the call is still retrying after that
    many reads. *)
Theorem fetch_text_at_bounded_by_corpus self corpus :
  text self = Some corpus -> corpus <> [] ->
  ((exists entry, In entry corpus /\ ~ rejected self entry) ->
   forall i t,
   exists r (attempts : nat),
     (1 <= attempts <= length corpus)%nat /\
     forall fuel, (attempts <= fuel)%nat ->
       fetch_text_at self fuel i t
       = (Returned r, t ++ text_reads corpus i attempts)) /\
  ((forall entry, In entry corpus -> rejected self entry) ->
   forall i t fuel,
     fetch_text_at self fuel i t
     = (Diverged, t ++ text_reads corpus i fuel) /\
     length (text_reads corpus i fuel) = fuel).
Proof.
  intros Htext Hne. split.
  - intros (entry & Hin & Hok) i t.
    destruct (first_hit self corpus i Hne) as (k & good & r & Hk & Hgood & Hr & Hbad).
    { exists entry. split; [assumption |]. intros Hnone.
      apply Hok. now apply rejected_iff. }
    exists r, (S k). split; [lia |]. intros fuel Hfuel.
    apply fetch_text_at_chain; try assumption; try lia; eauto.
  - intros Hall i t fuel. split.
    + apply fetch_text_at_starves; try assumption.
      intros entry Hin. apply rejected_iff. now apply Hall.
    + unfold text_reads. now rewrite length_map, length_seq.
Qed.

(** C4. In full mode with three non-empty corpora, for every integer
    index [i] and every recursion depth, [__getitem__] reads the paired
    corpus at [i] modulo its length, then the text corpus at [i] modulo
    its length and, after each turned-down entry, at the next wrapped
    index, then the unpaired speech corpus at [i] modulo its length.
    Every one of these positions lies inside its corpus, the lookup ends
    with no [IndexError] and no [ZeroDivisionError], and a lookup that
    returns has made all of these reads.  On a well-formed dataset the
    lookup does return, having read all three corpora, once the depth
    allowed is large enough. *)
Theorem getitem_wraps_every_index self corpus clips i t :
  only_paired self = false ->
  text self = Some corpus -> speech self = Some clips ->
  items (speech_and_text self) <> [] -> corpus <> [] -> clips <> [] ->
  (forall fuel,
   exists (attempts : nat) reads,
     snd (__getitem__ self fuel i t) = t ++ reads /\
     reads `prefix_of` full_reads self corpus clips i attempts /\
     head reads = Some (Paired, i mod len (items (speech_and_text self))) /\
     Forall (in_range self) (full_reads self corpus clips i attempts) /\
     sound (fst (__getitem__ self fuel i t)) /\
     (forall d, fst (__getitem__ self fuel i t) = Returned d ->
                (1 <= attempts)%nat /\
                reads = full_reads self corpus clips i attempts)) /\
  (well_formed self ->
   exists fuel0, forall fuel, (fuel0 <= fuel)%nat ->
   exists (attempts : nat) d,
     (1 <= attempts)%nat /\
     __getitem__ self fuel i t
     = (Returned d, t ++ full_reads self corpus clips i attempts)).
Proof.
  intros Hmode Htext Hspeech Hp Hc Hs.
  assert (Hreads : forall fuel,
   exists (attempts : nat) reads,
     snd (__getitem__ self fuel i t) = t ++ reads /\
     reads `prefix_of` full_reads self corpus clips i attempts /\
     head reads = Some (Paired, i mod len (items (speech_and_text self))) /\
     Forall (in_range self) (full_reads self corpus clips i attempts) /\
     sound (fst (__getitem__ self fuel i t)) /\
     (forall d, fst (__getitem__ self fuel i t) = Returned d ->
                (1 <= attempts)%nat /\
                reads = full_reads self corpus clips i attempts)).
  { intros fuel.
    assert (Hrange : forall m, Forall (in_range self) (full_reads self corpus clips i m)).
    { intros m. unfold full_reads. constructor.
      - unfold in_range. cbn. apply Z.mod_pos_bound. now apply len_pos.
      - apply Forall_app. split; [now apply text_reads_in_range |].
        constructor; [| constructor]. unfold in_range. cbn.
        exists clips. split; [assumption |].
        apply Z.mod_pos_bound. now apply len_pos. }
    destruct (__getitem__ self fuel i t) as [res T] eqn:Hrun. cbn [fst snd].
    unfold __getitem__ in Hrun.
    destruct (fetch_snt_at_trace self i t Hp) as (o & Hsnt & Hsound & Hnd).
    unfold bind at 1 in Hrun. rewrite Hsnt in Hrun.
    destruct o as [snt | e |]; [| | congruence].
    2:{ inversion Hrun; subst res T.
        exists 0%nat, [(Paired, i mod len (items (speech_and_text self)))].
        split; [reflexivity |].
        split; [eexists; reflexivity |]. split; [reflexivity |].
        split; [apply Hrange |]. split; [exact Hsound | discriminate]. }
    rewrite Hmode, Htext in Hrun. cbn [attr] in Hrun.
    unfold bind at 1 in Hrun. unfold ret at 1 in Hrun.
    rewrite (py_mod_pos _ _ (len_pos _ Hc)) in Hrun. cbn [lift] in Hrun.
    unfold bind at 1 in Hrun. unfold ret at 1 in Hrun.
    destruct (fetch_text_at_trace self corpus Htext Hc fuel (i mod len corpus)
                (t ++ [(Paired, i mod len (items (speech_and_text self)))]))
      as (m & ot & Htry & Hm & Hot).
    rewrite text_reads_wrapped in Htry by assumption.
    unfold bind at 1 in Hrun. rewrite Htry in Hrun.
    destruct ot as [[txt tok] | e |]; [| contradiction |].
    2:{ inversion Hrun; subst res T.
        exists m, ((Paired, i mod len (items (speech_and_text self)))
                     :: text_reads corpus i m).
        split; [now rewrite <- app_assoc |].
        split; [exists [(Speech, i mod len clips)]; reflexivity |].
        split; [reflexivity |]. split; [apply Hrange |].
        split; [exact I | discriminate]. }
    rewrite Hspeech in Hrun. cbn [attr] in Hrun.
    unfold bind at 1 in Hrun. unfold ret at 1 in Hrun.
    rewrite (py_mod_pos _ _ (len_pos _ Hs)) in Hrun. cbn [lift] in Hrun.
    unfold bind at 1 in Hrun. unfold ret at 1 in Hrun.
    destruct (seq_getitem_wrapped clips i Hs) as (sp & Hsp & _).
    unfold bind at 1 in Hrun.
    rewrite (dataset_getitem_wrapped Speech clips i sp _ Hs Hsp) in Hrun.
    rewrite <- app_assoc in Hrun.
    exists m, (full_reads self corpus clips i m).
    assert (Hall : (t ++ [(Paired, i mod len (items (speech_and_text self)))])
                     ++ text_reads corpus i m ++ [(Speech, i mod len clips)]
                   = t ++ full_reads self corpus clips i m).
    { unfold full_reads. rewrite <- !app_assoc. reflexivity. }
    rewrite <- app_assoc in Hall. cbn [app] in Hall, Hrun.
    repeat
      (match type of Hrun with
       | context [bind (subscript ?snt ?key) ?k ?t0] =>
         let o := fresh "o" in
         let Hsub := fresh "Hsub" in
         let Hs1 := fresh "Hs" in
         let Hs2 := fresh "Hnd" in
         destruct (subscript_sound snt key t0) as (o & Hsub & Hs1 & Hs2);
         unfold bind at 1 in Hrun; rewrite Hsub in Hrun;
         destruct o; [| | congruence]
       end).
    all: unfold ret in Hrun; injection Hrun as <- <-.
    all: split; [rewrite <- Hall; rewrite <- ?app_assoc; reflexivity |].
    all: split; [reflexivity |].
    all: split; [reflexivity |].
    all: split; [apply Hrange |].
    all: split; [assumption || exact I |].
    all: intros d Hd; first [discriminate | split; [assumption | reflexivity]]. }
  split; [exact Hreads |].
  intros Hwf. destruct (getitem_returns self i Hwf) as (fuel0 & Hret).
  exists fuel0. intros fuel Hfuel.
  destruct (Hret fuel t Hfuel) as (d & t' & Hd).
  destruct (Hreads fuel) as (attempts & reads & Hsnd & _ & _ & _ & _ & Hall).
  rewrite Hd in Hsnd, Hall. cbn [fst snd] in Hsnd, Hall.
  destruct (Hall d eq_refl) as [Hone ->].
  exists attempts, d. split; [assumption |]. now rewrite Hd, Hsnd.
Qed.

(** C2. Whatever the branch, a record that [__getitem__] returns has
    exactly the ten keys [paired_audio], [paired_audio_lengths],
    [paired_text], [paired_text_tokens], [paired_file], [speech_audio],
    [speech_audio_lengths], [speech_file], [text_text] and [text_tokens];
    and on a well-formed dataset, for every index, [__getitem__] does
    return such a record once the recursion depth allowed is large
    enough. *)
Theorem getitem_has_fixed_keys self i :
  (forall fuel t d t',
      __getitem__ self fuel i t = (Returned d, t') -> dom d = record_keys) /\
  (well_formed self ->
   exists fuel0, forall fuel t, (fuel0 <= fuel)%nat ->
     exists d t',
       __getitem__ self fuel i t = (Returned d, t') /\ dom d = record_keys).
Proof.
  split; [intros fuel t d t'; apply getitem_keys |].
  intros Hwf. destruct (getitem_returns self i Hwf) as (fuel0 & Hret).
  exists fuel0. intros fuel t Hfuel.
  destruct (Hret fuel t Hfuel) as (d & t' & Hd).
  exists d, t'. split; [assumption |]. now apply getitem_keys in Hd.
Qed.

End GrandConjoinedClaims.

(** ** DownsampleDataset *)

Section DownsampleFacts.

Import Downsample.

Context {L : Libraries}.

Lemma ret_returned {S A} (a b : A) (w w' : S) :
  ret a w = (Returned b, w') -> b = a /\ w' = w.
Proof. unfold ret. intros H. inversion H. auto. Qed.

Lemma self_returned w s w' :
  self w = (Returned s, w') -> s = this w /\ w' = w.
Proof. unfold self. intros H. inversion H. auto. Qed.

Lemma as_list_returned {S A} (o : option (list A)) (w w' : S) l :
  as_list o w = (Returned l, w') -> o = Some l /\ w' = w.
Proof.
  destruct o as [l0 |]; cbn; unfold ret, raise; intros H; inversion H; auto.
Qed.

Lemma draw_returned {A} (f : rng -> A * rng) w a w' :
  draw f w = (Returned a, w') -> this w' = this w.
Proof.
  unfold draw. destruct (f (random w)) as [x r]. intros H.
  inversion H. reflexivity.
Qed.

(** Opening the lmdb handles leaves everything else of the dataset as
    it was. *)
Lemma open_handles_keeps w u w' :
  open_handles w = (Returned u, w') ->
  opt (this w') = opt (this w) /\
  data_type (this w') = data_type (this w) /\
  paths_GT (this w') = paths_GT (this w) /\
  paths_LQ (this w') = paths_LQ (this w) /\
  sizes_GT (this w') = sizes_GT (this w) /\
  sizes_LQ (this w') = sizes_LQ (this w) /\
  doCrop (this w') = doCrop (this w).
Proof.
  unfold open_handles. intros H.
  apply bind_returned in H as (s & w1 & Hs & H).
  apply self_returned in Hs as [-> ->].
  destruct ((data_type (this w) =? "lmdb")%string
            && (is_none (GT_env (this w)) || is_none (LQ_env (this w)))).
  - unfold _init_lmdb in H.
    apply bind_returned in H as (s & w1 & Hs & H).
    apply self_returned in Hs as [-> ->].
    apply bind_returned in H as (gt & w1 & Hgt & H).
    apply lift_returned in Hgt as [_ ->].
    apply bind_returned in H as (u1 & w1 & Hset & H).
    unfold set_GT_env in Hset. inversion Hset; subst u1 w1. clear Hset.
    apply bind_returned in H as (lq & w1 & Hlq & H).
    apply lift_returned in Hlq as [_ ->].
    unfold set_LQ_env in H. inversion H; subst. cbn. repeat split.
  - apply ret_returned in H as [_ ->]. repeat split.
Qed.

(** The resolution read for an lmdb entry touches no state. *)
Lemma resolution_returned (lmdb : bool) sizes index (w w' : world) r :
  (if lmdb then
     sizes <- as_list sizes ;
     size <- lift (seq_getitem sizes index) ;
     r <- lift (parse_resolution size) ;
     ret (Some r)
   else ret None) w = (Returned r, w') ->
  w' = w.
Proof.
  destruct lmdb; intros H.
  - apply bind_returned in H as (l & w1 & Hl & H).
    apply as_list_returned in Hl as [_ ->].
    apply bind_returned in H as (size & w1 & Hsize & H).
    apply lift_returned in Hsize as [_ ->].
    apply bind_returned in H as (res & w1 & Hres & H).
    apply lift_returned in Hres as [_ ->].
    now apply ret_returned in H as [_ ->].
  - now apply ret_returned in H as [_ ->].
Qed.

Lemma wrapped_path (paths : list string) index k p :
  py_mod index (len paths) = inr k -> seq_getitem paths k = inr p ->
  paths !! Z.to_nat (index mod len paths) = Some p.
Proof.
  unfold py_mod. destruct (Z.eqb_spec (len paths) 0) as [| Hn]; [discriminate |].
  intros Hk Hp. inversion Hk; subst k. now apply seq_getitem_lookup.
Qed.

(** The block [# get GT image]: the path is the one the wrapped index
    picks, the image comes from reading that path. *)
Lemma get_GT_image_returned index w p img w' :
  get_GT_image index w = (Returned (p, img), w') ->
  w' = w /\ path_at (paths_GT (this w)) index = Some p /\
  exists res raw,
    read_img (GT_env (this w)) p res = inr raw /\ np_derived raw img.
Proof.
  unfold get_GT_image. intros H.
  apply bind_returned in H as (s & w1 & Hs & H).
  apply self_returned in Hs as [-> ->].
  apply bind_returned in H as (paths & w1 & Hp & H).
  apply as_list_returned in Hp as [Hp ->].
  apply bind_returned in H as (k & w1 & Hk & H).
  apply lift_returned in Hk as [Hk ->].
  apply bind_returned in H as (path & w1 & Hpath & H).
  apply lift_returned in Hpath as [Hpath ->].
  apply bind_returned in H as (res & w1 & Hres & H).
  apply resolution_returned in Hres as ->.
  apply bind_returned in H as (raw & w1 & Hraw & H).
  apply lift_returned in Hraw as [Hraw ->].
  apply bind_returned in H as (img1 & w1 & H1 & H).
  assert (Hd1 : np_derived raw img1 /\ w1 = w).
  { destruct (negb _).
    - apply lift_returned in H1 as [H1 ->]. split; [| reflexivity].
      apply rtc_once. eapply step_modcrop. exact H1.
    - apply ret_returned in H1 as [-> ->]. split; reflexivity. }
  destruct Hd1 as [Hd1 ->].
  apply bind_returned in H as (img2 & w1 & H2 & H).
  assert (Hd2 : np_derived raw img2 /\ w1 = w).
  { destruct (o_color (opt (this w))) as [[| c cs] |].
    - apply ret_returned in H2 as [-> ->]. auto.
    - apply lift_returned in H2 as [H2 ->]. split; [| reflexivity].
      eapply rtc_r; [exact Hd1 |]. eapply step_channel_convert. exact H2.
    - apply ret_returned in H2 as [-> ->]. auto. }
  destruct Hd2 as [Hd2 ->].
  apply ret_returned in H as [Heq ->]. inversion Heq; subst p img.
  split; [reflexivity |]. split.
  - unfold path_at. rewrite Hp. eapply wrapped_path; eassumption.
  - exists res, raw. auto.
Qed.

Lemma get_LQ_image_returned index w p img w' :
  get_LQ_image index w = (Returned (p, img), w') ->
  w' = w /\ path_at (paths_LQ (this w)) index = Some p /\
  exists res, read_img (LQ_env (this w)) p res = inr img.
Proof.
  unfold get_LQ_image. intros H.
  apply bind_returned in H as (s & w1 & Hs & H).
  apply self_returned in Hs as [-> ->].
  apply bind_returned in H as (paths & w1 & Hp & H).
  apply as_list_returned in Hp as [Hp ->].
  apply bind_returned in H as (k & w1 & Hk & H).
  apply lift_returned in Hk as [Hk ->].
  apply bind_returned in H as (path & w1 & Hpath & H).
  apply lift_returned in Hpath as [Hpath ->].
  apply bind_returned in H as (res & w1 & Hres & H).
  apply resolution_returned in Hres as ->.
  apply bind_returned in H as (raw & w1 & Hraw & H).
  apply lift_returned in Hraw as [Hraw ->].
  apply ret_returned in H as [Heq ->]. inversion Heq; subst p img.
  split; [reflexivity |]. split.
  - unfold path_at. rewrite Hp. eapply wrapped_path; eassumption.
  - exists res. assumption.
Qed.

(** Cropping, resizing and augmenting keep each image on its own side. *)
Lemma train_transform_returned lq gt w lq' gt' w' :
  train_transform lq gt w = (Returned (lq', gt'), w') ->
  np_derived lq lq' /\ np_derived gt gt'.
Proof.
  unfold train_transform. intros H.
  apply bind_returned in H as (s & w1 & Hs & H).
  apply self_returned in Hs as [-> ->].
  destruct (o_phase (opt (this w)) =? "train")%string.
  2:{ apply ret_returned in H as [Heq _]. inversion Heq; subst.
      split; reflexivity. }
  destruct (shape gt) as [[Hh Ww] Cc].
  apply bind_returned in H as (u & w1 & _ & H).
  destruct (shape lq) as [[Hl Wl] Cl].
  apply bind_returned in H as (LQ_size & w2 & _ & H).
  apply bind_returned in H as ([lq1 gt1] & w3 & Hsize & H).
  assert (Hd : np_derived lq lq1 /\ np_derived gt gt1).
  { destruct (doCrop (this w)).
    - apply bind_returned in Hsize as (rnd_h & w4 & _ & Hsize).
      apply bind_returned in Hsize as (rnd_w & w5 & _ & Hsize).
      apply ret_returned in Hsize as [Heq _]. inversion Heq; subst.
      split; apply rtc_once; apply step_crop.
    - apply bind_returned in Hsize as (a & w4 & Ha & Hsize).
      apply lift_returned in Ha as [Ha _].
      apply bind_returned in Hsize as (b & w5 & Hb & Hsize).
      apply lift_returned in Hb as [Hb _].
      apply ret_returned in Hsize as [Heq _]. inversion Heq; subst.
      split; apply rtc_once; eapply step_resize; eassumption. }
  destruct Hd as [Hdl Hdg].
  apply bind_returned in H as (aug & w4 & _ & H).
  apply ret_returned in H as [Heq _]. inversion Heq; subst.
  split; (eapply rtc_r; [eassumption | apply step_augment]).
Qed.

(** *** Raw indexing of the size lists *)

Lemma seq_getitem_beyond {A} (l : list A) (i : Z) :
  len l <= i -> seq_getitem l i = inl IndexError.
Proof.
  intros Hi. pose proof (len_nonneg l). unfold seq_getitem.
  destruct (Z.ltb_spec i 0); [lia |].
  destruct (Z.ltb_spec i 0); [lia |].
  rewrite (proj2 (lookup_ge_None l (Z.to_nat i))); [reflexivity |].
  unfold len in Hi. lia.
Qed.

Lemma seq_getitem_within {A} (l : list A) (i : Z) x :
  0 <= i -> seq_getitem l i = inr x -> i < len l.
Proof.
  intros Hi Hx. destruct (Z.lt_ge_cases i (len l)) as [| Hge]; [assumption |].
  rewrite (seq_getitem_beyond l i Hge) in Hx. discriminate.
Qed.

(** Under lmdb a returning [# get GT image] block has read
    [sizes_GT[index]]. *)
Lemma get_GT_image_lmdb index w x w' :
  data_type (this w) = "lmdb" ->
  get_GT_image index w = (Returned x, w') ->
  exists sizes size,
    sizes_GT (this w) = Some sizes /\ seq_getitem sizes index = inr size.
Proof.
  intros Hlmdb H. unfold get_GT_image in H.
  apply bind_returned in H as (s & w1 & Hs & H).
  apply self_returned in Hs as [-> ->].
  apply bind_returned in H as (paths & w1 & _ & H).
  apply bind_returned in H as (k & w2 & _ & H).
  apply bind_returned in H as (path & w3 & _ & H).
  apply bind_returned in H as (res & w4 & Hres & _).
  rewrite Hlmdb in Hres. cbn [String.eqb Ascii.eqb Bool.eqb] in Hres.
  apply bind_returned in Hres as (sizes & w5 & Hsizes & Hres).
  apply as_list_returned in Hsizes as [Hsizes ->].
  apply bind_returned in Hres as (size & w5 & Hsize & _).
  apply lift_returned in Hsize as [Hsize _].
  exists sizes, size. auto.
Qed.

Lemma get_LQ_image_lmdb index w x w' :
  data_type (this w) = "lmdb" ->
  get_LQ_image index w = (Returned x, w') ->
  exists sizes size,
    sizes_LQ (this w) = Some sizes /\ seq_getitem sizes index = inr size.
Proof.
  intros Hlmdb H. unfold get_LQ_image in H.
  apply bind_returned in H as (s & w1 & Hs & H).
  apply self_returned in Hs as [-> ->].
  apply bind_returned in H as (paths & w1 & _ & H).
  apply bind_returned in H as (k & w2 & _ & H).
  apply bind_returned in H as (path & w3 & _ & H).
  apply bind_returned in H as (res & w4 & Hres & _).
  rewrite Hlmdb in Hres. cbn [String.eqb Ascii.eqb Bool.eqb] in Hres.
  apply bind_returned in Hres as (sizes & w5 & Hsizes & Hres).
  apply as_list_returned in Hsizes as [Hsizes ->].
  apply bind_returned in Hres as (size & w5 & Hsize & _).
  apply lift_returned in Hsize as [Hsize _].
  exists sizes, size. auto.
Qed.

(** Under lmdb, an index past the end of [sizes_GT] stops the
    [# get GT image] block with [IndexError], although the path lookup
    wrapped. *)
Lemma get_GT_image_beyond index w paths sizes :
  data_type (this w) = "lmdb" ->
  paths_GT (this w) = Some paths -> paths <> [] ->
  sizes_GT (this w) = Some sizes -> len sizes <= index ->
  get_GT_image index w = (Raised IndexError, w).
Proof.
  intros Hlmdb Hp Hne Hs Hi. unfold get_GT_image.
  unfold bind at 1. unfold self. rewrite Hp. cbn [as_list].
  unfold bind at 1. unfold ret at 1.
  rewrite (py_mod_pos _ _ (len_pos _ Hne)). cbn [lift].
  unfold bind at 1. unfold ret at 1.
  destruct (seq_getitem_wrapped paths index Hne) as (path & _ & Hpath).
  rewrite Hpath. cbn [lift]. unfold bind at 1. unfold ret at 1.
  rewrite Hlmdb. cbn [String.eqb Ascii.eqb Bool.eqb].
  rewrite Hs. cbn [as_list]. unfold bind at 1.
  unfold bind at 1. unfold ret at 1.
  rewrite (seq_getitem_beyond sizes index Hi). reflexivity.
Qed.

Lemma get_LQ_image_beyond index w paths sizes :
  data_type (this w) = "lmdb" ->
  paths_LQ (this w) = Some paths -> paths <> [] ->
  sizes_LQ (this w) = Some sizes -> len sizes <= index ->
  get_LQ_image index w = (Raised IndexError, w).
Proof.
  intros Hlmdb Hp Hne Hs Hi. unfold get_LQ_image.
  unfold bind at 1. unfold self. rewrite Hp. cbn [as_list].
  unfold bind at 1. unfold ret at 1.
  rewrite (py_mod_pos _ _ (len_pos _ Hne)). cbn [lift].
  unfold bind at 1. unfold ret at 1.
  destruct (seq_getitem_wrapped paths index Hne) as (path & _ & Hpath).
  rewrite Hpath. cbn [lift]. unfold bind at 1. unfold ret at 1.
  rewrite Hlmdb. cbn [String.eqb Ascii.eqb Bool.eqb].
  rewrite Hs. cbn [as_list]. unfold bind at 1.
  unfold bind at 1. unfold ret at 1.
  rewrite (seq_getitem_beyond sizes index Hi). reflexivity.
Qed.

Lemma path_at_some (paths : list string) index :
  paths <> [] -> is_Some (path_at (Some paths) index).
Proof.
  intros Hne. destruct (seq_getitem_wrapped paths index Hne) as (p & Hp & _).
  exists p. exact Hp.
Qed.

End DownsampleFacts.

(** ** Claims about DownsampleDataset *)

Section DownsampleClaims.

Import Downsample.

Context {L : Libraries}.

(** C7. Whenever [__getitem__] returns a dictionary for an index, the
    key ['LQ'] holds the tensor of the PIL image made (after the uint8
    conversion, possibly through JPEG) from an image derived from the file
    read at the wrapped index of the GT paths; the key ['GT'] holds the
    tensor of an image derived from the file read at the wrapped index of
    the LQ paths; the key ['PIX'] holds the tensor of that same HQ PIL
    image resized to its height and width divided by [scale]; and
    ['GT_path'] and ['LQ_path'] hold the two paths. *)
Theorem getitem_feeds_HQ_as_input index w d w' :
  __getitem__ index w = (Returned d, w') ->
  exists GT_path LQ_path envG envL resG resL raw_GT raw_LQ hq lq pil small
         H W C,
    path_at (paths_GT (this w)) index = Some GT_path /\
    path_at (paths_LQ (this w)) index = Some LQ_path /\
    read_img envG GT_path resG = inr raw_GT /\
    read_img envL LQ_path resL = inr raw_LQ /\
    np_derived raw_GT hq /\ shape hq = (H, W, C) /\
    pil_derived (to_uint8 hq) pil /\
    np_derived raw_LQ lq /\
    o_scale (opt (this w)) <> 0 /\
    F_resize pil (Z.quot H (o_scale (opt (this w))))
             (Z.quot W (o_scale (opt (this w)))) = inr small /\
    d !! "LQ" = Some (VTensor (to_tensor pil)) /\
    d !! "GT" = Some (VTensor (from_numpy_chw lq)) /\
    d !! "PIX" = Some (VTensor (to_tensor small)) /\
    d !! "GT_path" = Some (VPath GT_path) /\
    d !! "LQ_path" = Some (VPath LQ_path).
Proof.
  unfold __getitem__. intros H.
  apply bind_returned in H as (u & w1 & Hopen & H).
  apply open_handles_keeps in Hopen
    as (Hopt & _ & HpG & HpL & _ & _ & _).
  apply bind_returned in H as (s & w2 & Hs & H).
  apply self_returned in Hs as [-> ->].
  apply bind_returned in H as ([GT_path gt0] & w2 & HGT & H).
  apply get_GT_image_returned in HGT
    as (-> & HpathG & resG & raw_GT & HreadG & HdG).
  apply bind_returned in H as ([LQ_path lq0] & w2 & HLQ & H).
  apply get_LQ_image_returned in HLQ as (-> & HpathL & resL & HreadL).
  apply bind_returned in H as ([lq1 gt1] & w2 & Htrain & H).
  apply train_transform_returned in Htrain as [HdL1 HdG1].
  apply bind_returned in H as ([lq2 gt2] & w3 & Hcvt & H).
  assert (Hd2 : np_derived lq1 lq2 /\ np_derived gt1 gt2).
  { destruct (snd (shape gt1) =? 3).
    - apply bind_returned in Hcvt as (a & w4 & Ha & Hcvt).
      apply lift_returned in Ha as [Ha _].
      apply bind_returned in Hcvt as (b & w5 & Hb & Hcvt).
      apply lift_returned in Hb as [Hb _].
      apply ret_returned in Hcvt as [Heq _]. inversion Heq; subst.
      split; apply rtc_once; eapply step_cvtColor; eassumption.
    - apply ret_returned in Hcvt as [Heq _]. inversion Heq; subst.
      split; reflexivity. }
  destruct Hd2 as [HdL2 HdG2].
  destruct (shape gt2) as [[Hh Ww] Cc] eqn:Hshape.
  apply bind_returned in H as (pil0 & w4 & Hpil0 & H).
  apply lift_returned in Hpil0 as [Hpil0 _].
  apply bind_returned in H as (pil & w5 & Hpil & H).
  assert (Hdp : pil_derived (to_uint8 gt2) pil).
  { destruct (o_use_compression_artifacts (opt (this w1))).
    - apply bind_returned in Hpil as (qf & w6 & _ & Hpil).
      apply lift_returned in Hpil as [Hpil _].
      eapply pil_jpeg; eassumption.
    - apply ret_returned in Hpil as [-> _]. now apply pil_direct. }
  apply bind_returned in H as (h & w6 & Hh0 & H).
  apply lift_returned in Hh0 as [Hh0 _].
  apply bind_returned in H as (w_ & w7 & Hw0 & H).
  apply lift_returned in Hw0 as [Hw0 _].
  apply bind_returned in H as (small & w8 & Hsmall & H).
  apply lift_returned in Hsmall as [Hsmall _].
  apply ret_returned in H as [-> _].
  unfold py_int_truediv in Hh0, Hw0. rewrite Hopt in *.
  destruct (Z.eqb_spec (o_scale (opt (this w))) 0) as [| Hscale];
    [discriminate |].
  injection Hh0 as <-. injection Hw0 as <-.
  rewrite HpG in HpathG. rewrite HpL in HpathL.
  exists GT_path, LQ_path, (GT_env (this w1)), (LQ_env (this w1)),
    resG, resL, raw_GT, lq0, gt2, lq2, pil, small, Hh, Ww, Cc.
  split; [assumption |]. split; [assumption |].
  split; [assumption |]. split; [assumption |].
  split.
  { eapply rtc_trans; [exact HdG |].
    eapply rtc_trans; eassumption. }
  split; [assumption |]. split; [assumption |].
  split; [eapply rtc_trans; eassumption |].
  split; [assumption |]. split; [assumption |].
  repeat split.
Qed.

(** C8. When the two path listings succeed, [__init__] raises an
    [AssertionError], and builds no dataset, as soon as the GT path list
    is empty, or the LQ path list is empty, or the two lists differ in
    length while [mismatched_Data_OK] is false. *)
Theorem init_rejects_empty_or_mismatched (o : Options) pGT sGT pLQ sLQ :
  get_image_paths (o_data_type o) (o_dataroot_GT o) = inr (pGT, sGT) ->
  get_image_paths (o_data_type o) (o_dataroot_LQ o) = inr (pLQ, sLQ) ->
  pGT = Some [] \/ pLQ = Some [] \/
  (o_mismatched_Data_OK o = false /\
   exists gt lq, pGT = Some gt /\ pLQ = Some lq /\ length gt <> length lq) ->
  exists msg, __init__ o tt = (Raised (AssertionError msg), tt).
Proof.
  intros HG HL Hbad. unfold __init__.
  unfold bind at 1. rewrite HG. cbn [lift]. unfold ret at 1.
  unfold bind at 1. rewrite HL. cbn [lift]. unfold ret at 1.
  destruct pGT as [[| g gt] |].
  - eexists. reflexivity.
  - destruct pLQ as [[| l lq] |].
    + eexists. reflexivity.
    + destruct Hbad as [Hbad | [Hbad | (Hno & gt' & lq' & Hg & Hl & Hlen)]];
        try discriminate.
      inversion Hg; subst gt'. inversion Hl; subst lq'.
      unfold bind at 1. cbn [truthy py_assert]. unfold ret at 1.
      unfold bind at 1. unfold ret at 1.
      rewrite Hno. cbn [negb as_list].
      unfold bind at 1. unfold bind at 1. unfold ret at 1.
      unfold bind at 1. unfold ret at 1.
      destruct (Z.eqb_spec (len (l :: lq)) (len (g :: gt))) as [Heq | Hne].
      * exfalso. apply Hlen. unfold len in Heq. lia.
      * eexists. reflexivity.
    + eexists. reflexivity.
  - eexists. reflexivity.
Qed.

(** C10. With [data_type] ['lmdb'], non-empty path lists and size lists
    as long as their path lists: [__len__] is the larger of the two path
    list lengths, and both path lookups wrap; yet for an index that is at
    least the shorter length and below [__len__], [__getitem__] never
    returns a record, because the size list of the shorter side is indexed
    with the raw index: once the lmdb handles are open and, when the GT
    side is the longer one, its image has been loaded,
    the lookup ends in [IndexError]. *)
Theorem lmdb_sizes_are_indexed_unwrapped index w gt lq sgt slq :
  data_type (this w) = "lmdb" ->
  paths_GT (this w) = Some gt -> paths_LQ (this w) = Some lq ->
  sizes_GT (this w) = Some sgt -> sizes_LQ (this w) = Some slq ->
  gt <> [] -> lq <> [] ->
  length sgt = length gt -> length slq = length lq ->
  Z.min (len gt) (len lq) <= index < Z.max (len gt) (len lq) ->
  __len__ w = (Returned (Z.max (len gt) (len lq)), w) /\
  is_Some (path_at (paths_GT (this w)) index) /\
  is_Some (path_at (paths_LQ (this w)) index) /\
  (forall d w', __getitem__ index w <> (Returned d, w')) /\
  (forall u w1,
      open_handles w = (Returned u, w1) ->
      (index < len gt ->
       exists x w2, get_GT_image index w1 = (Returned x, w2)) ->
      __getitem__ index w = (Raised IndexError, w1)).
Proof.
  intros Hlmdb HpG HpL HsG HsL HneG HneL HlenG HlenL Hi.
  assert (Hi0 : 0 <= index) by (pose proof (len_nonneg gt);
                                pose proof (len_nonneg lq); lia).
  split.
  { unfold __len__. unfold bind at 1. unfold self. rewrite HpG, HpL.
    cbn [as_list]. unfold bind, ret. now rewrite py_max_is_max. }
  split; [rewrite HpG; now apply path_at_some |].
  split; [rewrite HpL; now apply path_at_some |].
  split.
  - intros d w' H. unfold __getitem__ in H.
    apply bind_returned in H as (u & w1 & Hopen & H).
    apply open_handles_keeps in Hopen
      as (_ & Hdt & _ & _ & HsG1 & HsL1 & _).
    apply bind_returned in H as (s & w2 & Hs & H).
    apply self_returned in Hs as [-> ->].
    apply bind_returned in H as ([GT_path gt0] & w2 & HGT & H).
    pose proof HGT as HGT'.
    apply get_GT_image_returned in HGT' as (-> & _).
    apply get_GT_image_lmdb in HGT as (sizes & size & Hsizes & Hsize);
      [| congruence].
    apply bind_returned in H as ([LQ_path lq0] & w2 & HLQ & _).
    apply get_LQ_image_lmdb in HLQ as (sizes' & size' & Hsizes' & Hsize');
      [| congruence].
    assert (sizes = sgt) by congruence. assert (sizes' = slq) by congruence.
    subst sizes sizes'.
    apply seq_getitem_within in Hsize; [| assumption].
    apply seq_getitem_within in Hsize'; [| assumption].
    unfold len in *. lia.
  - intros u w1 Hopen HGT. unfold __getitem__.
    unfold bind at 1. rewrite Hopen.
    apply open_handles_keeps in Hopen
      as (_ & Hdt & HpG1 & HpL1 & HsG1 & HsL1 & _).
    unfold bind at 1. unfold self at 1.
    destruct (Z.lt_ge_cases index (len gt)) as [Hlt | Hge].
    + destruct (HGT Hlt) as ([GT_path gt0] & w2 & Hload).
      unfold bind at 1. rewrite Hload.
      apply get_GT_image_returned in Hload as (-> & _).
      unfold bind at 1.
      rewrite (get_LQ_image_beyond index w1 lq slq); try congruence.
      unfold len in *. lia.
    + unfold bind at 1.
      rewrite (get_GT_image_beyond index w1 gt sgt); try congruence.
      unfold len in *. lia.
Qed.

End DownsampleClaims.

(** ** The statements at work on the example corpora *)

Section GrandConjoinedRuns.

Import GrandConjoined Examples.

Lemma toy_init : __init__ toy_options = inr toy_full.
Proof. reflexivity. Qed.

Lemma len_is_max_of_three_witness :
  exists clips corpus,
    speech toy_full = Some clips /\ text toy_full = Some corpus /\
    __len__ toy_full []
    = (Returned (Z.max (Z.max (len clips)
                              (len (items (speech_and_text toy_full))))
                       (len corpus)), []).
Proof.
  apply (len_is_max_of_three toy_options toy_full []); reflexivity.
Defined.

Lemma getitem_has_fixed_keys_witness :
  (exists fuel0, forall fuel t, (fuel0 <= fuel)%nat ->
     exists d t',
       __getitem__ toy_full fuel 7 t = (Returned d, t') /\
       dom d = record_keys) /\
  (exists fuel0, forall fuel t, (fuel0 <= fuel)%nat ->
     exists d t',
       __getitem__ toy_paired_only fuel 7 t = (Returned d, t') /\
       dom d = record_keys).
Proof.
  split.
  - apply (proj2 (getitem_has_fixed_keys toy_full 7)).
    split; [discriminate |]. split.
    + repeat constructor.
    + intros _. exists (toy_speech true), toy_corpus.
      split; [reflexivity |]. split; [discriminate |].
      split; [reflexivity |]. exists (inr "ok").
      split; [cbn; tauto |].
      intros Hrej. inversion Hrej; discriminate.
  - apply (proj2 (getitem_has_fixed_keys toy_paired_only 7)).
    split; [discriminate |]. split.
    + repeat constructor; eexists; reflexivity.
    + discriminate.
Defined.

Lemma fetch_text_at_retries_witness :
  fetch_text_at toy_full 4 0 []
  = (Returned ("hello world", [8; 5; 12; 12; 15]),
     [(Text, 0); (Text, 1); (Text, 2); (Text, 3)]).
Proof.
  refine (proj2 (fetch_text_at_retries_at_next_index
                   toy_full toy_corpus 0 (inr "d*mn") _ _ _ _)
                3%nat "hello world"
                [8; 5; 12; 12; 15; 27; 23; 15; 18; 12; 4] _ _ _ _ 4%nat [] _).
  - reflexivity.
  - discriminate.
  - reflexivity.
  - apply masked. reflexivity.
  - intros [| [| [| j]]] e Hj Hentry; [| | | lia];
      vm_compute in Hentry; injection Hentry as <-.
    + apply masked. reflexivity.
    + apply undecodable.
    + apply untokenizable with (KeyError "symbol"). reflexivity.
  - reflexivity.
  - reflexivity.
  - reflexivity.
  - lia.
Defined.

Lemma getitem_wraps_every_index_witness :
  (exists (attempts : nat) reads,
      snd (__getitem__ toy_full 10 7 []) = [] ++ reads /\
      reads `prefix_of` full_reads toy_full toy_corpus (toy_speech true) 7 attempts /\
      head reads = Some (Paired, 7 mod len (items (speech_and_text toy_full))) /\
      Forall (in_range toy_full)
             (full_reads toy_full toy_corpus (toy_speech true) 7 attempts) /\
      sound (fst (__getitem__ toy_full 10 7 [])) /\
      (forall d, fst (__getitem__ toy_full 10 7 []) = Returned d ->
                 (1 <= attempts)%nat /\
                 reads = full_reads toy_full toy_corpus (toy_speech true) 7 attempts)) /\
  (exists fuel0, forall fuel, (fuel0 <= fuel)%nat ->
   exists (attempts : nat) d,
     (1 <= attempts)%nat /\
     __getitem__ toy_full fuel 7 []
     = (Returned d,
        [] ++ full_reads toy_full toy_corpus (toy_speech true) 7 attempts)).
Proof.
  destruct (getitem_wraps_every_index
              toy_full toy_corpus (toy_speech true) 7 []
              eq_refl eq_refl eq_refl
              ltac:(discriminate) ltac:(discriminate) ltac:(discriminate))
    as [Hreads Hruns].
  split; [apply Hreads |]. apply Hruns.
  split; [discriminate |]. split.
  - repeat constructor.
  - intros _. exists (toy_speech true), toy_corpus.
    split; [reflexivity |]. split; [discriminate |].
    split; [reflexivity |]. exists (inr "ok").
    split; [cbn; tauto |].
    intros Hrej. inversion Hrej; discriminate.
Defined.

Lemma fetch_text_at_bounded_witness :
  (forall i t,
   exists r (attempts : nat),
     (1 <= attempts <= length toy_corpus)%nat /\
     forall fuel, (attempts <= fuel)%nat ->
       fetch_text_at toy_full fuel i t
       = (Returned r, t ++ text_reads toy_corpus i attempts)) /\
  (forall i t fuel,
     fetch_text_at hopeless fuel i t
     = (Diverged,
        t ++ text_reads [inr "d*mn"; inl (LibraryError "decode")] i fuel) /\
     length (text_reads [inr "d*mn"; inl (LibraryError "decode")] i fuel)
     = fuel).
Proof.
  split.
  - apply (proj1 (fetch_text_at_bounded_by_corpus toy_full toy_corpus
                    eq_refl ltac:(discriminate))).
    exists (inr "ok"). split; [cbn; tauto |].
    intros Hrej. inversion Hrej; discriminate.
  - apply (proj2 (fetch_text_at_bounded_by_corpus
                    hopeless [inr "d*mn"; inl (LibraryError "decode")]
                    eq_refl ltac:(discriminate))).
    intros entry [<- | [<- | []]].
    + apply masked. reflexivity.
    + apply undecodable.
Defined.

Lemma solo_speech_witness :
  exists d t',
    __getitem__ toy_full 10 3 [] = (Returned d, t') /\
    exists clips sp cut n,
      speech toy_full = Some clips /\
      clips !! Z.to_nat (3 mod len clips) = Some sp /\
      d !! "speech_audio" = Some (VWave cut) /\
      cut = map (take (Z.to_nat (max_solo_audio_length toy_full))) (clip sp) /\
      Forall (fun channel => len channel <= max_solo_audio_length toy_full) cut /\
      d !! "speech_audio_lengths" = Some (VInt n) /\
      n = Z.max 0 (Z.min (clip_lengths sp) (max_solo_audio_length toy_full)) /\
      0 <= n <= max_solo_audio_length toy_full.
Proof.
  eexists _, _. split; [vm_compute; reflexivity |].
  eapply (solo_speech_is_truncated_and_clamped toy_full 10 3 []).
  - reflexivity.
  - cbn. lia.
  - vm_compute. reflexivity.
Defined.

Lemma text_tokens_witness :
  len [15; 11; 0; 0; 0] = max_solo_text_length toy_full /\
  exists raw,
    get_text (speech_and_text toy_full) "ok" = inr raw /\
    [15; 11; 0; 0; 0]
    = take (Z.to_nat (max_solo_text_length toy_full)) raw
      ++ repeat 0 (Z.to_nat (max_solo_text_length toy_full) - length raw)%nat.
Proof.
  refine (proj1 (text_tokens_have_fixed_length toy_full _)
                10%nat 4 [] "ok" [15; 11; 0; 0; 0] [(Text, 4)] _).
  - cbn. lia.
  - reflexivity.
Defined.

End GrandConjoinedRuns.

Section DownsampleRuns.

Import Downsample Examples.

(** [__init__] on the example folders builds the example dataset. *)
Lemma toy_downsample_init :
  __init__ (toy_downsample_options "lmdb" "gt" "lq" true) tt
  = (Returned (toy_downsample "lmdb" "lq"), tt).
Proof. reflexivity. Qed.

(** On the example, the tensor under ['LQ'] was read from the GT file
    and the tensor under ['GT'] from the LQ file. *)
Example toy_roles_are_swapped :
  exists d w',
    __getitem__ 1 (toy_world "lmdb" "lq") = (Returned d, w') /\
    (exists t, d !! "LQ" = Some (VTensor t) /\ origin t = "g1") /\
    (exists t, d !! "PIX" = Some (VTensor t) /\ origin t = "g1") /\
    (exists t, d !! "GT" = Some (VTensor t) /\ origin t = "l1").
Proof.
  eexists _, _. split; [vm_compute; reflexivity |].
  repeat split; eexists; split; reflexivity.
Qed.

Lemma getitem_feeds_HQ_as_input_witness :
  exists d w',
    __getitem__ 1 (toy_world "lmdb" "lq") = (Returned d, w') /\
    exists GT_path LQ_path envG envL resG resL raw_GT raw_LQ hq lq pil small
           H W C,
      path_at (paths_GT (this (toy_world "lmdb" "lq"))) 1 = Some GT_path /\
      path_at (paths_LQ (this (toy_world "lmdb" "lq"))) 1 = Some LQ_path /\
      read_img envG GT_path resG = inr raw_GT /\
      read_img envL LQ_path resL = inr raw_LQ /\
      np_derived raw_GT hq /\ shape hq = (H, W, C) /\
      pil_derived (to_uint8 hq) pil /\
      np_derived raw_LQ lq /\
      o_scale (opt (this (toy_world "lmdb" "lq"))) <> 0 /\
      F_resize pil (Z.quot H (o_scale (opt (this (toy_world "lmdb" "lq")))))
               (Z.quot W (o_scale (opt (this (toy_world "lmdb" "lq")))))
      = inr small /\
      d !! "LQ" = Some (VTensor (to_tensor pil)) /\
      d !! "GT" = Some (VTensor (from_numpy_chw lq)) /\
      d !! "PIX" = Some (VTensor (to_tensor small)) /\
      d !! "GT_path" = Some (VPath GT_path) /\
      d !! "LQ_path" = Some (VPath LQ_path).
Proof.
  eexists _, _. split; [vm_compute; reflexivity |].
  eapply (getitem_feeds_HQ_as_input 1 (toy_world "lmdb" "lq")).
  vm_compute. reflexivity.
Defined.

Lemma init_rejects_witness :
  (exists msg,
      __init__ (toy_downsample_options "img" "nothing" "lq" true) tt
      = (Raised (AssertionError msg), tt)) /\
  (exists msg,
      __init__ (toy_downsample_options "img" "gt" "nothing" true) tt
      = (Raised (AssertionError msg), tt)) /\
  (exists msg,
      __init__ (toy_downsample_options "img" "gt" "lq" false) tt
      = (Raised (AssertionError msg), tt)).
Proof.
  split; [| split].
  - eapply (init_rejects_empty_or_mismatched
              (toy_downsample_options "img" "nothing" "lq" true));
      [reflexivity | reflexivity |].
    left. reflexivity.
  - eapply (init_rejects_empty_or_mismatched
              (toy_downsample_options "img" "gt" "nothing" true));
      [reflexivity | reflexivity |].
    right. left. reflexivity.
  - eapply (init_rejects_empty_or_mismatched
              (toy_downsample_options "img" "gt" "lq" false));
      [reflexivity | reflexivity |].
    right. right. split; [reflexivity |].
    eexists _, _. split; [reflexivity |]. split; [reflexivity |].
    cbn. lia.
Defined.

Lemma lmdb_sizes_witness :
  __len__ (toy_world "lmdb" "lq") = (Returned 3, toy_world "lmdb" "lq") /\
  is_Some (path_at (paths_GT (this (toy_world "lmdb" "lq"))) 2) /\
  is_Some (path_at (paths_LQ (this (toy_world "lmdb" "lq"))) 2) /\
  (forall d w', __getitem__ 2 (toy_world "lmdb" "lq") <> (Returned d, w')) /\
  (forall u w1,
      open_handles (toy_world "lmdb" "lq") = (Returned u, w1) ->
      (2 < 3 -> exists x w2, get_GT_image 2 w1 = (Returned x, w2)) ->
      __getitem__ 2 (toy_world "lmdb" "lq") = (Raised IndexError, w1)).
Proof.
  apply (lmdb_sizes_are_indexed_unwrapped 2 (toy_world "lmdb" "lq")
           ["g0"; "g1"; "g2"] ["l0"; "l1"]
           ["8_8_3"; "8_8_3"; "8_8_3"] ["4_4_3"; "4_4_3"]);
    first [reflexivity | discriminate | unfold len; cbn; lia].
Defined.

(** On the example the handles open, the GT image loads, and the lookup
    at index 2 does end in [IndexError]; without lmdb the same index
    wraps and the lookup returns. *)
Example toy_lookup_past_the_shorter_list :
  fst (__getitem__ 2 (toy_world "lmdb" "lq")) = Raised IndexError /\
  exists d, fst (__getitem__ 2 (toy_world "img" "lq")) = Returned d.
Proof.
  split; [vm_compute; reflexivity |].
  eexists. vm_compute. reflexivity.
Qed.

End DownsampleRuns.

(** ** Further properties of GrandConjoinedDataset *)

Section GrandConjoinedMore.

Import GrandConjoined More.

Context {amp : Type}.
Implicit Types self : GrandConjoinedDataset amp.

Lemma bind_ext_l {S A B} (m1 m2 : M S A) (k : A -> M S B) s :
  m1 s = m2 s -> bind m1 k s = bind m2 k s.
Proof. intros H. unfold bind. now rewrite H. Qed.

Lemma py_mod_periodic (i m n : Z) :
  (n | m) -> py_mod (i + m) n = py_mod i n.
Proof.
  intros [q ->]. unfold py_mod. destruct (Z.eqb_spec n 0) as [-> | Hn].
  - reflexivity.
  - now rewrite Z_mod_plus_full.
Qed.

(** A returning [fetch_snt_at] read the item at the wrapped index and
    handed back the dictionary built from it, or the item itself. *)
Lemma fetch_snt_at_returned self i t snt t' :
  fetch_snt_at self i t = (Returned snt, t') ->
  exists item,
    items (speech_and_text self) !! Z.to_nat (i mod len (items (speech_and_text self)))
    = Some item /\
    t' = t ++ [(Paired, i mod len (items (speech_and_text self)))] /\
    if collate self then
      exists tseq wav path text cond,
        item = FTuple tseq wav path text cond /\
        snt = FDict (<["real_text" := VStr text]>
                    (<["padded_text" := VTokens tseq]>
                    (<["text_lengths" := VInt (len tseq)]>
                    (<["wav" := VWave wav]>
                    (<["wav_lengths" := VInt (last_dim wav)]>
                    (<["filenames" := VStr path]> ∅))))))
    else snt = item.
Proof.
  unfold fetch_snt_at. intros H.
  apply bind_returned in H as (k & t1 & Hk & H).
  apply py_mod_returned in Hk as (Hn & -> & ->).
  apply bind_returned in H as (item & t1 & Hitem & H).
  apply dataset_getitem_returned in Hitem as [Hitem ->].
  apply seq_getitem_lookup in Hitem; [| assumption].
  exists item. split; [assumption |].
  destruct (collate self).
  - destruct item as [tseq wav p txt cond | d].
    + apply ret_returned in H as [-> ->]. split; [reflexivity |].
      exists tseq, wav, p, txt, cond. split; reflexivity.
    + destruct (decide (size d = 5%nat)); discriminate.
  - apply ret_returned in H as [-> ->]. split; reflexivity.
Qed.

(** X1. [clamp] never goes below [minimum]; with ordered bounds it lands
    between them and leaves a value already between them alone; with
    [maximum] below [minimum] it is [minimum] whatever the value. *)
Theorem clamp_lands_between x minimum maximum :
  minimum <= clamp x minimum maximum /\
  (minimum <= maximum ->
   clamp x minimum maximum <= maximum /\
   (minimum <= x <= maximum -> clamp x minimum maximum = x) /\
   (x < minimum -> clamp x minimum maximum = minimum) /\
   (maximum < x -> clamp x minimum maximum = maximum)) /\
  (maximum < minimum -> clamp x minimum maximum = minimum).
Proof. rewrite clamp_spec. repeat split; intros; lia. Qed.

(** X2. On every dataset [__init__] builds, [__len__] returns: it never
    meets an unset corpus.  The length is not negative, not below the
    length of any corpus the dataset has, and it is the length of one of
    them. *)
Theorem len_of_built_dataset (opt : Options amp) self (t : trace) :
  __init__ opt = inr self ->
  exists n,
    __len__ self t = (Returned n, t) /\ 0 <= n /\
    len (items (speech_and_text self)) <= n /\
    (forall clips, speech self = Some clips -> len clips <= n) /\
    (forall corpus, text self = Some corpus -> len corpus <= n) /\
    (n = len (items (speech_and_text self)) \/
     (exists clips, speech self = Some clips /\ n = len clips) \/
     (exists corpus, text self = Some corpus /\ n = len corpus)).
Proof.
  unfold __init__. intros Hinit.
  destruct (opt_get (opt_only_paired opt) false).
  - inversion Hinit; subst self. clear Hinit. cbn.
    exists (len (items (paired_dataset opt (opt_get (opt_needs_collate opt) false)))).
    split; [reflexivity |]. split; [apply len_nonneg |].
    split; [lia |]. split; [discriminate |]. split; [discriminate |].
    left. reflexivity.
  - destruct (unsupervised_audio opt) as [audio |]; [| discriminate].
    destruct (text_corpus opt) as [corpus |]; [| discriminate].
    cbn in Hinit. inversion Hinit; subst self. clear Hinit. cbn.
    eexists. split.
    { unfold __len__, bind, attr, ret. cbn. rewrite py_max3_is_max.
      reflexivity. }
    set (a := len (audio _)). set (b := len (items _)). set (c := len corpus).
    assert (0 <= b) by apply len_nonneg.
    split; [lia |]. split; [lia |].
    split; [intros clips Hc; inversion Hc; subst; fold a; lia |].
    split; [intros corpus' Hc; inversion Hc; subst; fold c; lia |].
    destruct (Z.max_spec (Z.max a b) c) as [[_ ->] | [_ ->]].
    + right. right. exists corpus. split; reflexivity.
    + destruct (Z.max_spec a b) as [[_ ->] | [_ ->]].
      * left. reflexivity.
      * right. left. eexists. split; reflexivity.
Qed.

(** X3. Under collation a returning [fetch_snt_at] has read a 5-tuple at
    the wrapped index and built a dictionary with exactly six keys, whose
    [text_lengths] is the number of tokens under [padded_text] and whose
    [wav_lengths] is the last dimension of the waveform under [wav]; the
    tuple's fifth component is dropped.  Without collation it hands the
    item back untouched. *)
Theorem fetch_snt_at_collates self i t snt t' :
  fetch_snt_at self i t = (Returned snt, t') ->
  exists item,
    items (speech_and_text self) !! Z.to_nat (i mod len (items (speech_and_text self)))
    = Some item /\
    (collate self = false -> snt = item) /\
    (collate self = true ->
     exists tseq wav path text cond d,
       item = FTuple tseq wav path text cond /\ snt = FDict d /\
       dom d = collated_keys /\
       d !! "padded_text" = Some (VTokens tseq) /\
       d !! "text_lengths" = Some (VInt (len tseq)) /\
       d !! "wav" = Some (VWave wav) /\
       d !! "wav_lengths" = Some (VInt (last_dim wav)) /\
       d !! "real_text" = Some (VStr text) /\
       d !! "filenames" = Some (VStr path)).
Proof.
  intros H. apply fetch_snt_at_returned in H as (item & Hitem & _ & Hsnt).
  exists item. split; [assumption |].
  destruct (collate self).
  - split; [discriminate |]. intros _.
    destruct Hsnt as (tseq & wav & p & txt & cond & -> & ->).
    eexists tseq, wav, p, txt, cond, _.
    split; [reflexivity |]. split; [reflexivity |]. split.
    { rewrite !dom_insert_L, dom_empty_L. unfold collated_keys. set_solver. }
    repeat split.
  - split; [intros _; assumption | discriminate].
Qed.

(** X4. In paired-only mode the record a lookup returns carries the
    paired sample twice: [speech_audio], [speech_audio_lengths],
    [speech_file], [text_text] and [text_tokens] hold the same values as
    [paired_audio], [paired_audio_lengths], [paired_file], [paired_text]
    and [paired_text_tokens]. *)
Theorem paired_only_record_repeats_the_pair self fuel i t d t' :
  only_paired self = true ->
  __getitem__ self fuel i t = (Returned d, t') ->
  is_Some (d !! "paired_audio") /\
  is_Some (d !! "paired_audio_lengths") /\
  is_Some (d !! "paired_file") /\
  is_Some (d !! "paired_text") /\
  is_Some (d !! "paired_text_tokens") /\
  d !! "speech_audio" = d !! "paired_audio" /\
  d !! "speech_audio_lengths" = d !! "paired_audio_lengths" /\
  d !! "speech_file" = d !! "paired_file" /\
  d !! "text_text" = d !! "paired_text" /\
  d !! "text_tokens" = d !! "paired_text_tokens".
Proof.
  intros Hmode H. unfold __getitem__ in H.
  apply bind_returned in H as (snt & t1 & _ & H). rewrite Hmode in H.
  apply bind_returned in H as (pa & t2 & Hpa & H).
  apply subscript_returned in Hpa as (-> & d0 & -> & Hpa).
  apply bind_returned in H as (pal & t3 & Hpal & H).
  apply subscript_returned in Hpal as (-> & d1 & Heq1 & Hpal).
  apply bind_returned in H as (pt & t4 & Hpt & H).
  apply subscript_returned in Hpt as (-> & d2 & Heq2 & Hpt).
  apply bind_returned in H as (ptt & t5 & Hptt & H).
  apply subscript_returned in Hptt as (-> & d3 & Heq3 & Hptt).
  apply bind_returned in H as (pf & t6 & Hpf & H).
  apply subscript_returned in Hpf as (-> & d4 & Heq4 & Hpf).
  apply bind_returned in H as (sa & t7 & Hsa & H).
  apply subscript_returned in Hsa as (-> & d5 & Heq5 & Hsa).
  apply bind_returned in H as (sal & t8 & Hsal & H).
  apply subscript_returned in Hsal as (-> & d6 & Heq6 & Hsal).
  apply bind_returned in H as (sf & t9 & Hsf & H).
  apply subscript_returned in Hsf as (-> & d7 & Heq7 & Hsf).
  apply bind_returned in H as (tt & t10 & Htt & H).
  apply subscript_returned in Htt as (-> & d8 & Heq8 & Htt).
  apply bind_returned in H as (tk & t11 & Htk & H).
  apply subscript_returned in Htk as (-> & d9 & Heq9 & Htk).
  injection Heq1 as <-. injection Heq2 as <-. injection Heq3 as <-.
  injection Heq4 as <-. injection Heq5 as <-. injection Heq6 as <-.
  injection Heq7 as <-. injection Heq8 as <-. injection Heq9 as <-.
  apply ret_returned in H as [-> _].
  assert (sa = pa) by congruence. assert (sal = pal) by congruence.
  assert (sf = pf) by congruence. assert (tt = pt) by congruence.
  assert (tk = ptt) by congruence. subst.
  repeat split; eexists; reflexivity.
Qed.

(** X5. In paired-only mode, on a non-empty paired corpus, a lookup
    reads the paired corpus once, at the index modulo its length, and
    nothing else; it does not retry, so it ends whatever the recursion
    depth allowed, with the same outcome. *)
Theorem paired_only_reads_one_item self i t :
  only_paired self = true ->
  items (speech_and_text self) <> [] ->
  forall fuel,
    snd (__getitem__ self fuel i t)
    = t ++ [(Paired, i mod len (items (speech_and_text self)))] /\
    fst (__getitem__ self fuel i t) <> Diverged /\
    __getitem__ self fuel i t = __getitem__ self 0 i t.
Proof.
  intros Hmode Hp fuel.
  split; [now apply getitem_paired_only_reads |].
  assert (Hsame : forall f, __getitem__ self f i t = __getitem__ self 0 i t).
  { intros f. unfold __getitem__. rewrite Hmode. reflexivity. }
  split; [| apply Hsame].
  rewrite Hsame. unfold __getitem__.
  destruct (fetch_snt_at_trace self i t Hp) as (o & Hsnt & _ & Hnd).
  unfold bind at 1. rewrite Hsnt.
  destruct o as [snt | e |]; [| discriminate | congruence].
  rewrite Hmode.
  repeat
    (match goal with
     | |- context [bind (subscript ?snt ?key) ?k ?t0] =>
       let o := fresh "o" in
       let Hsub := fresh "Hsub" in
       let Hs1 := fresh "Hs" in
       let Hs2 := fresh "Hnd" in
       destruct (subscript_sound snt key t0) as (o & Hsub & Hs1 & Hs2);
       unfold bind at 1; rewrite Hsub;
       destruct o; [| discriminate | congruence]
     end).
  discriminate.
Qed.

Lemma bind_ext_on {S A B} (m : M S A) (k1 k2 : A -> M S B) s :
  (forall a s', m s = (Returned a, s') -> k1 a s' = k2 a s') ->
  bind m k1 s = bind m k2 s.
Proof.
  intros H. unfold bind. destruct (m s) as [[a | e |] s']; auto.
Qed.

Lemma fetch_snt_at_periodic self i m :
  (len (items (speech_and_text self)) | m) ->
  fetch_snt_at self (i + m) = fetch_snt_at self i.
Proof.
  intros Hp. unfold fetch_snt_at. now rewrite (py_mod_periodic i m _ Hp).
Qed.

(** X6. A lookup only sees its index modulo the corpus lengths: shifting
    the index by a common multiple of the lengths of the corpora the
    dataset has changes neither the record nor the reads, and this holds
    for negative indices and shifts as well. *)
Theorem getitem_is_periodic self fuel i m t :
  (len (items (speech_and_text self)) | m) ->
  (forall corpus, text self = Some corpus -> (len corpus | m)) ->
  (forall clips, speech self = Some clips -> (len clips | m)) ->
  __getitem__ self fuel (i + m) t = __getitem__ self fuel i t.
Proof.
  intros Hp Ht Hs. unfold __getitem__.
  rewrite (fetch_snt_at_periodic self i m Hp).
  apply bind_ext_on. intros snt t1 _.
  destruct (only_paired self); [reflexivity |].
  destruct (text self) as [corpus |] eqn:Htext; [| reflexivity].
  cbn [attr]. apply bind_ext_on. intros c t2 Hc.
  apply ret_returned in Hc as [-> ->].
  rewrite (py_mod_periodic i m _ (Ht corpus eq_refl)).
  apply bind_ext_on. intros k t3 _.
  apply bind_ext_on. intros [txt tok] t4 _.
  destruct (speech self) as [clips |] eqn:Hspeech; [| reflexivity].
  cbn [attr]. apply bind_ext_on. intros c t5 Hc.
  apply ret_returned in Hc as [-> ->].
  now rewrite (py_mod_periodic i m _ (Hs clips eq_refl)).
Qed.

(** X7. [fetch_text_at] lets an exception out in two situations only:
    when the text corpus is unset (paired-only datasets), an
    [AttributeError], and when it is empty, a [ZeroDivisionError]; both
    come from its handler, before any read.  On a non-empty corpus it
    either returns or uses up the recursion depth it is allowed; no other
    exception leaves it. *)
Theorem fetch_text_at_raises_only_without_corpus self i t :
  (forall fuel e t',
      fetch_text_at self fuel i t = (Raised e, t') ->
      t' = t /\
      ((text self = None /\ e = AttributeError "text") \/
       (text self = Some [] /\ e = ZeroDivisionError))) /\
  (text self = None ->
   forall fuel,
     fetch_text_at self (S fuel) i t = (Raised (AttributeError "text"), t)) /\
  (text self = Some [] ->
   forall fuel,
     fetch_text_at self (S fuel) i t = (Raised ZeroDivisionError, t)).
Proof.
  assert (Hnone : text self = None -> forall fuel,
            fetch_text_at self (S fuel) i t = (Raised (AttributeError "text"), t)).
  { intros Htext fuel. cbn [fetch_text_at]. unfold try_except, fetch_text_try.
    rewrite Htext. reflexivity. }
  assert (Hempty : text self = Some [] -> forall fuel,
            fetch_text_at self (S fuel) i t = (Raised ZeroDivisionError, t)).
  { intros Htext fuel. cbn [fetch_text_at]. unfold try_except, fetch_text_try.
    rewrite Htext. reflexivity. }
  split; [| split; assumption].
  intros fuel e t' H.
  destruct fuel as [| fuel]; [discriminate |].
  destruct (text self) as [[| entry corpus] |] eqn:Htext.
  - rewrite (Hempty eq_refl) in H. injection H as <- <-. auto.
  - destruct (fetch_text_at_trace self (entry :: corpus) Htext
                ltac:(discriminate) (S fuel) i t) as (m & o & Hrun & _ & Ho).
    rewrite Hrun in H. injection H as -> _. contradiction.
  - rewrite (Hnone eq_refl) in H. injection H as <- <-. auto.
Qed.

(** X8. On an empty paired corpus every lookup, in either mode, raises
    [ZeroDivisionError] before it reads anything. *)
Theorem empty_paired_corpus_raises self fuel i t :
  items (speech_and_text self) = [] ->
  __getitem__ self fuel i t = (Raised ZeroDivisionError, t).
Proof.
  intros Hp. unfold __getitem__, fetch_snt_at. rewrite Hp. reflexivity.
Qed.

(** X9. In full mode an empty text corpus makes every lookup fail, also
    below [__len__], which still counts the other corpora: the lookup never
    returns, and once the paired item is fetched it raises
    [ZeroDivisionError] without reading the text or the speech corpus. *)
Theorem empty_text_corpus_raises self clips fuel i t :
  only_paired self = false ->
  text self = Some [] -> speech self = Some clips ->
  __len__ self t
  = (Returned (Z.max (len clips) (len (items (speech_and_text self)))), t) /\
  (forall d t', __getitem__ self fuel i t <> (Returned d, t')) /\
  (forall snt t1,
      fetch_snt_at self i t = (Returned snt, t1) ->
      __getitem__ self fuel i t = (Raised ZeroDivisionError, t1)).
Proof.
  intros Hmode Htext Hspeech. split.
  { unfold __len__. rewrite Hmode, Hspeech, Htext. cbn [attr].
    unfold bind, ret. rewrite py_max3_is_max. do 2 f_equal.
    pose proof (len_nonneg clips).
    pose proof (len_nonneg (items (speech_and_text self))).
    change (len (@nil (fallible string))) with 0. lia. }
  split.
  - intros d t' H. unfold __getitem__ in H.
    apply bind_returned in H as (snt & t1 & _ & H).
    rewrite Hmode, Htext in H. discriminate.
  - intros snt t1 Hsnt. unfold __getitem__. unfold bind at 1.
    rewrite Hsnt, Hmode, Htext. reflexivity.
Qed.

(** X10. The text [fetch_text_at] returns is an entry of the text corpus
    that holds no ['*'], and its tokens are the fitted tokenization of
    that very text; so the [text_text] field of a full-mode record never
    holds a masked text. *)
Theorem returned_text_is_never_masked self :
  (forall fuel i t txt tok t',
      fetch_text_at self fuel i t = (Returned (txt, tok), t') ->
      contains_char "*"%char txt = false /\
      (exists corpus, text self = Some corpus /\ In (inr txt) corpus) /\
      exists raw, get_text (speech_and_text self) txt = inr raw /\
                  tok = fit_tokens self raw) /\
  (forall fuel i t d t',
      only_paired self = false ->
      __getitem__ self fuel i t = (Returned d, t') ->
      exists txt, d !! "text_text" = Some (VStr txt) /\
                  contains_char "*"%char txt = false).
Proof.
  split.
  - intros fuel i t txt tok t' H.
    apply fetch_text_at_returned in H as (corpus & entry & Htext & Hin & Hr).
    apply sample_of_some in Hr as (-> & Hstar & Hraw).
    split; [assumption |]. split; [eauto | assumption].
  - intros fuel i t d t' Hmode H.
    destruct (getitem_full_returned self fuel i t d t' Hmode H)
      as (corpus & clips & sp & txt & tok & pa & pal & pt & ptt & pf &
          _ & _ & _ & _ & (entry & _ & Hr) & ->).
    apply sample_of_some in Hr as (_ & Hstar & _).
    exists txt. split; [reflexivity | assumption].
Qed.

(** X11. With a negative [max_solo_text_length] the tokens are never
    padded: [fetch_text_at] returns the tokenization without its last
    [-max_solo_text_length] tokens, none at all when it is that short. *)
Theorem negative_text_limit_cuts_the_end self fuel i t txt tok t' :
  max_solo_text_length self < 0 ->
  fetch_text_at self fuel i t = (Returned (txt, tok), t') ->
  exists raw,
    get_text (speech_and_text self) txt = inr raw /\
    tok = take (length raw - Z.to_nat (- max_solo_text_length self)) raw /\
    len tok = Z.max 0 (len raw + max_solo_text_length self).
Proof.
  intros HL H.
  apply fetch_text_at_returned in H as (corpus & entry & _ & _ & Hr).
  apply sample_of_some in Hr as (_ & _ & raw & Hraw & ->).
  exists raw. split; [assumption |].
  unfold fit_tokens, slice_to, len.
  destruct (Z.ltb_spec (max_solo_text_length self - Z.of_nat (length raw)) 0);
    [| lia].
  destruct (Z.ltb_spec (max_solo_text_length self) 0); [| lia].
  replace (Z.to_nat (Z.of_nat (length raw) + max_solo_text_length self))
    with (length raw - Z.to_nat (- max_solo_text_length self))%nat by lia.
  split; [reflexivity |]. rewrite length_take. lia.
Qed.

(** X12. With a negative [max_solo_audio_length] a full-mode record has
    [speech_audio_lengths] 0 and a [speech_audio] whose channels lost their
    last [-max_solo_audio_length] samples. *)
Theorem negative_audio_limit_cuts_the_end self fuel i t d t' :
  only_paired self = false ->
  max_solo_audio_length self < 0 ->
  __getitem__ self fuel i t = (Returned d, t') ->
  exists clips sp,
    speech self = Some clips /\
    clips !! Z.to_nat (i mod len clips) = Some sp /\
    d !! "speech_audio_lengths" = Some (VInt 0) /\
    d !! "speech_audio"
    = Some (VWave (map (fun channel =>
                          take (length channel
                                - Z.to_nat (- max_solo_audio_length self))
                               channel)
                       (clip sp))).
Proof.
  intros Hmode HM H.
  destruct (getitem_full_returned self fuel i t d t' Hmode H)
    as (corpus & clips & sp & txt & tok & pa & pal & pt & ptt & pf &
        _ & Hs & _ & Hsp & _ & ->).
  exists clips, sp. split; [assumption |]. split; [assumption |]. split.
  - replace (VInt 0) with
      (@VInt amp (clamp (clip_lengths sp) 0 (max_solo_audio_length self)));
      [reflexivity |].
    f_equal. rewrite clamp_spec. lia.
  - replace (map _ (clip sp))
      with (crop_last_dim (clip sp) (max_solo_audio_length self));
      [reflexivity |].
    unfold crop_last_dim, slice_to. apply map_ext. intros channel.
    destruct (Z.ltb_spec (max_solo_audio_length self) 0); [| lia].
    f_equal. unfold len. lia.
Qed.

(** X13. Truncation and clamping agree: in full mode with a non-negative
    [max_solo_audio_length], if every channel of the unpaired clip has
    [clip_lengths] samples, then every channel of the returned
    [speech_audio] has [speech_audio_lengths] samples. *)
Theorem solo_length_matches_solo_audio self fuel i t d t' :
  only_paired self = false ->
  0 <= max_solo_audio_length self ->
  __getitem__ self fuel i t = (Returned d, t') ->
  exists clips sp cut n,
    speech self = Some clips /\
    clips !! Z.to_nat (i mod len clips) = Some sp /\
    d !! "speech_audio" = Some (VWave cut) /\
    d !! "speech_audio_lengths" = Some (VInt n) /\
    (Forall (fun channel => len channel = clip_lengths sp) (clip sp) ->
     Forall (fun channel => len channel = n) cut).
Proof.
  intros Hmode HM H.
  destruct (getitem_full_returned self fuel i t d t' Hmode H)
    as (corpus & clips & sp & txt & tok & pa & pal & pt & ptt & pf &
        _ & Hs & _ & Hsp & _ & ->).
  exists clips, sp,
    (crop_last_dim (clip sp) (max_solo_audio_length self)),
    (clamp (clip_lengths sp) 0 (max_solo_audio_length self)).
  split; [assumption |]. split; [assumption |].
  split; [reflexivity |]. split; [reflexivity |].
  intros Hall. unfold crop_last_dim. apply Forall_map.
  eapply Forall_impl; [exact Hall |]. intros channel Hch. cbv beta in *.
  rewrite slice_to_length by assumption. rewrite clamp_spec.
  pose proof (len_nonneg channel). rewrite <- Hch. unfold len in *. lia.
Qed.

(** The five paired fields of a returned record are what the fetched
    paired dictionary holds under the five keys [__getitem__] reads. *)
Lemma getitem_paired_fields self fuel i t d t' :
  __getitem__ self fuel i t = (Returned d, t') ->
  exists t1 dd,
    fetch_snt_at self i t = (Returned (FDict dd), t1) /\
    d !! "paired_audio" = dd !! "wav" /\
    d !! "paired_audio_lengths" = dd !! "wav_lengths" /\
    d !! "paired_text" = dd !! "real_text" /\
    d !! "paired_text_tokens" = dd !! "padded_text" /\
    d !! "paired_file" = dd !! "filenames".
Proof.
  intros H. unfold __getitem__ in H.
  apply bind_returned in H as (snt & t1 & Hsnt & H).
  exists t1.
  assert (Hfive : forall (t2 : trace) (k : pyval amp -> pyval amp -> pyval amp ->
                                  pyval amp -> pyval amp -> M trace (gmap string (pyval amp))),
    (pa <- subscript snt "wav" ;
     pal <- subscript snt "wav_lengths" ;
     pt <- subscript snt "real_text" ;
     ptt <- subscript snt "padded_text" ;
     pf <- subscript snt "filenames" ;
     k pa pal pt ptt pf) t2 = (Returned d, t') ->
    exists dd pa pal pt ptt pf,
      snt = FDict dd /\ dd !! "wav" = Some pa /\
      dd !! "wav_lengths" = Some pal /\ dd !! "real_text" = Some pt /\
      dd !! "padded_text" = Some ptt /\ dd !! "filenames" = Some pf /\
      k pa pal pt ptt pf t2 = (Returned d, t')).
  { intros t2 k Hk.
    apply bind_returned in Hk as (pa & t3 & Hpa & Hk).
    apply subscript_returned in Hpa as (-> & dd & -> & Hpa).
    apply bind_returned in Hk as (pal & t3 & Hpal & Hk).
    apply subscript_returned in Hpal as (-> & d1 & Heq1 & Hpal).
    apply bind_returned in Hk as (pt & t3 & Hpt & Hk).
    apply subscript_returned in Hpt as (-> & d2 & Heq2 & Hpt).
    apply bind_returned in Hk as (ptt & t3 & Hptt & Hk).
    apply subscript_returned in Hptt as (-> & d3 & Heq3 & Hptt).
    apply bind_returned in Hk as (pf & t3 & Hpf & Hk).
    apply subscript_returned in Hpf as (-> & d4 & Heq4 & Hpf).
    injection Heq1 as <-. injection Heq2 as <-.
    injection Heq3 as <-. injection Heq4 as <-.
    exists dd, pa, pal, pt, ptt, pf. repeat (split; [first [reflexivity | assumption] |]).
    assumption. }
  destruct (only_paired self).
  - apply Hfive in H
      as (dd & pa & pal & pt & ptt & pf & -> & Hpa & Hpal & Hpt & Hptt & Hpf & H).
    apply bind_returned in H as (sa & t3 & _ & H).
    apply bind_returned in H as (sal & t4 & _ & H).
    apply bind_returned in H as (sf & t5 & _ & H).
    apply bind_returned in H as (tt & t6 & _ & H).
    apply bind_returned in H as (tk & t7 & _ & H).
    apply ret_returned in H as [-> _].
    exists dd. split; [assumption |].
    rewrite Hpa, Hpal, Hpt, Hptt, Hpf. repeat split.
  - apply bind_returned in H as (corpus & t2 & _ & H).
    apply bind_returned in H as (k & t3 & _ & H).
    apply bind_returned in H as ([txt tok] & t4 & _ & H).
    apply bind_returned in H as (clips & t5 & _ & H).
    apply bind_returned in H as (ks & t6 & _ & H).
    apply bind_returned in H as (sp & t7 & _ & H).
    apply Hfive in H
      as (dd & pa & pal & pt & ptt & pf & -> & Hpa & Hpal & Hpt & Hptt & Hpf & H).
    apply ret_returned in H as [-> _].
    exists dd. split; [assumption |].
    rewrite Hpa, Hpal, Hpt, Hptt, Hpf. repeat split.
Qed.

(** X14. The paired fields of a returned record are those of the paired
    item at the index modulo the paired corpus length.  Under collation
    they are the components of its 5-tuple, [paired_audio_lengths] being
    the last dimension of the waveform; without collation they are what
    the item's dictionary holds under [wav], [wav_lengths], [real_text],
    [padded_text] and [filenames]. *)
Theorem paired_fields_come_from_the_wrapped_item self fuel i t d t' :
  __getitem__ self fuel i t = (Returned d, t') ->
  exists item,
    items (speech_and_text self)
      !! Z.to_nat (i mod len (items (speech_and_text self))) = Some item /\
    (collate self = true ->
     exists tseq wav path text cond,
       item = FTuple tseq wav path text cond /\
       d !! "paired_audio" = Some (VWave wav) /\
       d !! "paired_audio_lengths" = Some (VInt (last_dim wav)) /\
       d !! "paired_text" = Some (VStr text) /\
       d !! "paired_text_tokens" = Some (VTokens tseq) /\
       d !! "paired_file" = Some (VStr path)) /\
    (collate self = false ->
     exists d0,
       item = FDict d0 /\
       d !! "paired_audio" = d0 !! "wav" /\
       d !! "paired_audio_lengths" = d0 !! "wav_lengths" /\
       d !! "paired_text" = d0 !! "real_text" /\
       d !! "paired_text_tokens" = d0 !! "padded_text" /\
       d !! "paired_file" = d0 !! "filenames").
Proof.
  intros H.
  apply getitem_paired_fields in H
    as (t1 & dd & Hsnt & Hpa & Hpal & Hpt & Hptt & Hpf).
  apply fetch_snt_at_returned in Hsnt as (item & Hitem & _ & Hshape).
  exists item. split; [assumption |].
  destruct (collate self).
  - split; [| discriminate]. intros _.
    destruct Hshape as (tseq & wav & p & txt & cond & -> & Hdd).
    injection Hdd as ->.
    exists tseq, wav, p, txt, cond. split; [reflexivity |].
    rewrite Hpa, Hpal, Hpt, Hptt, Hpf. repeat split.
  - split; [discriminate |]. intros _. subst item.
    exists dd. repeat split; assumption.
Qed.

(** The reads of a returning full-mode lookup begin at the paired corpus
    and end at the speech corpus, both at the wrapped index. *)
Lemma getitem_full_reads self fuel i t d t' :
  only_paired self = false ->
  __getitem__ self fuel i t = (Returned d, t') ->
  exists clips mid,
    speech self = Some clips /\
    t' = t ++ (Paired, i mod len (items (speech_and_text self)))
           :: mid ++ [(Speech, i mod len clips)].
Proof.
  intros Hmode H. unfold __getitem__ in H.
  apply bind_returned in H as (snt & t1 & Hsnt & H).
  apply fetch_snt_at_returned in Hsnt as (_ & _ & -> & _).
  rewrite Hmode in H.
  apply bind_returned in H as (corpus & t2 & Hc & H).
  apply attr_returned in Hc as [Hc ->].
  apply bind_returned in H as (k & t2 & Hk & H).
  apply py_mod_returned in Hk as (Hn & -> & ->).
  apply bind_returned in H as ([txt tok] & t2 & Hfetch & H).
  assert (Hne : corpus <> []).
  { intros ->. apply Hn. reflexivity. }
  destruct (fetch_text_at_trace self corpus Hc Hne fuel (i mod len corpus)
              (t ++ [(Paired, i mod len (items (speech_and_text self)))]))
    as (m & o & Hrun & _ & _).
  rewrite Hrun in Hfetch. injection Hfetch as -> <-.
  apply bind_returned in H as (clips & t3 & Hs & H).
  apply attr_returned in Hs as [Hs ->].
  apply bind_returned in H as (ks & t3 & Hks & H).
  apply py_mod_returned in Hks as (Hns & -> & ->).
  apply bind_returned in H as (sp & t3 & Hsp & H).
  apply dataset_getitem_returned in Hsp as [_ ->].
  apply bind_returned in H as (pa & t4 & Hpa & H).
  apply subscript_returned in Hpa as (-> & _).
  apply bind_returned in H as (pal & t4 & Hpal & H).
  apply subscript_returned in Hpal as (-> & _).
  apply bind_returned in H as (pt & t4 & Hpt & H).
  apply subscript_returned in Hpt as (-> & _).
  apply bind_returned in H as (ptt & t4 & Hptt & H).
  apply subscript_returned in Hptt as (-> & _).
  apply bind_returned in H as (pf & t4 & Hpf & H).
  apply subscript_returned in Hpf as (-> & _).
  apply ret_returned in H as [_ ->].
  exists clips, (text_reads corpus (i mod len corpus) m).
  split; [assumption |]. now rewrite <- !app_assoc.
Qed.

(** X15. No item is skipped: on a well-formed full-mode dataset, the
    lookup at the position of any unpaired speech item returns a record
    made from that item, having read the speech corpus at that position;
    and the lookup at the position of any paired item returns, having
    read the paired corpus at that position. *)
Theorem every_item_is_visited self clips :
  well_formed self -> only_paired self = false ->
  speech self = Some clips ->
  (forall (p : nat) sp,
      clips !! p = Some sp ->
      exists fuel d t',
        __getitem__ self fuel (Z.of_nat p) [] = (Returned d, t') /\
        In (Speech, Z.of_nat p) t' /\
        d !! "speech_file" = Some (VStr (path sp))) /\
  (forall (p : nat) item,
      items (speech_and_text self) !! p = Some item ->
      exists fuel d t',
        __getitem__ self fuel (Z.of_nat p) [] = (Returned d, t') /\
        In (Paired, Z.of_nat p) t').
Proof.
  intros Hwf Hmode Hspeech. split.
  - intros p sp Hp.
    destruct (getitem_returns self (Z.of_nat p) Hwf) as (fuel & Hret).
    destruct (Hret fuel [] ltac:(lia)) as (d & t' & Hd).
    exists fuel, d, t'. split; [assumption |].
    pose proof (lookup_lt_Some _ _ _ Hp) as Hlt.
    assert (Hsmall : Z.of_nat p mod len clips = Z.of_nat p)
      by (apply Z.mod_small; unfold len; lia).
    split.
    + destruct (getitem_full_reads self fuel _ [] d t' Hmode Hd)
        as (clips' & mid & Hs' & ->).
      assert (clips' = clips) by congruence. subst clips'.
      rewrite Hsmall. cbn [app]. right. apply in_or_app. right. left.
      reflexivity.
    + destruct (getitem_full_returned self fuel _ [] d t' Hmode Hd)
        as (corpus & clips' & sp' & txt & tok & pa & pal & pt & ptt & pf &
            _ & Hs' & _ & Hsp' & _ & ->).
      assert (clips' = clips) by congruence. subst clips'.
      rewrite Hsmall, Nat2Z.id in Hsp'.
      assert (sp' = sp) by congruence. subst sp'. reflexivity.
  - intros p item Hp.
    destruct (getitem_returns self (Z.of_nat p) Hwf) as (fuel & Hret).
    destruct (Hret fuel [] ltac:(lia)) as (d & t' & Hd).
    exists fuel, d, t'. split; [assumption |].
    pose proof (lookup_lt_Some _ _ _ Hp) as Hlt.
    destruct (getitem_full_reads self fuel _ [] d t' Hmode Hd)
      as (clips' & mid & _ & ->).
    rewrite Z.mod_small by (unfold len; lia). left. reflexivity.
Qed.

End GrandConjoinedMore.

(** ** The option dictionaries of GrandConjoinedDataset.__init__ *)

Section ArgumentsFacts.

Import Arguments.

Variable opt_get : gmap string argval -> list string -> argval -> argval.
Variable create_hparams : gmap string argval.

Lemma item_returned (d : gmap string argval) key v :
  item d key = inr v -> d !! key = Some v.
Proof. unfold item. destruct (d !! key); intros H; inversion H; auto. Qed.

Lemma as_dict_returned v d : as_dict v = inr d -> v = ADict d.
Proof. destruct v; cbn; intros H; inversion H; auto. Qed.

(** What a successful [init_arguments] has read and built. *)
Lemma init_arguments_returned opt p :
  init_arguments opt_get create_hparams opt = inr p ->
  exists user ma mt msa mst,
    opt !! "paired_dataset_args" = Some (ADict user) /\
    opt !! "max_paired_audio_length" = Some ma /\
    opt !! "max_paired_text_length" = Some mt /\
    opt !! "max_solo_audio_length" = Some msa /\
    opt !! "max_solo_text_length" = Some mst /\
    p_only_paired p = opt_get opt ["only_paired"] (ABool false) /\
    p_collate p = opt_get opt ["needs_collate"] (ABool false) /\
    dataset_opt p
    = build_paired_voice_dataset create_hparams
        (set_paired_arguments (p_collate p) ma mt user) /\
    if truth (p_only_paired p) then
      audio_args p = None /\ text_args p = None
    else
      exists audio corpus,
        opt !! "unsupervised_audio_args" = Some (ADict audio) /\
        opt !! "text_corpus_args" = Some (ADict corpus) /\
        audio_args p = Some (set_audio_arguments (p_collate p) msa audio) /\
        text_args p = Some corpus.
Proof.
  unfold init_arguments. intros H.
  destruct (item opt "paired_dataset_args") as [e | pv] eqn:Hpv; [discriminate |].
  apply item_returned in Hpv.
  set (only := opt_get opt ["only_paired"] (ABool false)) in *.
  destruct (truth only) eqn:Honly; cbn [negb] in H.
  - destruct (item opt "max_paired_audio_length") as [e | ma] eqn:Hma; [discriminate |].
    destruct (item opt "max_paired_text_length") as [e | mt] eqn:Hmt; [discriminate |].
    destruct (item opt "max_solo_audio_length") as [e | msa] eqn:Hmsa; [discriminate |].
    destruct (item opt "max_solo_text_length") as [e | mst] eqn:Hmst; [discriminate |].
    apply item_returned in Hma, Hmt, Hmsa, Hmst.
    destruct (as_dict pv) as [e | user] eqn:Huser; [discriminate |].
    apply as_dict_returned in Huser as ->.
    inversion H; subst p. clear H. cbn.
    exists user, ma, mt, msa, mst. fold only. rewrite Honly.
    repeat split; assumption.
  - destruct (item opt "unsupervised_audio_args") as [e | av] eqn:Hav; [discriminate |].
    destruct (item opt "text_corpus_args") as [e | cv] eqn:Hcv; [discriminate |].
    apply item_returned in Hav, Hcv.
    destruct (item opt "max_paired_audio_length") as [e | ma] eqn:Hma; [discriminate |].
    destruct (item opt "max_paired_text_length") as [e | mt] eqn:Hmt; [discriminate |].
    destruct (item opt "max_solo_audio_length") as [e | msa] eqn:Hmsa; [discriminate |].
    destruct (item opt "max_solo_text_length") as [e | mst] eqn:Hmst; [discriminate |].
    apply item_returned in Hma, Hmt, Hmsa, Hmst.
    destruct (as_dict pv) as [e | user] eqn:Huser; [discriminate |].
    apply as_dict_returned in Huser as ->.
    destruct (as_dict av) as [e | audio] eqn:Haudio; [discriminate |].
    apply as_dict_returned in Haudio as ->.
    destruct (as_dict cv) as [e | corpus] eqn:Hcorpus; [discriminate |].
    apply as_dict_returned in Hcorpus as ->.
    inversion H; subst p. clear H. cbn.
    exists user, ma, mt, msa, mst. fold only. rewrite Honly.
    repeat (split; [first [assumption | reflexivity] |]).
    exists audio, corpus. repeat split; assumption.
Qed.

(** X16. Whatever the caller put in [paired_dataset_args] and whatever
    the default hyper-parameters say, the paired dataset is built with
    [sample_rate] 22050, [load_conditioning] False, [needs_collate] as the
    conjoined dataset's own, and [max_wav_length] and [max_text_length] as
    its [max_paired_audio_length] and [max_paired_text_length]. *)
Theorem paired_arguments_are_forced opt p :
  init_arguments opt_get create_hparams opt = inr p ->
  dataset_opt p !! "sample_rate" = Some (AInt 22050) /\
  dataset_opt p !! "load_conditioning" = Some (ABool false) /\
  dataset_opt p !! "needs_collate"
  = Some (opt_get opt ["needs_collate"] (ABool false)) /\
  dataset_opt p !! "max_wav_length" = opt !! "max_paired_audio_length" /\
  dataset_opt p !! "max_text_length" = opt !! "max_paired_text_length".
Proof.
  intros H. apply init_arguments_returned in H
    as (user & ma & mt & msa & mst & _ & Hma & Hmt & _ & _ & _ & Hc & -> & _).
  rewrite Hma, Hmt, <- Hc.
  unfold build_paired_voice_dataset, set_paired_arguments.
  repeat split; apply lookup_union_Some_l; now simplify_map_eq.
Qed.

(** X17. For every other key, the paired dataset gets the caller's value
    when [paired_dataset_args] has the key and the default
    hyper-parameter otherwise. *)
Theorem paired_arguments_override_defaults opt p :
  init_arguments opt_get create_hparams opt = inr p ->
  exists user,
    opt !! "paired_dataset_args" = Some (ADict user) /\
    forall key,
      ~ In key forced_paired_keys ->
      dataset_opt p !! key
      = match user !! key with
        | Some v => Some v
        | None => create_hparams !! key
        end.
Proof.
  intros H. apply init_arguments_returned in H
    as (user & ma & mt & msa & mst & Huser & _ & _ & _ & _ & _ & _ & -> & _).
  exists user. split; [assumption |]. intros key Hkey.
  unfold forced_paired_keys in Hkey. cbn in Hkey.
  unfold build_paired_voice_dataset, set_paired_arguments.
  rewrite lookup_union.
  rewrite !lookup_insert_ne by (intros <-; apply Hkey; auto 10).
  destruct (user !! key), (create_hparams !! key); reflexivity.
Qed.

(** X18. Outside paired-only mode the unpaired speech dataset is built
    from the caller's [unsupervised_audio_args] with [sampling_rate] 22050,
    [do_augmentation] False and [resample_clip] False; [pad_to_samples] is
    set to [max_solo_audio_length] under collation and left as the caller
    had it otherwise; every other key is the caller's.  The text corpus
    arguments are passed on unchanged. *)
Theorem audio_arguments_are_forced opt p :
  init_arguments opt_get create_hparams opt = inr p ->
  truth (opt_get opt ["only_paired"] (ABool false)) = false ->
  exists user a corpus,
    opt !! "unsupervised_audio_args" = Some (ADict user) /\
    audio_args p = Some a /\
    a !! "sampling_rate" = Some (AInt 22050) /\
    a !! "do_augmentation" = Some (ABool false) /\
    a !! "resample_clip" = Some (ABool false) /\
    a !! "pad_to_samples"
    = (if truth (opt_get opt ["needs_collate"] (ABool false))
       then opt !! "max_solo_audio_length"
       else user !! "pad_to_samples") /\
    (forall key, ~ In key forced_audio_keys -> a !! key = user !! key) /\
    opt !! "text_corpus_args" = Some (ADict corpus) /\
    text_args p = Some corpus.
Proof.
  intros H Honly. apply init_arguments_returned in H
    as (user & ma & mt & msa & mst & _ & _ & _ & Hmsa & _ & Hop & Hc & _ & Hsolo).
  rewrite Hop, Honly in Hsolo.
  destruct Hsolo as (audio & corpus & Haudio & Hcorpus & Ha & Ht).
  exists audio, (set_audio_arguments (p_collate p) msa audio), corpus.
  rewrite Hmsa, <- Hc. unfold set_audio_arguments.
  split; [assumption |]. split; [assumption |].
  destruct (truth (p_collate p)).
  - repeat (split; [now simplify_map_eq |]).
    split; [| auto].
    intros key Hkey. unfold forced_audio_keys in Hkey. cbn in Hkey.
    rewrite !lookup_insert_ne by (intros <-; apply Hkey; auto 10). reflexivity.
  - repeat (split; [now simplify_map_eq |]).
    split; [| auto].
    intros key Hkey. unfold forced_audio_keys in Hkey. cbn in Hkey.
    rewrite !lookup_insert_ne by (intros <-; apply Hkey; auto 10). reflexivity.
Qed.

(** X19. [__init__] gets through its option dictionaries exactly when
    [opt] holds a dictionary under [paired_dataset_args], the four length
    limits and, unless [only_paired] is true, dictionaries under
    [unsupervised_audio_args] and [text_corpus_args]; in paired-only mode
    these two are never looked at and nothing is passed to the unpaired
    datasets. *)
Theorem init_arguments_needs opt :
  ((exists p, init_arguments opt_get create_hparams opt = inr p) <->
   (exists user, opt !! "paired_dataset_args" = Some (ADict user)) /\
   is_Some (opt !! "max_paired_audio_length") /\
   is_Some (opt !! "max_paired_text_length") /\
   is_Some (opt !! "max_solo_audio_length") /\
   is_Some (opt !! "max_solo_text_length") /\
   (truth (opt_get opt ["only_paired"] (ABool false)) = false ->
    (exists audio, opt !! "unsupervised_audio_args" = Some (ADict audio)) /\
    (exists corpus, opt !! "text_corpus_args" = Some (ADict corpus)))) /\
  (forall p,
      init_arguments opt_get create_hparams opt = inr p ->
      truth (opt_get opt ["only_paired"] (ABool false)) = true ->
      audio_args p = None /\ text_args p = None).
Proof.
  split; [split |].
  - intros [p H]. apply init_arguments_returned in H
      as (user & ma & mt & msa & mst & Hu & Hma & Hmt & Hmsa & Hmst & Hop & _ & _ & Hsolo).
    split; [eauto |]. split; [eauto |]. split; [eauto |].
    split; [eauto |]. split; [eauto |].
    intros Honly. rewrite Hop, Honly in Hsolo.
    destruct Hsolo as (audio & corpus & Ha & Hc & _). eauto.
  - intros ([user Hu] & [ma Hma] & [mt Hmt] & [msa Hmsa] & [mst Hmst] & Hsolo).
    unfold init_arguments, item.
    rewrite Hu, Hma, Hmt, Hmsa, Hmst.
    destruct (truth (opt_get opt ["only_paired"] (ABool false))) eqn:Honly;
      cbn [negb as_dict].
    + eexists. reflexivity.
    + destruct (Hsolo eq_refl) as [[audio Ha] [corpus Hc]].
      rewrite Ha, Hc. cbn [as_dict]. eexists. reflexivity.
  - intros p H Honly. apply init_arguments_returned in H
      as (user & ma & mt & msa & mst & _ & _ & _ & _ & _ & Hop & _ & _ & Hsolo).
    rewrite Hop, Honly in Hsolo. exact Hsolo.
Qed.

End ArgumentsFacts.

(** ** Further properties of DownsampleDataset *)

Section DownsampleMore.

Import Downsample More.

Context {L : Libraries}.

(** What a successful [__init__] found in the two listings. *)
Lemma init_returned (o : Options) ds u :
  __init__ o tt = (Returned ds, u) ->
  exists gt lq sGT sLQ,
    get_image_paths (o_data_type o) (o_dataroot_GT o) = inr (Some gt, sGT) /\
    get_image_paths (o_data_type o) (o_dataroot_LQ o) = inr (Some lq, sLQ) /\
    gt <> [] /\ lq <> [] /\
    (o_mismatched_Data_OK o = false -> length lq = length gt) /\
    ds = built_from o gt lq sGT sLQ.
Proof.
  unfold __init__. intros H.
  apply bind_returned in H as ([pGT sGT] & u1 & HG & H).
  apply lift_returned in HG as [HG ->].
  apply bind_returned in H as ([pLQ sLQ] & u1 & HL & H).
  apply lift_returned in HL as [HL ->].
  apply bind_returned in H as (x & u1 & HaG & H).
  apply py_assert_returned in HaG as [HaG ->].
  apply bind_returned in H as (y & u1 & HaL & H).
  apply py_assert_returned in HaL as [HaL ->].
  destruct pGT as [[| g gt] |]; try discriminate.
  destruct pLQ as [[| l lq] |]; try discriminate.
  apply bind_returned in H as (z & u1 & Hm & H).
  apply ret_returned in H as [-> _].
  exists (g :: gt), (l :: lq), sGT, sLQ.
  split; [assumption |]. split; [assumption |].
  split; [discriminate |]. split; [discriminate |].
  split; [| reflexivity].
  intros Hno. rewrite Hno in Hm. cbn [negb] in Hm.
  apply bind_returned in Hm as (lq' & u2 & Hlq & Hm).
  apply as_list_returned in Hlq as [Hlq ->].
  apply bind_returned in Hm as (gt' & u2 & Hgt & Hm).
  apply as_list_returned in Hgt as [Hgt ->].
  injection Hlq as <-. injection Hgt as <-.
  apply py_assert_returned in Hm as [Hm _].
  apply Z.eqb_eq in Hm. unfold len in Hm. lia.
Qed.

(** X20. [__init__] builds a dataset exactly when both listings succeed
    with non-empty path lists that, unless [mismatched_Data_OK] is set,
    have the same length; the dataset then holds the two listings as they
    came, unopened lmdb handles and the scale list [1]. *)
Theorem init_builds_exactly_when (o : Options) ds :
  __init__ o tt = (Returned ds, tt) <->
  exists gt lq sGT sLQ,
    get_image_paths (o_data_type o) (o_dataroot_GT o) = inr (Some gt, sGT) /\
    get_image_paths (o_data_type o) (o_dataroot_LQ o) = inr (Some lq, sLQ) /\
    gt <> [] /\ lq <> [] /\
    (o_mismatched_Data_OK o = false -> length lq = length gt) /\
    ds = built_from o gt lq sGT sLQ.
Proof.
  split; [apply init_returned |].
  intros (gt & lq & sGT & sLQ & HG & HL & Hgt & Hlq & Hlen & ->).
  unfold __init__.
  unfold bind at 1. rewrite HG. cbn [lift]. unfold ret at 1.
  unfold bind at 1. rewrite HL. cbn [lift]. unfold ret at 1.
  destruct gt as [| g gt]; [congruence |].
  destruct lq as [| l lq]; [congruence |].
  unfold bind at 1. cbn [truthy py_assert]. unfold ret at 1.
  unfold bind at 1. unfold ret at 1.
  unfold built_from.
  destruct (o_mismatched_Data_OK o) eqn:Hok; cbn [negb].
  - reflexivity.
  - cbn [as_list]. unfold bind at 1. unfold bind at 1. unfold ret at 1.
    unfold bind at 1. unfold ret at 1.
    assert (Heq : (len (l :: lq) =? len (g :: gt)) = true).
    { apply Z.eqb_eq. unfold len. rewrite (Hlen eq_refl). reflexivity. }
    rewrite Heq. reflexivity.
Qed.

(** X21. On every dataset [__init__] builds, [__len__] returns without
    touching the world; the length is at least 1 and at least the length
    of either path list, and when [mismatched_Data_OK] is not set it is the
    common length of the two lists. *)
Theorem len_of_built_downsample (o : Options) ds r :
  __init__ o tt = (Returned ds, tt) ->
  exists gt lq n,
    paths_GT ds = Some gt /\ paths_LQ ds = Some lq /\
    __len__ {| this := ds; random := r |}
    = (Returned n, {| this := ds; random := r |}) /\
    1 <= n /\ len gt <= n /\ len lq <= n /\
    (n = len gt \/ n = len lq) /\
    (o_mismatched_Data_OK o = false -> n = len gt /\ n = len lq).
Proof.
  intros H. apply init_returned in H
    as (gt & lq & sGT & sLQ & _ & _ & Hgt & Hlq & Hlen & ->).
  exists gt, lq, (Z.max (len gt) (len lq)).
  split; [reflexivity |]. split; [reflexivity |]. split.
  { unfold __len__, bind, self, as_list, ret. cbn.
    now rewrite py_max_is_max. }
  pose proof (len_pos gt Hgt). pose proof (len_pos lq Hlq).
  split; [lia |]. split; [lia |]. split; [lia |]. split; [lia |].
  intros Hno. specialize (Hlen Hno). unfold len in *. lia.
Qed.

(** X22. The lmdb handles are opened at most once: after a lookup has
    opened them, [open_handles] changes nothing more; under lmdb both
    handles are then set; outside lmdb, or with both handles already set,
    [open_handles] changes nothing at all.  It never touches the state of
    [random]. *)
Theorem handles_are_opened_once w u w1 :
  open_handles w = (Returned u, w1) ->
  open_handles w1 = (Returned tt, w1) /\
  random w1 = random w /\
  (data_type (this w) = "lmdb" ->
   is_Some (GT_env (this w1)) /\ is_Some (LQ_env (this w1))) /\
  (data_type (this w) <> "lmdb" \/
   (is_Some (GT_env (this w)) /\ is_Some (LQ_env (this w))) -> w1 = w).
Proof.
  unfold open_handles. intros H.
  apply bind_returned in H as (s & w0 & Hs & H).
  apply self_returned in Hs as [-> ->].
  unfold bind at 1. unfold self at 1.
  destruct (data_type (this w) =? "lmdb")%string eqn:Hlmdb.
  - destruct (GT_env (this w)) as [g |] eqn:HG;
      destruct (LQ_env (this w)) as [l |] eqn:HL; cbn [is_none orb andb] in H.
    + apply ret_returned in H as [-> ->].
      rewrite Hlmdb, HG, HL. cbn [is_none orb andb].
      split; [reflexivity |]. split; [reflexivity |].
      split; [intros _; split; eexists; reflexivity |]. reflexivity.
    + unfold _init_lmdb in H.
      apply bind_returned in H as (s & w2 & Hs & H).
      apply self_returned in Hs as [-> ->].
      apply bind_returned in H as (gt & w2 & Hgt & H).
      apply lift_returned in Hgt as [_ ->].
      apply bind_returned in H as (u1 & w2 & Hset & H).
      unfold set_GT_env in Hset. inversion Hset; subst u1 w2. clear Hset.
      apply bind_returned in H as (lq & w2 & Hlq & H).
      apply lift_returned in Hlq as [_ ->].
      unfold set_LQ_env in H. inversion H; subst. clear H. cbn.
      rewrite Hlmdb. cbn. split; [reflexivity |]. split; [reflexivity |].
      split; [intros _; split; eexists; reflexivity |].
      intros [Hne | [_ [x Hx]]]; [| discriminate].
      apply String.eqb_eq in Hlmdb. contradiction.
    + unfold _init_lmdb in H.
      apply bind_returned in H as (s & w2 & Hs & H).
      apply self_returned in Hs as [-> ->].
      apply bind_returned in H as (gt & w2 & Hgt & H).
      apply lift_returned in Hgt as [_ ->].
      apply bind_returned in H as (u1 & w2 & Hset & H).
      unfold set_GT_env in Hset. inversion Hset; subst u1 w2. clear Hset.
      apply bind_returned in H as (lq & w2 & Hlq & H).
      apply lift_returned in Hlq as [_ ->].
      unfold set_LQ_env in H. inversion H; subst. clear H. cbn.
      rewrite Hlmdb. cbn. split; [reflexivity |]. split; [reflexivity |].
      split; [intros _; split; eexists; reflexivity |].
      intros [Hne | [[x Hx] _]]; [| discriminate].
      apply String.eqb_eq in Hlmdb. contradiction.
    + unfold _init_lmdb in H.
      apply bind_returned in H as (s & w2 & Hs & H).
      apply self_returned in Hs as [-> ->].
      apply bind_returned in H as (gt & w2 & Hgt & H).
      apply lift_returned in Hgt as [_ ->].
      apply bind_returned in H as (u1 & w2 & Hset & H).
      unfold set_GT_env in Hset. inversion Hset; subst u1 w2. clear Hset.
      apply bind_returned in H as (lq & w2 & Hlq & H).
      apply lift_returned in Hlq as [_ ->].
      unfold set_LQ_env in H. inversion H; subst. clear H. cbn.
      rewrite Hlmdb. cbn. split; [reflexivity |]. split; [reflexivity |].
      split; [intros _; split; eexists; reflexivity |].
      intros [Hne | [[x Hx] _]]; [| discriminate].
      apply String.eqb_eq in Hlmdb. contradiction.
  - cbn [andb] in H. apply ret_returned in H as [-> ->].
    rewrite Hlmdb. cbn [andb].
    split; [reflexivity |]. split; [reflexivity |].
    split; [| reflexivity].
    intros Heq. apply String.eqb_neq in Hlmdb. contradiction.
Qed.

(** X23. When the GT environment opens and the LQ environment does not,
    the lookup raises what [lmdb.open] raised, the GT handle stays set on
    the dataset and the LQ handle stays as it was; when the GT environment
    does not open, the dataset is left as it was. *)
Theorem failed_open_keeps_the_first_handle index w :
  data_type (this w) = "lmdb" ->
  GT_env (this w) = None \/ LQ_env (this w) = None ->
  (forall g e,
      lmdb_open (o_dataroot_GT (opt (this w))) = inr g ->
      lmdb_open (o_dataroot_LQ (opt (this w))) = inl e ->
      exists w',
        __getitem__ index w = (Raised e, w') /\
        GT_env (this w') = Some g /\
        LQ_env (this w') = LQ_env (this w) /\
        paths_GT (this w') = paths_GT (this w) /\
        random w' = random w) /\
  (forall e,
      lmdb_open (o_dataroot_GT (opt (this w))) = inl e ->
      __getitem__ index w = (Raised e, w)).
Proof.
  intros Hlmdb Hnone.
  assert (Hcond : (data_type (this w) =? "lmdb")%string
                  && (is_none (GT_env (this w)) || is_none (LQ_env (this w)))
                  = true).
  { rewrite Hlmdb. cbn [String.eqb Ascii.eqb Bool.eqb andb].
    destruct Hnone as [-> | ->]; cbn; [reflexivity |].
    now destruct (GT_env (this w)). }
  split.
  - intros g e Hg He. eexists. split.
    + unfold __getitem__, open_handles. unfold bind at 1. unfold bind at 1.
      unfold self at 1. rewrite Hcond. unfold _init_lmdb.
      unfold bind at 1. unfold self at 1. unfold bind at 1. rewrite Hg.
      cbn [lift]. unfold ret at 1. unfold bind at 1. unfold set_GT_env at 1.
      unfold bind at 1. cbn [this opt]. rewrite He. cbn [lift].
      unfold raise. reflexivity.
    + cbn. repeat split.
  - intros e He.
    unfold __getitem__, open_handles. unfold bind at 1. unfold bind at 1.
    unfold self at 1. rewrite Hcond. unfold _init_lmdb.
    unfold bind at 1. unfold self at 1. unfold bind at 1. rewrite He.
    reflexivity.
Qed.

(** The dictionary a returning lookup builds, and what the division by
    [scale] needs. *)
Lemma getitem_returned_shape index w d w' :
  __getitem__ index w = (Returned d, w') ->
  o_scale (opt (this w)) <> 0 /\
  exists a b c p q,
    d = <["LQ" := VTensor a]>
        (<["GT" := VTensor b]>
        (<["PIX" := VTensor c]>
        (<["LQ_path" := VPath q]>
        (<["GT_path" := VPath p]> ∅)))).
Proof.
  unfold __getitem__. intros H.
  apply bind_returned in H as (u & w1 & Hopen & H).
  apply open_handles_keeps in Hopen as (Hopt & _).
  apply bind_returned in H as (s & w2 & Hs & H).
  apply self_returned in Hs as [-> ->].
  apply bind_returned in H as ([GT_path gt0] & w2 & _ & H).
  apply bind_returned in H as ([LQ_path lq0] & w3 & _ & H).
  apply bind_returned in H as ([lq1 gt1] & w4 & _ & H).
  apply bind_returned in H as ([lq2 gt2] & w5 & _ & H).
  destruct (shape gt2) as [[Hh Ww] Cc].
  apply bind_returned in H as (pil0 & w6 & _ & H).
  apply bind_returned in H as (pil & w7 & _ & H).
  apply bind_returned in H as (h & w8 & Hh0 & H).
  apply lift_returned in Hh0 as [Hh0 _].
  apply bind_returned in H as (w_ & w9 & _ & H).
  apply bind_returned in H as (small & w10 & _ & H).
  apply ret_returned in H as [-> _].
  unfold py_int_truediv in Hh0. rewrite Hopt in Hh0.
  destruct (Z.eqb_spec (o_scale (opt (this w))) 0) as [| Hscale];
    [discriminate |].
  split; [assumption |]. eexists _, _, _, _, _. reflexivity.
Qed.

(** X24. Every dictionary [__getitem__] returns has exactly the five
    keys [LQ], [GT], [PIX], [LQ_path] and [GT_path]; the first three hold
    tensors and the last two hold paths. *)
Theorem downsample_record_has_five_keys index w d w' :
  __getitem__ index w = (Returned d, w') ->
  dom d = downsample_keys /\
  (exists a b c,
      d !! "LQ" = Some (VTensor a) /\ d !! "GT" = Some (VTensor b) /\
      d !! "PIX" = Some (VTensor c)) /\
  (exists p q,
      d !! "GT_path" = Some (VPath p) /\ d !! "LQ_path" = Some (VPath q)).
Proof.
  intros H. apply getitem_returned_shape in H
    as (_ & a & b & c & p & q & ->).
  split.
  { rewrite !dom_insert_L, dom_empty_L. unfold downsample_keys. set_solver. }
  split; [exists a, b, c | exists p, q]; repeat split.
Qed.

(** X25. With [scale] 0 no lookup returns a record: the size of the
    downsampled image cannot be computed. *)
Theorem zero_scale_never_returns index w :
  o_scale (opt (this w)) = 0 ->
  forall d w', __getitem__ index w <> (Returned d, w').
Proof.
  intros Hscale d w' H. apply getitem_returned_shape in H as [Hne _].
  contradiction.
Qed.

(** X26. In the training phase an HQ image lower or narrower than
    [target_size * scale] stops the transform with an [AssertionError],
    before anything is drawn from [random]: the world is left as it was,
    whatever the LQ image. *)
Theorem small_HQ_image_is_refused lq gt w H W C :
  o_phase (opt (this w)) = "train" ->
  shape gt = (H, W, C) ->
  H < o_target_size (opt (this w)) * o_scale (opt (this w)) \/
  W < o_target_size (opt (this w)) * o_scale (opt (this w)) ->
  train_transform lq gt w = (Raised (AssertionError EmptyString), w).
Proof.
  intros Hphase Hshape Hsmall. unfold train_transform.
  unfold bind at 1. unfold self at 1. rewrite Hphase.
  cbn [String.eqb Ascii.eqb Bool.eqb]. rewrite Hshape.
  set (size := o_target_size (opt (this w)) * o_scale (opt (this w))) in *.
  assert (Hcond : (H >=? size) && (W >=? size) = false).
  { apply andb_false_iff. rewrite !Z.geb_leb.
    destruct Hsmall; [left | right]; apply Z.leb_gt; assumption. }
  unfold bind at 1. rewrite Hcond. reflexivity.
Qed.

(** X27. In the training phase with cropping and a non-zero [scale], the
    LQ image is cropped to a [target_size] square at a drawn corner and the
    HQ image to the same window multiplied by [scale]; then one and the
    same augmentation is applied to both. *)
Theorem crops_are_aligned lq gt w lq' gt' w' :
  o_phase (opt (this w)) = "train" ->
  doCrop (this w) = true ->
  o_scale (opt (this w)) <> 0 ->
  train_transform lq gt w = (Returned (lq', gt'), w') ->
  exists rnd_h rnd_w aug,
    let T := o_target_size (opt (this w)) in
    let s := o_scale (opt (this w)) in
    lq' = apply_augmentation aug
            (crop lq rnd_h (rnd_h + T) rnd_w (rnd_w + T)) /\
    gt' = apply_augmentation aug
            (crop gt (rnd_h * s) ((rnd_h + T) * s)
                  (rnd_w * s) ((rnd_w + T) * s)) /\
    this w' = this w.
Proof.
  intros Hphase Hcrop Hscale H. unfold train_transform in H.
  apply bind_returned in H as (s & w1 & Hs & H).
  apply self_returned in Hs as [-> ->].
  rewrite Hphase in H. cbn [String.eqb Ascii.eqb Bool.eqb] in H.
  destruct (shape gt) as [[Hh Ww] Cc].
  apply bind_returned in H as (u & w1 & Ha & H).
  apply py_assert_returned in Ha as [_ ->].
  destruct (shape lq) as [[Hl Wl] Cl].
  apply bind_returned in H as (LQ_size & w1 & Hsize & H).
  apply lift_returned in Hsize as [Hsize ->].
  unfold py_floordiv in Hsize.
  destruct (Z.eqb_spec (o_scale (opt (this w))) 0) as [| _]; [contradiction |].
  injection Hsize as <-. rewrite Z.div_mul in H by assumption.
  rewrite Hcrop in H.
  apply bind_returned in H as ([lq1 gt1] & w1 & Hc & H).
  apply bind_returned in Hc as (rnd_h & w2 & Hh1 & Hc).
  apply draw_returned in Hh1.
  apply bind_returned in Hc as (rnd_w & w3 & Hw1 & Hc).
  apply draw_returned in Hw1.
  apply ret_returned in Hc as [Heq ->]. injection Heq as -> ->.
  apply bind_returned in H as (aug & w4 & Haug & H).
  apply draw_returned in Haug.
  apply ret_returned in H as [Heq ->]. injection Heq as -> ->.
  exists rnd_h, rnd_w, aug. cbn zeta.
  split; [reflexivity |]. split.
  - do 2 f_equal; lia.
  - congruence.
Qed.

Lemma bind_same {S A B} (m : M S A) (k : A -> M S B) w :
  snd (m w) = w ->
  (forall a, m w = (Returned a, w) -> snd (k a w) = w) ->
  snd (bind m k w) = w.
Proof.
  intros Hm Hk. unfold bind. destruct (m w) as [[a | e |] w1]; cbn in *;
    subst; auto.
Qed.

Lemma bind_ext_both {S A B} (m1 m2 : M S A) (k1 k2 : A -> M S B) s :
  m1 s = m2 s ->
  (forall a s', m2 s = (Returned a, s') -> k1 a s' = k2 a s') ->
  bind m1 k1 s = bind m2 k2 s.
Proof.
  intros Hm Hk. unfold bind. rewrite Hm.
  destruct (m2 s) as [[a | e |] s']; auto.
Qed.

Ltac same_step :=
  match goal with
  | |- snd (bind _ _ _) = _ => apply bind_same; [| intros ? ?]
  | |- snd (ret _ _) = _ => reflexivity
  | |- snd (lift ?r _) = _ => destruct r; reflexivity
  | |- snd (self _) = _ => reflexivity
  | |- snd (as_list ?o _) = _ => destruct o; reflexivity
  | |- snd (py_assert ?c _ _) = _ => destruct c; reflexivity
  | |- snd ((if ?c then _ else _) _) = _ => destruct c
  | |- snd ((match ?x with _ => _ end) _) = _ => destruct x
  end.

(** The two loading blocks read the world and never change it, however
    they end. *)
Lemma get_GT_image_keeps_world index : preserves (fun w => w) (get_GT_image index).
Proof. intros w. unfold get_GT_image. repeat same_step. Qed.

Lemma get_LQ_image_keeps_world index : preserves (fun w => w) (get_LQ_image index).
Proof. intros w. unfold get_LQ_image. repeat same_step. Qed.

Lemma open_handles_keeps_random : preserves random open_handles.
Proof.
  intros w. unfold open_handles, bind, self.
  destruct ((data_type (this w) =? "lmdb")%string
            && (is_none (GT_env (this w)) || is_none (LQ_env (this w))));
    [| reflexivity].
  unfold _init_lmdb, bind, self, set_GT_env, set_LQ_env.
  destruct (lmdb_open (o_dataroot_GT (opt (this w)))) as [e | g]; cbn;
    [reflexivity |].
  destruct (lmdb_open (o_dataroot_LQ (opt (this w)))) as [e | l]; reflexivity.
Qed.

(** X28. Outside the training phase and without compression artifacts a
    lookup draws nothing from [random] and changes the dataset only by
    opening the lmdb handles: however it ends, it leaves the world as
    [open_handles] left it, and the state of [random] as it found it. *)
Theorem evaluation_lookup_is_not_random index w :
  o_phase (opt (this w)) <> "train" ->
  o_use_compression_artifacts (opt (this w)) = false ->
  snd (__getitem__ index w) = snd (open_handles w) /\
  random (snd (__getitem__ index w)) = random w.
Proof.
  intros Hphase Hjpeg.
  assert (Hsame : snd (__getitem__ index w) = snd (open_handles w)).
  { unfold __getitem__. unfold bind at 1.
    destruct (open_handles w) as [[u | e |] w1] eqn:Hopen; cbn [snd];
      [| reflexivity | reflexivity].
    apply open_handles_keeps in Hopen as (Hopt & _).
    apply bind_same; [reflexivity |]. intros s Hs.
    apply self_returned in Hs as [-> _].
    apply bind_same; [apply get_GT_image_keeps_world |]. intros [GT_path gt0] _.
    apply bind_same; [apply get_LQ_image_keeps_world |]. intros [LQ_path lq0] _.
    apply bind_same.
    { unfold train_transform. apply bind_same; [reflexivity |].
      intros s Hs. apply self_returned in Hs as [-> _].
      rewrite Hopt. apply String.eqb_neq in Hphase. rewrite Hphase.
      reflexivity. }
    intros [lq1 gt1] _.
    apply bind_same; [repeat same_step |]. intros [lq2 gt2] _.
    destruct (shape gt2) as [[Hh Ww] Cc].
    rewrite Hopt, Hjpeg. repeat same_step. }
  split; [assumption |]. rewrite Hsame. apply open_handles_keeps_random.
Qed.

Lemma get_GT_image_periodic index m w :
  data_type (this w) <> "lmdb" ->
  (forall gt, paths_GT (this w) = Some gt -> (len gt | m)) ->
  get_GT_image (index + m) w = get_GT_image index w.
Proof.
  intros Hlmdb Hdiv. apply String.eqb_neq in Hlmdb.
  unfold get_GT_image.
  apply bind_ext_both; [reflexivity |]. intros s w1 Hs.
  apply self_returned in Hs as [-> ->].
  apply bind_ext_both; [reflexivity |]. intros gt w1 Hgt.
  apply as_list_returned in Hgt as [Hgt ->].
  apply bind_ext_both;
    [now rewrite (py_mod_periodic index m _ (Hdiv gt Hgt)) |].
  intros k w1 _.
  apply bind_ext_both; [reflexivity |]. intros path w2 _.
  rewrite Hlmdb. reflexivity.
Qed.

Lemma get_LQ_image_periodic index m w :
  data_type (this w) <> "lmdb" ->
  (forall lq, paths_LQ (this w) = Some lq -> (len lq | m)) ->
  get_LQ_image (index + m) w = get_LQ_image index w.
Proof.
  intros Hlmdb Hdiv. apply String.eqb_neq in Hlmdb.
  unfold get_LQ_image.
  apply bind_ext_both; [reflexivity |]. intros s w1 Hs.
  apply self_returned in Hs as [-> ->].
  apply bind_ext_both; [reflexivity |]. intros lq w1 Hlq.
  apply as_list_returned in Hlq as [Hlq ->].
  apply bind_ext_both;
    [now rewrite (py_mod_periodic index m _ (Hdiv lq Hlq)) |].
  intros k w1 _.
  apply bind_ext_both; [reflexivity |]. intros path w2 _.
  rewrite Hlmdb. reflexivity.
Qed.

(** X29. Outside lmdb a lookup only sees its index modulo the two path
    list lengths: shifting the index by a common multiple of both lengths
    gives the same outcome and the same world, for negative indices and
    shifts as well. *)
Theorem downsample_lookup_is_periodic index m w :
  data_type (this w) <> "lmdb" ->
  (forall gt, paths_GT (this w) = Some gt -> (len gt | m)) ->
  (forall lq, paths_LQ (this w) = Some lq -> (len lq | m)) ->
  __getitem__ (index + m) w = __getitem__ index w.
Proof.
  intros Hlmdb HG HL. unfold __getitem__.
  apply bind_ext_both; [reflexivity |]. intros u w1 Hopen.
  apply open_handles_keeps in Hopen as (_ & Hdt & HpG & HpL & _).
  apply bind_ext_both; [reflexivity |]. intros s w2 Hs.
  apply self_returned in Hs as [-> ->].
  apply bind_ext_both.
  { apply get_GT_image_periodic; [congruence |].
    intros gt Hgt. apply HG. congruence. }
  intros [GT_path gt0] w2 HGT.
  apply get_GT_image_returned in HGT as (-> & _).
  apply bind_ext_both; [| reflexivity].
  apply get_LQ_image_periodic; [congruence |].
  intros lq Hlq. apply HL. congruence.
Qed.

(** X30. Under lmdb, for an index that is not negative, a returning
    [# get LQ image] block has read the image with the resolution parsed
    from the size entry at the raw index; when the index is below the
    number of paths, the path is the one at that same position. *)
Theorem lmdb_reads_the_matching_size index w p img w' :
  data_type (this w) = "lmdb" ->
  0 <= index ->
  get_LQ_image index w = (Returned (p, img), w') ->
  exists paths sizes size res,
    paths_LQ (this w) = Some paths /\
    sizes_LQ (this w) = Some sizes /\
    sizes !! Z.to_nat index = Some size /\
    parse_resolution size = inr res /\
    read_img (LQ_env (this w)) p (Some res) = inr img /\
    (index < len paths -> paths !! Z.to_nat index = Some p).
Proof.
  intros Hlmdb Hi H. unfold get_LQ_image in H.
  apply bind_returned in H as (s & w1 & Hs & H).
  apply self_returned in Hs as [-> ->].
  apply bind_returned in H as (paths & w1 & Hp & H).
  apply as_list_returned in Hp as [Hp ->].
  apply bind_returned in H as (k & w1 & Hk & H).
  apply lift_returned in Hk as [Hk ->].
  apply bind_returned in H as (path & w1 & Hpath & H).
  apply lift_returned in Hpath as [Hpath ->].
  apply bind_returned in H as (res & w1 & Hres & H).
  rewrite Hlmdb in Hres. cbn [String.eqb Ascii.eqb Bool.eqb] in Hres.
  apply bind_returned in Hres as (sizes & w2 & Hsizes & Hres).
  apply as_list_returned in Hsizes as [Hsizes ->].
  apply bind_returned in Hres as (size & w2 & Hsize & Hres).
  apply lift_returned in Hsize as [Hsize ->].
  apply bind_returned in Hres as (r & w2 & Hr & Hres).
  apply lift_returned in Hr as [Hr ->].
  apply ret_returned in Hres as [-> ->].
  apply bind_returned in H as (raw & w1 & Hraw & H).
  apply lift_returned in Hraw as [Hraw ->].
  apply ret_returned in H as [Heq _]. injection Heq as -> ->.
  exists paths, sizes, size, r.
  split; [assumption |]. split; [assumption |]. split.
  { unfold seq_getitem in Hsize.
    destruct (Z.ltb_spec index 0); [lia |].
    destruct (Z.ltb_spec index 0); [lia |].
    destruct (sizes !! Z.to_nat index); [congruence | discriminate]. }
  split; [assumption |]. split; [assumption |].
  intros Hlt. pose proof (wrapped_path paths index k path Hk Hpath) as Hw.
  now rewrite Z.mod_small in Hw by lia.
Qed.

End DownsampleMore.

(** ** The further properties at work on the examples *)

Section GrandConjoinedMoreRuns.

Import GrandConjoined Examples More.

Lemma clamp_lands_between_witness :
  clamp 7 0 4 = 4 /\ clamp (-3) 0 4 = 0 /\ clamp 2 0 4 = 2 /\ clamp 9 5 1 = 5.
Proof.
  destruct (clamp_lands_between 7 0 4) as (_ & Hhigh & _).
  destruct (clamp_lands_between (-3) 0 4) as (_ & Hlow & _).
  destruct (clamp_lands_between 2 0 4) as (_ & Hin & _).
  destruct (clamp_lands_between 9 5 1) as (_ & _ & Hinv).
  destruct (Hhigh ltac:(lia)) as (_ & _ & _ & H1).
  destruct (Hlow ltac:(lia)) as (_ & _ & H2 & _).
  destruct (Hin ltac:(lia)) as (_ & H3 & _).
  split; [apply H1; lia |]. split; [apply H2; lia |].
  split; [apply H3; lia | apply Hinv; lia].
Defined.

Lemma len_of_built_dataset_witness :
  exists n,
    __len__ toy_full [] = (Returned n, []) /\
    len (items (speech_and_text toy_full)) <= n.
Proof.
  destruct (len_of_built_dataset toy_options toy_full [] eq_refl)
    as (n & Hn & _ & Hle & _).
  exists n. split; assumption.
Defined.

Lemma fetch_snt_at_collates_witness :
  exists snt t',
    fetch_snt_at toy_full 7 [] = (Returned snt, t') /\
    exists d, snt = FDict d /\ dom d = collated_keys /\
              d !! "text_lengths" = Some (VInt 2).
Proof.
  assert (H : exists snt t', fetch_snt_at toy_full 7 [] = (Returned snt, t'))
    by (eexists _, _; vm_compute; reflexivity).
  destruct H as (snt & t' & H). exists snt, t'. split; [exact H |].
  destruct (fetch_snt_at_collates toy_full 7 [] snt t' H)
    as (item & Hitem & _ & Hcol).
  destruct (Hcol eq_refl)
    as (tseq & wav & p & txt & cond & d & -> & -> & Hdom & _ & Hlen & _).
  vm_compute in Hitem. injection Hitem as <- <- <- <- <-.
  exists d. split; [reflexivity |]. split; assumption.
Defined.

Lemma paired_only_record_witness :
  exists d t',
    __getitem__ toy_paired_only 0 7 [] = (Returned d, t') /\
    d !! "speech_audio" = d !! "paired_audio" /\
    d !! "text_tokens" = d !! "paired_text_tokens".
Proof.
  assert (H : exists d t', __getitem__ toy_paired_only 0 7 [] = (Returned d, t'))
    by (eexists _, _; vm_compute; reflexivity).
  destruct H as (d & t' & H). exists d, t'. split; [exact H |].
  destruct (paired_only_record_repeats_the_pair
              toy_paired_only 0 7 [] d t' eq_refl H)
    as (_ & _ & _ & _ & _ & Ha & _ & _ & _ & Hk).
  split; assumption.
Defined.

Lemma paired_only_reads_one_item_witness :
  snd (__getitem__ toy_paired_only 5 7 []) = [(Paired, 1)] /\
  fst (__getitem__ toy_paired_only 5 7 []) <> Diverged /\
  __getitem__ toy_paired_only 5 7 [] = __getitem__ toy_paired_only 0 7 [].
Proof.
  apply (paired_only_reads_one_item toy_paired_only 7 []
           eq_refl ltac:(discriminate) 5%nat).
Defined.

Lemma getitem_is_periodic_witness :
  __getitem__ toy_full 10 (7 + 30) [] = __getitem__ toy_full 10 7 [] /\
  __getitem__ toy_full 10 (7 + -60) [] = __getitem__ toy_full 10 7 [].
Proof.
  split.
  - apply (getitem_is_periodic toy_full 10 7 30 []).
    + exists 15. reflexivity.
    + intros corpus Hc. injection Hc as <-. exists 6. reflexivity.
    + intros clips Hc. injection Hc as <-. exists 10. reflexivity.
  - apply (getitem_is_periodic toy_full 10 7 (-60) []).
    + exists (-30). reflexivity.
    + intros corpus Hc. injection Hc as <-. exists (-12). reflexivity.
    + intros clips Hc. injection Hc as <-. exists (-20). reflexivity.
Defined.

Lemma fetch_text_at_raises_witness :
  (forall fuel,
      fetch_text_at toy_paired_only (S fuel) 3 []
      = (Raised (AttributeError "text"), [])) /\
  (forall fuel,
      fetch_text_at textless (S fuel) 3 [] = (Raised ZeroDivisionError, [])).
Proof.
  split.
  - apply (proj1 (proj2 (fetch_text_at_raises_only_without_corpus
                           toy_paired_only 3 []))).
    reflexivity.
  - apply (proj2 (proj2 (fetch_text_at_raises_only_without_corpus
                           textless 3 []))).
    reflexivity.
Defined.

Lemma empty_paired_corpus_witness :
  __getitem__ pairless 10 0 [] = (Raised ZeroDivisionError, []).
Proof. apply (empty_paired_corpus_raises pairless 10 0 []). reflexivity. Defined.

Lemma empty_text_corpus_witness :
  __len__ textless [] = (Returned 3, []) /\
  __getitem__ textless 10 0 [] = (Raised ZeroDivisionError, [(Paired, 0)]).
Proof.
  destruct (empty_text_corpus_raises textless (toy_speech true) 10 0 []
              eq_refl eq_refl eq_refl) as (Hlen & _ & Hraise).
  split; [exact Hlen |].
  eapply Hraise. vm_compute. reflexivity.
Defined.

Lemma returned_text_witness :
  contains_char "*"%char "hello world" = false /\
  (exists corpus,
      text toy_full = Some corpus /\ In (inr "hello world") corpus) /\
  exists raw,
    get_text (speech_and_text toy_full) "hello world" = inr raw /\
    [8; 5; 12; 12; 15] = fit_tokens toy_full raw.
Proof.
  apply (proj1 (returned_text_is_never_masked toy_full) 10%nat 0 []
               "hello world" [8; 5; 12; 12; 15]
               [(Text, 0); (Text, 1); (Text, 2); (Text, 3)]).
  reflexivity.
Defined.

Lemma negative_text_limit_witness :
  exists raw,
    get_text (speech_and_text negative_limits) "ok" = inr raw /\
    [15] = take (length raw - Z.to_nat (- max_solo_text_length negative_limits)) raw /\
    len [15] = Z.max 0 (len raw + max_solo_text_length negative_limits).
Proof.
  apply (negative_text_limit_cuts_the_end negative_limits 10 4 [] "ok" [15]
                                          [(Text, 4)]).
  - reflexivity.
  - reflexivity.
Defined.

Lemma negative_audio_limit_witness :
  exists d t',
    __getitem__ negative_limits 10 3 [] = (Returned d, t') /\
    d !! "speech_audio_lengths" = Some (VInt 0) /\
    d !! "speech_audio" = Some (VWave [[1; 2; 3; 4; 5]]).
Proof.
  assert (H : exists d t', __getitem__ negative_limits 10 3 [] = (Returned d, t'))
    by (eexists _, _; vm_compute; reflexivity).
  destruct H as (d & t' & H). exists d, t'. split; [exact H |].
  destruct (negative_audio_limit_cuts_the_end negative_limits 10 3 [] d t'
              eq_refl ltac:(reflexivity) H)
    as (clips & sp & Hs & Hsp & Hlen & Hcut).
  injection Hs as <-. vm_compute in Hsp. injection Hsp as <-.
  split; [exact Hlen | exact Hcut].
Defined.

Lemma solo_length_matches_witness :
  exists d t',
    __getitem__ toy_full 10 3 [] = (Returned d, t') /\
    exists cut n,
      d !! "speech_audio" = Some (VWave cut) /\
      d !! "speech_audio_lengths" = Some (VInt n) /\
      Forall (fun channel => len channel = n) cut.
Proof.
  assert (H : exists d t', __getitem__ toy_full 10 3 [] = (Returned d, t'))
    by (eexists _, _; vm_compute; reflexivity).
  destruct H as (d & t' & H). exists d, t'. split; [exact H |].
  destruct (solo_length_matches_solo_audio toy_full 10 3 [] d t'
              eq_refl ltac:(cbn; lia) H)
    as (clips & sp & cut & n & Hs & Hsp & Hcut & Hn & Hall).
  injection Hs as <-. vm_compute in Hsp. injection Hsp as <-.
  exists cut, n. split; [assumption |]. split; [assumption |].
  apply Hall. repeat constructor.
Defined.

Lemma paired_fields_witness :
  exists d t',
    __getitem__ toy_full 10 7 [] = (Returned d, t') /\
    d !! "paired_file" = Some (VStr "p1.wav") /\
    d !! "paired_audio_lengths" = Some (VInt 2).
Proof.
  assert (H : exists d t', __getitem__ toy_full 10 7 [] = (Returned d, t'))
    by (eexists _, _; vm_compute; reflexivity).
  destruct H as (d & t' & H). exists d, t'. split; [exact H |].
  destruct (paired_fields_come_from_the_wrapped_item toy_full 10 7 [] d t' H)
    as (item & Hitem & Hcol & _).
  destruct (Hcol eq_refl)
    as (tseq & wav & p & txt & cond & -> & _ & Hlen & _ & _ & Hfile).
  vm_compute in Hitem. injection Hitem as <- <- <- <- <-.
  split; assumption.
Defined.

Lemma every_item_is_visited_witness :
  exists fuel d t',
    __getitem__ toy_full fuel (Z.of_nat 2) [] = (Returned d, t') /\
    In (Speech, Z.of_nat 2) t' /\
    d !! "speech_file" = Some (VStr "s2.wav").
Proof.
  refine (proj1 (every_item_is_visited toy_full (toy_speech true) _ eq_refl eq_refl)
                2%nat
                {| clip := [[9; 10; 11; 12]]; clip_lengths := 4; path := "s2.wav" |}
                eq_refl).
  split; [discriminate |]. split.
  - repeat constructor.
  - intros _. exists (toy_speech true), toy_corpus.
    split; [reflexivity |]. split; [discriminate |].
    split; [reflexivity |]. exists (inr "ok").
    split; [cbn; tauto |].
    intros Hrej. inversion Hrej; discriminate.
Defined.

End GrandConjoinedMoreRuns.

Section ArgumentsRuns.

Import Arguments More.

Lemma paired_arguments_are_forced_witness :
  exists p,
    init_arguments lookup_or_default toy_hparams toy_train_params = inr p /\
    dataset_opt p !! "sample_rate" = Some (AInt 22050) /\
    dataset_opt p !! "load_conditioning" = Some (ABool false).
Proof.
  assert (H : exists p,
             init_arguments lookup_or_default toy_hparams toy_train_params = inr p)
    by (eexists; vm_compute; reflexivity).
  destruct H as [p H]. exists p. split; [exact H |].
  destruct (paired_arguments_are_forced lookup_or_default toy_hparams
              toy_train_params p H) as (Hrate & Hcond & _).
  split; assumption.
Defined.

Lemma paired_arguments_override_witness :
  exists p,
    init_arguments lookup_or_default toy_hparams toy_train_params = inr p /\
    dataset_opt p !! "use_bpe_tokenizer" = Some (ABool false) /\
    dataset_opt p !! "n_mel_channels" = Some (AInt 80).
Proof.
  assert (H : exists p,
             init_arguments lookup_or_default toy_hparams toy_train_params = inr p)
    by (eexists; vm_compute; reflexivity).
  destruct H as [p H]. exists p. split; [exact H |].
  destruct (paired_arguments_override_defaults lookup_or_default toy_hparams
              toy_train_params p H) as (user & Huser & Hkeys).
  assert (Hu : toy_train_params !! "paired_dataset_args"
               = Some (ADict toy_paired_args)) by (vm_compute; reflexivity).
  rewrite Hu in Huser. injection Huser as <-.
  split.
  - rewrite Hkeys by (cbn; intuition discriminate). vm_compute. reflexivity.
  - rewrite Hkeys by (cbn; intuition discriminate). vm_compute. reflexivity.
Defined.

Lemma audio_arguments_are_forced_witness :
  exists p a,
    init_arguments lookup_or_default toy_hparams toy_train_params = inr p /\
    audio_args p = Some a /\
    a !! "sampling_rate" = Some (AInt 22050) /\
    a !! "pad_to_samples" = Some (AInt 300000) /\
    a !! "path" = Some (AList [AStr "test_clean"]).
Proof.
  assert (H : exists p,
             init_arguments lookup_or_default toy_hparams toy_train_params = inr p)
    by (eexists; vm_compute; reflexivity).
  destruct H as [p H].
  destruct (audio_arguments_are_forced lookup_or_default toy_hparams
              toy_train_params p H ltac:(vm_compute; reflexivity))
    as (user & a & corpus & Huser & Ha & Hrate & _ & _ & Hpad & Hkeys & _).
  assert (Hu : toy_train_params !! "unsupervised_audio_args"
               = Some (ADict toy_audio_args)) by (vm_compute; reflexivity).
  rewrite Hu in Huser. injection Huser as <-.
  exists p, a. split; [exact H |]. split; [exact Ha |].
  split; [exact Hrate |]. split.
  - rewrite Hpad. vm_compute. reflexivity.
  - rewrite Hkeys by (cbn; intuition discriminate). vm_compute. reflexivity.
Defined.

Lemma init_arguments_needs_witness :
  (exists p,
      init_arguments lookup_or_default toy_hparams toy_train_params = inr p) /\
  (forall p,
      init_arguments lookup_or_default toy_hparams toy_val_params = inr p ->
      audio_args p = None /\ text_args p = None) /\
  ~ (exists p,
        init_arguments lookup_or_default toy_hparams
                       (delete "text_corpus_args" toy_train_params) = inr p).
Proof.
  split; [| split].
  - apply (proj2 (proj1 (init_arguments_needs lookup_or_default toy_hparams
                           toy_train_params))).
    split; [eexists; vm_compute; reflexivity |].
    split; [eexists; vm_compute; reflexivity |].
    split; [eexists; vm_compute; reflexivity |].
    split; [eexists; vm_compute; reflexivity |].
    split; [eexists; vm_compute; reflexivity |].
    intros _. split; eexists; vm_compute; reflexivity.
  - intros p H.
    apply (proj2 (init_arguments_needs lookup_or_default toy_hparams
                    toy_val_params) p H).
    vm_compute. reflexivity.
  - intros Hex.
    apply (proj1 (proj1 (init_arguments_needs lookup_or_default toy_hparams
                           (delete "text_corpus_args" toy_train_params))))
      in Hex.
    destruct Hex as (_ & _ & _ & _ & _ & Hsolo).
    destruct (Hsolo ltac:(vm_compute; reflexivity)) as [_ [corpus Hc]].
    vm_compute in Hc. discriminate Hc.
Defined.

End ArgumentsRuns.

Section DownsampleMoreRuns.

Import Downsample Examples More.

Lemma init_builds_exactly_when_witness :
  __init__ (toy_downsample_options "lmdb" "gt" "lq" true) tt
  = (Returned (toy_downsample "lmdb" "lq"), tt) /\
  forall ds,
    __init__ (toy_downsample_options "img" "gt" "nothing" true) tt
    <> (Returned ds, tt).
Proof.
  split.
  - apply (proj2 (init_builds_exactly_when
                    (toy_downsample_options "lmdb" "gt" "lq" true)
                    (toy_downsample "lmdb" "lq"))).
    exists ["g0"; "g1"; "g2"], ["l0"; "l1"],
           (Some ["8_8_3"; "8_8_3"; "8_8_3"]), (Some ["4_4_3"; "4_4_3"]).
    split; [reflexivity |]. split; [reflexivity |].
    split; [discriminate |]. split; [discriminate |].
    split; [discriminate | reflexivity].
  - intros ds H.
    apply (proj1 (init_builds_exactly_when
                    (toy_downsample_options "img" "gt" "nothing" true) ds))
      in H.
    destruct H as (gt & lq & sGT & sLQ & _ & HL & _ & Hlq & _).
    vm_compute in HL. injection HL as <- _. congruence.
Defined.

Lemma len_of_built_downsample_witness :
  exists n,
    __len__ {| this := toy_downsample "img" "lq"; random := tt |}
    = (Returned n, {| this := toy_downsample "img" "lq"; random := tt |}) /\
    3 <= n.
Proof.
  destruct (len_of_built_downsample
              (toy_downsample_options "img" "gt" "lq" true)
              (toy_downsample "img" "lq") tt eq_refl)
    as (gt & lq & n & HG & _ & Hlen & _ & Hgt & _).
  cbn in HG. injection HG as <-.
  exists n. split; [exact Hlen | exact Hgt].
Defined.

Lemma handles_are_opened_once_witness :
  exists w1,
    open_handles (toy_world "lmdb" "lq") = (Returned tt, w1) /\
    open_handles w1 = (Returned tt, w1) /\
    is_Some (GT_env (this w1)) /\ is_Some (LQ_env (this w1)).
Proof.
  assert (H : exists w1,
             open_handles (toy_world "lmdb" "lq") = (Returned tt, w1))
    by (eexists; vm_compute; reflexivity).
  destruct H as [w1 H].
  destruct (handles_are_opened_once (toy_world "lmdb" "lq") tt w1 H)
    as (Hagain & _ & Hset & _).
  exists w1. split; [exact H |]. split; [exact Hagain |].
  apply Hset. reflexivity.
Defined.

Lemma failed_open_witness :
  exists w',
    @__getitem__ flaky_libraries 1 flaky_world
    = (Raised (LibraryError "lmdb"), w') /\
    @GT_env flaky_libraries (@this flaky_libraries w') = Some "gt" /\
    @LQ_env flaky_libraries (@this flaky_libraries w') = None.
Proof.
  destruct (@failed_open_keeps_the_first_handle flaky_libraries 1 flaky_world
              eq_refl (or_introl eq_refl)) as [Hfirst _].
  destruct (Hfirst "gt" (LibraryError "lmdb") eq_refl eq_refl)
    as (w' & Hrun & Hg & Hl & _).
  exists w'. split; [exact Hrun |]. split; [exact Hg | exact Hl].
Defined.

Lemma downsample_record_witness :
  exists d w',
    __getitem__ 1 (toy_world "lmdb" "lq") = (Returned d, w') /\
    dom d = downsample_keys.
Proof.
  assert (H : exists d w',
             __getitem__ 1 (toy_world "lmdb" "lq") = (Returned d, w'))
    by (eexists _, _; vm_compute; reflexivity).
  destruct H as (d & w' & H). exists d, w'. split; [exact H |].
  apply (downsample_record_has_five_keys 1 (toy_world "lmdb" "lq") d w' H).
Defined.

Lemma zero_scale_witness :
  o_scale (opt (this (toy_world_with "img" "val" 0 2))) = 0 /\
  forall d w',
    __getitem__ 1 (toy_world_with "img" "val" 0 2) <> (Returned d, w').
Proof.
  split; [reflexivity |].
  apply (zero_scale_never_returns 1 (toy_world_with "img" "val" 0 2)).
  reflexivity.
Defined.

Lemma small_HQ_image_witness :
  train_transform toy_LQ toy_HQ (toy_world_with "img" "train" 2 5)
  = (Raised (AssertionError EmptyString), toy_world_with "img" "train" 2 5).
Proof.
  apply (@small_HQ_image_is_refused toy_libraries toy_LQ toy_HQ
           (toy_world_with "img" "train" 2 5) 8 8 3).
  - reflexivity.
  - reflexivity.
  - left. cbn. lia.
Defined.

Lemma crops_are_aligned_witness :
  exists lq' gt' w',
    train_transform toy_LQ toy_HQ (toy_world_with "img" "train" 2 2)
    = (Returned (lq', gt'), w') /\
    exists rnd_h rnd_w aug,
      lq' = apply_augmentation aug
              (crop toy_LQ rnd_h (rnd_h + 2) rnd_w (rnd_w + 2)) /\
      gt' = apply_augmentation aug
              (crop toy_HQ (rnd_h * 2) ((rnd_h + 2) * 2)
                    (rnd_w * 2) ((rnd_w + 2) * 2)).
Proof.
  assert (H : exists lq' gt' w',
             train_transform toy_LQ toy_HQ (toy_world_with "img" "train" 2 2)
             = (Returned (lq', gt'), w'))
    by (eexists _, _, _; vm_compute; reflexivity).
  destruct H as (lq' & gt' & w' & H). exists lq', gt', w'.
  split; [exact H |].
  destruct (@crops_are_aligned toy_libraries toy_LQ toy_HQ
              (toy_world_with "img" "train" 2 2)
              lq' gt' w' eq_refl eq_refl ltac:(cbn; lia) H)
    as (rnd_h & rnd_w & aug & Hlq & Hgt & _).
  exists rnd_h, rnd_w, aug. split; [exact Hlq | exact Hgt].
Defined.

Lemma evaluation_lookup_witness :
  snd (__getitem__ 1 (toy_val_world "lmdb" "lq"))
  = snd (open_handles (toy_val_world "lmdb" "lq")) /\
  random (snd (__getitem__ 1 (toy_val_world "lmdb" "lq"))) = tt.
Proof.
  apply (evaluation_lookup_is_not_random 1 (toy_val_world "lmdb" "lq")).
  - cbn. discriminate.
  - reflexivity.
Defined.

Lemma downsample_lookup_is_periodic_witness :
  __getitem__ (1 + 6) (toy_world "img" "lq")
  = __getitem__ 1 (toy_world "img" "lq") /\
  __getitem__ (1 + -12) (toy_world "img" "lq")
  = __getitem__ 1 (toy_world "img" "lq").
Proof.
  split.
  - apply (downsample_lookup_is_periodic 1 6 (toy_world "img" "lq")).
    + cbn. discriminate.
    + intros gt H. vm_compute in H. injection H as <-. exists 2. reflexivity.
    + intros lq H. vm_compute in H. injection H as <-. exists 3. reflexivity.
  - apply (downsample_lookup_is_periodic 1 (-12) (toy_world "img" "lq")).
    + cbn. discriminate.
    + intros gt H. vm_compute in H. injection H as <-. exists (-4). reflexivity.
    + intros lq H. vm_compute in H. injection H as <-. exists (-6). reflexivity.
Defined.

Lemma lmdb_reads_the_matching_size_witness :
  exists p img w',
    get_LQ_image 1 (toy_world "lmdb" "lq") = (Returned (p, img), w') /\
    p = "l1" /\
    exists res,
      parse_resolution "4_4_3" = inr res /\
      toy_read_img None p (Some res) = inr img.
Proof.
  assert (H : exists p img w',
             get_LQ_image 1 (toy_world "lmdb" "lq") = (Returned (p, img), w'))
    by (eexists _, _, _; vm_compute; reflexivity).
  destruct H as (p & img & w' & H). exists p, img, w'. split; [exact H |].
  destruct (lmdb_reads_the_matching_size 1 (toy_world "lmdb" "lq") p img w'
              eq_refl ltac:(lia) H)
    as (paths & sizes & size & res & HP & HS & Hsize & Hres & Hread & Hpath).
  vm_compute in HP. injection HP as <-.
  vm_compute in HS. injection HS as <-.
  vm_compute in Hsize. injection Hsize as <-.
  specialize (Hpath ltac:(unfold len; cbn; lia)).
  vm_compute in Hpath. injection Hpath as <-.
  split; [reflexivity |]. exists res. split; [exact Hres | exact Hread].
Defined.

End DownsampleMoreRuns.
